(** * Call-graph and control-flow export of androguard's command surface

    A shallow embedding of [androcg_main] and [export_apps_to_format]
    (src/main.py) together with the Python and networkx primitives they
    call, and the properties of the exported corpus document; then the
    other entry points of the module ([valid_class_name], [plot],
    [androdis_main], [androsign_main], [androaxml_main], [androarsc_main],
    [androlyze_main]), each with the answers of its collaborators as
    parameters, and the properties of their control flow and output. *)

From Stdlib Require Import ZArith Lia List Ascii String HexString.
From stdpp Require Import base option list strings gmap pretty.

(** ** Python primitives used by the source *)

Module Py.

(** Exceptions that leave the functions modelled here. [SystemExit] carries
    the exit status passed to [sys.exit]. *)
Inductive exn :=
| SystemExit (code : Z)
| ValueError
| IndexError
| AssertionError.

Inductive res (A : Type) :=
| Ok (a : A)
| Raise (e : exn).
Arguments Ok {A} a.
Arguments Raise {A} e.

(** [l.index(x)]: position of the first occurrence; [None] stands for the
    [ValueError] Python raises when there is none. *)
Fixpoint index {A : Type} `{EqDecision A} (x : A) (l : list A) : option nat :=
  match l with
  | [] => None
  | y :: l' => if decide (y = x) then Some 0 else S <$> index x l'
  end.

(** Scan of the reversed string for [str.rsplit(sep, maxsplit)]: [cur] is
    the piece being read (already in reading order), pieces come out
    rightmost first. *)
Fixpoint rsplit_scan (sep : ascii) (maxsplit : nat) (cur l : list ascii)
  : list (list ascii) :=
  match l with
  | [] => [cur]
  | c :: l' =>
      if decide (c = sep) then
        match maxsplit with
        | 0 => rsplit_scan sep 0 (c :: cur) l'
        | S k => cur :: rsplit_scan sep k [] l'
        end
      else rsplit_scan sep maxsplit (c :: cur) l'
  end.

(** [s.rsplit(sep, maxsplit)] for a one-character separator. *)
Definition rsplit (s : string) (sep : ascii) (maxsplit : nat) : list string :=
  rev (map string_of_list_ascii
         (rsplit_scan sep maxsplit [] (rev (list_ascii_of_string s)))).

(** [s.endswith(c)] for one character. *)
Definition endswith (s : string) (c : ascii) : bool :=
  match rev (list_ascii_of_string s) with
  | c' :: _ => bool_decide (c' = c)
  | [] => false
  end.

Definition startswith (s : string) (c : ascii) : bool :=
  match s with
  | String c' _ => bool_decide (c' = c)
  | EmptyString => false
  end.

(** [os.path.join(a, b)] (posixpath, two components). *)
Definition os_path_join (a b : string) : string :=
  if startswith b "/" then b
  else if bool_decide (a = "") || endswith a "/" then a +:+ b
  else a +:+ "/" +:+ b.

End Py.

Export Py.

(** ** networkx directed graphs

    The operations of the networkx library that the source calls, after
    the library's own implementation of [DiGraph]: nodes and successors are
    kept in insertion order, adding a node or an edge that is there already
    changes nothing. *)

Module Nx.

Section digraph.
Context {N : Type} `{EqDecision N}.

(** A [DiGraph]: the adjacency dict in insertion order, one entry per
    node holding the successors in insertion order. *)
Definition DiGraph := list (N * list N).

Definition nodes (G : DiGraph) : list N := map fst G.

Definition number_of_nodes (G : DiGraph) : nat := length G.

(** [G.edges()]: by source in node order, then by successor order. *)
Definition edges (G : DiGraph) : list (N * N) :=
  flat_map (fun e => map (pair (fst e)) (snd e)) G.

Definition number_of_edges (G : DiGraph) : nat := length (edges G).

Definition add_node (n : N) (G : DiGraph) : DiGraph :=
  if decide (n ∈ nodes G) then G else G ++ [(n, [])].

Definition add_succ (u v : N) (G : DiGraph) : DiGraph :=
  map (fun e => if decide (fst e = u)
                then (fst e, if decide (v ∈ snd e) then snd e else snd e ++ [v])
                else e) G.

Definition add_edge (u v : N) (G : DiGraph) : DiGraph :=
  add_succ u v (add_node v (add_node u G)).

Definition add_nodes_from (ns : list N) (G : DiGraph) : DiGraph :=
  fold_left (fun H n => add_node n H) ns G.

Definition add_edges_from (es : list (N * N)) (G : DiGraph) : DiGraph :=
  fold_left (fun H e => add_edge (fst e) (snd e) H) es G.

(** The class invariant of a [DiGraph]: node keys are pairwise distinct,
    no successor is listed twice, every successor is a node. *)
Definition wf (G : DiGraph) : Prop :=
  NoDup (nodes G) /\
  Forall (fun e => NoDup (snd e) /\ Forall (fun v => v ∈ nodes G) (snd e)) G.

#[global] Instance wf_dec (G : DiGraph) : Decision (wf G).
Proof. unfold wf. apply _. Defined.

(** [nx.to_pandas_edgelist(G)] read back as [list(df.source)] and
    [list(df.target)]. *)
Definition edgelist_source (G : DiGraph) : list N := map fst (edges G).
Definition edgelist_target (G : DiGraph) : list N := map snd (edges G).
End digraph.

Arguments DiGraph N : clear implicits.

(** [nx.relabel_nodes(G, mapping)] with [copy=True]: a new graph receives
    the renamed nodes in node order, then the renamed edges in edge
    order; [f n] stands for [mapping.get(n, n)]. *)
Definition relabel_copy {N M : Type} `{EqDecision N} `{EqDecision M}
    (f : N -> M) (G : DiGraph N) : DiGraph M :=
  add_edges_from (map (fun e => (f (fst e), f (snd e))) (edges G))
                 (add_nodes_from (map f (nodes G)) []).

Definition relabel_nodes (G : DiGraph nat) (mapping : gmap nat nat) : DiGraph nat :=
  relabel_copy (fun n => default n (mapping !! n)) G.

(** [nx.convert_node_labels_to_integers(G)]: the mapping is
    [dict(zip(G.nodes(), range(N)))], so a node is sent to its position. *)
Definition convert_node_labels_to_integers {N : Type} `{EqDecision N}
    (G : DiGraph N) : DiGraph nat :=
  relabel_copy (fun n => default 0 (index n (nodes G))) G.

End Nx.

(** ** JSON text at the level of tokens *)

Module Json.

Inductive token :=
| TLBrace | TRBrace | TLBracket | TRBracket | TComma | TColon
| TStr (s : string)
| TNum (n : Z).

(** Values handed to [json.dumps]. *)
#[local] Unset Elimination Schemes.
Inductive json :=
| JNum (n : Z)
| JStr (s : string)
| JArr (l : list json)
| JObj (l : list (string * json)).
#[local] Set Elimination Schemes.

(** Items separated by commas. *)
Fixpoint sep_join (l : list (list token)) : list token :=
  match l with
  | [] => []
  | [x] => x
  | x :: l' => x ++ TComma :: sep_join l'
  end.

(** The token sequence of [json.dumps(v)]. *)
Fixpoint dumps (v : json) : list token :=
  match v with
  | JNum n => [TNum n]
  | JStr s => [TStr s]
  | JArr l => TLBracket :: sep_join (List.map dumps l) ++ [TRBracket]
  | JObj l =>
      TLBrace ::
        sep_join (List.map (fun kv => TStr (fst kv) :: TColon :: dumps (snd kv)) l)
        ++ [TRBrace]
  end.

(** The JSON grammar: a document is one value. *)
Inductive json_value : list token -> Prop :=
| JV_num n : json_value [TNum n]
| JV_str s : json_value [TStr s]
| JV_arr_nil : json_value [TLBracket; TRBracket]
| JV_arr es : json_elements es -> json_value (TLBracket :: es ++ [TRBracket])
| JV_obj_nil : json_value [TLBrace; TRBrace]
| JV_obj ms : json_members ms -> json_value (TLBrace :: ms ++ [TRBrace])
with json_elements : list token -> Prop :=
| JE_one v : json_value v -> json_elements v
| JE_more v es :
    json_value v -> json_elements es -> json_elements (v ++ TComma :: es)
with json_members : list token -> Prop :=
| JM_one k v : json_value v -> json_members (TStr k :: TColon :: v)
| JM_more k v ms :
    json_value v -> json_members ms ->
    json_members (TStr k :: TColon :: v ++ TComma :: ms).

Scheme json_value_mut := Minimality for json_value Sort Prop
with json_elements_mut := Minimality for json_elements Sort Prop
with json_members_mut := Minimality for json_members Sort Prop.

Combined Scheme json_grammar_ind
  from json_value_mut, json_elements_mut, json_members_mut.

(** Nesting depth reached after reading a token sequence. *)
Definition delta (t : token) : Z :=
  match t with
  | TLBrace | TLBracket => 1
  | TRBrace | TRBracket => -1
  | _ => 0
  end%Z.

Fixpoint depth (ts : list token) : Z :=
  match ts with
  | [] => 0
  | t :: ts' => delta t + depth ts'
  end%Z.

(** Lexer for the literal fragments the writer emits: punctuation, blanks
    and plain quoted names. [cur] holds the characters of an open string
    literal, last first. *)
Definition dquote : ascii := "034"%char.
Definition newline : ascii := "010"%char.

Fixpoint lex_from (cur : option (list ascii)) (l : list ascii)
  : option (list token) :=
  match l with
  | [] => match cur with None => Some [] | Some _ => None end
  | c :: l' =>
      match cur with
      | Some acc =>
          if decide (c = dquote)
          then cons (TStr (string_of_list_ascii (rev acc))) <$> lex_from None l'
          else lex_from (Some (c :: acc)) l'
      | None =>
          if decide (c = dquote) then lex_from (Some []) l'
          else if decide (c = "{"%char) then cons TLBrace <$> lex_from None l'
          else if decide (c = "}"%char) then cons TRBrace <$> lex_from None l'
          else if decide (c = "["%char) then cons TLBracket <$> lex_from None l'
          else if decide (c = "]"%char) then cons TRBracket <$> lex_from None l'
          else if decide (c = ","%char) then cons TComma <$> lex_from None l'
          else if decide (c = ":"%char) then cons TColon <$> lex_from None l'
          else if decide (c = " "%char) then lex_from None l'
          else if decide (c = newline) then lex_from None l'
          else None
      end
  end.

Definition lex (s : string) : option (list token) :=
  lex_from None (list_ascii_of_string s).

End Json.

Export Nx.
Export Json.

(** ** What the collaborators hand over *)

(** A feature vector is opaque to the exporter; [json.dumps] serialises it,
    so it is kept as the JSON value it serialises to. *)
Definition feature := json.

(** Modelled from the spec: the graph returned by [method2dotaggregated]
    (androguard.core.bytecode, not under src/), "nodes = aggregated basic
    blocks, each carrying an opaque fixed-shape feature vector". It is kept
    as the source reads it: the node dict in insertion order with the
    [features] attribute where a node carries one, and the edge list as
    [nx.to_pandas_edgelist] enumerates it. Node ids are the graph's own. *)
Record CFG := {
  cfg_nodes : list (nat * option feature);
  cfg_edges : list (nat * nat)
}.

Definition cfg_number_of_nodes (cfg : CFG) : nat := length (cfg_nodes cfg).

(** [nx.get_node_attributes(cfg, "features")]: the nodes that carry the
    attribute, with its value. *)
Definition get_node_attributes (cfg : CFG) : list (nat * feature) :=
  omap (fun nd => pair (fst nd) <$> snd nd) (cfg_nodes cfg).

Definition instruction := nat.

(** Modelled from the spec: a method of a DEX object with what the source
    asks of it and of its analysis (androguard.core.dex and
    androguard.core.analysis, not under src/): the three parts of its
    signature, its instructions and its aggregated control-flow graph. *)
Record Method := {
  get_class_name : string;
  get_name : string;
  get_descriptor : string;
  get_instructions : list instruction;
  method2dotaggregated : CFG
}.

Record DEX := { get_methods : list Method }.

(** Modelled from the spec: the session after analysis
    (androguard.session and androguard.core.analysis, not under src/): the
    DEX objects of [s.get_objects_dex()] and what
    [dx.get_modified_call_graph(...)] returns, "a graph plus parallel
    node-label and node-is-external tables". *)
Record Session (N : Type) := {
  get_objects_dex : list DEX;
  call_graph : DiGraph N;
  cg_nodes_by_label : list string;
  cg_nodes_by_external : list bool
}.
Arguments get_objects_dex {N} _.
Arguments call_graph {N} _.
Arguments cg_nodes_by_label {N} _.
Arguments cg_nodes_by_external {N} _.

(** A compiled pattern, by its [search] method. *)
Definition pattern := string -> bool.

(** ** Text written to the corpus file *)

Inductive piece :=
| Lit (s : string)            (* a literal of the source *)
| JsonDumps (v : json)        (* json.dumps(v) *)
| PyStr (l : list nat).       (* str(l) for a list of ints *)

Definition piece_tokens (p : piece) : option (list token) :=
  match p with
  | Lit s => lex s
  | JsonDumps v => Some (dumps v)
  | PyStr l => Some (dumps (JArr (map (fun n => JNum (Z.of_nat n)) l)))
  end.

Fixpoint text_tokens (text : list piece) : option (list token) :=
  match text with
  | [] => Some []
  | p :: text' =>
      match piece_tokens p, text_tokens text' with
      | Some ts, Some ts' => Some (ts ++ ts')
      | _, _ => None
      end
  end.

(** The text is one well-formed JSON document. *)
Definition is_json_document (text : list piece) : Prop :=
  exists ts, text_tokens text = Some ts /\ json_value ts.

(** ** Effects: a trace of observable events and an outcome *)

Inductive graph_writer :=
| write_gml | write_gexf | write_gpickle | write_graphml | write_yaml | write_pajek.

Inductive event :=
| PrintOut (msg : string)
| LogError (msg : string)
| Plot
| WriteGraph (writer : graph_writer) (path : string)
| SetDecompiler (tag : string)
| MoveJar (path : string)
| ExtractCfg (method_name : string)
| FileWrite (text : list piece).

Definition M (A : Type) : Type := (list event * res A)%type.

#[global] Instance M_ret : MRet M := fun A a => ([], Ok a).
#[global] Instance M_bind : MBind M := fun A B k m =>
  match m with
  | (t, Ok a) => let '(t', r) := k a in (t ++ t', r)
  | (t, Raise e) => (t, Raise e)
  end.

Definition emit (e : event) : M unit := ([e], Ok ()).
Definition raise {A : Type} (e : exn) : M A := ([], Raise e).
Definition lift {A : Type} (r : res A) : M A := ([], r).

(** The text of the corpus file after a trace. *)
Definition written (t : list event) : list piece :=
  flat_map (fun e => match e with FileWrite text => text | _ => [] end) t.

(** ** The call-graph-only path: [androcg_main] *)

(** The selection of the format key, written the same way in [androcg_main]
    (lines 121-123) and in [export_apps_to_format] (lines 228-230). A
    missing index is Python's [IndexError]. *)
Definition format_key (output : string) : res string :=
  match rsplit output "." 1 !! 1 with
  | None => Raise IndexError
  | Some writer =>
      if bool_decide (writer ∈ ["bz2"; "gz"]) then
        match rsplit output "." 2 !! 1 with
        | None => Raise IndexError
        | Some writer' => Ok writer'
        end
      else Ok writer
  end.

(** "Could not find a method to export files to {}!".format(writer) *)
Definition no_writer_message (writer : string) : string :=
  "Could not find a method to export files to " +:+ writer +:+ "!".

Module Androcg.
Definition write_methods : gmap string graph_writer :=
  list_to_map [("gml", write_gml); ("gexf", write_gexf);
               ("gpickle", write_gpickle); ("graphml", write_graphml);
               ("yaml", write_yaml); ("net", write_pajek)].
End Androcg.

(** [androcg_main] from the point where the call graph has been built. *)
Definition androcg_main (show : bool) (output : string) : M unit :=
  if show then emit Plot
  else
    writer ← lift (format_key output);
    match Androcg.write_methods !! writer with
    | None =>
        emit (PrintOut (no_writer_message writer));;
        raise (SystemExit 1)
    | Some w => emit (WriteGraph w output)
    end.

(** ** The export orchestrator: [export_apps_to_format] *)

Definition write_methods : gmap string graph_writer :=
  list_to_map [("gml", write_gml); ("gexf", write_gexf);
               ("graphml", write_graphml); ("net", write_pajek)].

Definition q : string := String dquote "".
Definition nl : string := String newline "".

Definition lit_open : string := "{" +:+ q +:+ "acfg_list" +:+ q +:+ ": [".
Definition lit_sep : string := "," +:+ nl.
Definition lit_cg_edges : string :=
  "]," +:+ nl +:+ " " +:+ q +:+ "cg_edges" +:+ q +:+ ": [".
Definition lit_cg_close : string := "]," +:+ nl.
Definition lit_method_names : string := q +:+ "method_names" +:+ q +:+ ": ".

(** "{}{}{}".format(class name, name, descriptor) *)
Definition signature (method : Method) : string :=
  get_class_name method +:+ get_name method +:+ get_descriptor method.

(** The dict handed to [json.dumps] for one method. *)
Definition cfg_data (cfg : CFG) : json :=
  JObj [("edges",
          JArr [JArr (map (fun e => JNum (Z.of_nat (fst e))) (cfg_edges cfg));
                JArr (map (fun e => JNum (Z.of_nat (snd e))) (cfg_edges cfg))]);
        ("features",
          JObj (map (fun nf => (pretty (fst nf), snd nf))
                    (get_node_attributes cfg)))].

(** The variables that live across the method loop. *)
Record registry := {
  methods : gmap string nat;
  method_names : list string;
  first_iteration : bool
}.

(** The body of [for method in vm.get_methods()]. *)
Definition dump_method (methods_filter_expr : option pattern)
    (method : Method) (st : registry) : M registry :=
  if match methods_filter_expr with
     | Some search => negb (search (signature method))
     | None => false
     end
  then mret st
  else if bool_decide (length (get_instructions method) = 0) then mret st
  else
    let method_name := signature method in
    let method_id := size (methods st) in
    let methods' := <[method_name := method_id]> (methods st) in
    let method_names' := method_names st ++ [method_name] in
    emit (ExtractCfg method_name);;
    let cfg := method2dotaggregated method in
    let cfg_features := get_node_attributes cfg in
    if bool_decide (length cfg_features = cfg_number_of_nodes cfg) then
      (if first_iteration st then mret () else emit (FileWrite [Lit lit_sep]));;
      emit (FileWrite [JsonDumps (cfg_data cfg)]);;
      mret {| methods := methods'; method_names := method_names';
              first_iteration := false |}
    else raise AssertionError.

Fixpoint dump_methods (methods_filter_expr : option pattern)
    (ms : list Method) (st : registry) : M registry :=
  match ms with
  | [] => mret st
  | method :: ms' =>
      st' ← dump_method methods_filter_expr method st;
      dump_methods methods_filter_expr ms' st'
  end.

(** The variables of the relabeling walk. *)
Record walk := {
  rename_nodes : gmap nat nat;
  counter : nat;
  names : list string
}.

(** [for i in range(len(cg_nodes_by_label))], entered at index [i] with
    [labels] the labels from [i] on. *)
Fixpoint relabel_walk (cg_nodes_by_external : list bool) (i : nat)
    (labels : list string) (w : walk) : res walk :=
  match labels with
  | [] => Ok w
  | label :: labels' =>
      match cg_nodes_by_external !! i with
      | None => Raise IndexError
      | Some true =>
          relabel_walk cg_nodes_by_external (S i) labels'
            {| rename_nodes := <[i := counter w]> (rename_nodes w);
               counter := S (counter w);
               names := names w ++ [label] |}
      | Some false =>
          match index label (names w) with
          | None => Raise ValueError
          | Some id =>
              relabel_walk cg_nodes_by_external (S i) labels'
                {| rename_nodes := <[i := id]> (rename_nodes w);
                   counter := counter w;
                   names := names w |}
          end
      end
  end.

Definition decompilers : list string :=
  ["dex2jad"; "dex2winejad"; "ded"; "dex2fernflower"].

(** What one pass of [for _, vm, vmx in s.get_objects_dex()] leaves behind:
    the renaming it built and the relabeled call graph. *)
Record relabeling := {
  rename_of : gmap nat nat;
  graph_of : DiGraph nat
}.

(** Lines 350-364: the renaming is built from the node tables and applied
    to the call graph. *)
Definition relabel_call_graph {N : Type} `{EqDecision N}
    (cg_nodes_by_label : list string) (cg_nodes_by_external : list bool)
    (method_names0 : list string) (CG : DiGraph N)
    : res (walk * DiGraph nat) :=
  let num_local_functions := length method_names0 in
  let CG1 := convert_node_labels_to_integers CG in
  match relabel_walk cg_nodes_by_external 0 cg_nodes_by_label
          {| rename_nodes := ∅; counter := num_local_functions;
             names := method_names0 |} with
  | Ok w => Ok (w, relabel_nodes CG1 (rename_nodes w))
  | Raise e => Raise e
  end.

(** Lines 252-271: the decompiler backend named by the tag, if any. *)
Definition set_decompiler (decompiler_type : option string) : M unit :=
  match decompiler_type with
  | Some tag => if bool_decide (tag ∈ decompilers) then emit (SetDecompiler tag)
                else mret ()
  | None => mret ()
  end.

(** Lines 275-281. *)
Definition make_jar (output : string) (jar : bool) : M unit :=
  if jar then
    emit (PrintOut "jar ...");;
    emit (MoveJar (os_path_join output "classes.jar"));;
    emit (PrintOut "End")
  else mret ().

(** The body of the loop over the DEX objects. *)
Definition export_dex {N : Type} `{EqDecision N} (output : string)
    (methods_filter_expr : option pattern) (jar : bool)
    (decompiler_type : option string)
    (cg_nodes_by_label : list string) (cg_nodes_by_external : list bool)
    (vm : DEX) (methods0 : gmap string nat) (method_names0 : list string)
    (CG : DiGraph N) : M (gmap string nat * list string * relabeling) :=
  set_decompiler decompiler_type;;
  make_jar output jar;;
  st ← dump_methods methods_filter_expr (get_methods vm)
         {| methods := methods0; method_names := method_names0;
            first_iteration := true |};
  wg ← lift (relabel_call_graph cg_nodes_by_label cg_nodes_by_external
               (method_names st) CG);
  let w := wg.1 in
  let CG2 := wg.2 in
  let cg_edges_s := edgelist_source CG2 in
  let cg_edges_t := edgelist_target CG2 in
  emit (FileWrite [Lit lit_cg_edges; PyStr cg_edges_s; Lit ",";
                   PyStr cg_edges_t; Lit lit_cg_close]);;
  emit (FileWrite [Lit lit_method_names;
                   JsonDumps (JArr (map JStr (names w))); Lit "}"]);;
  mret (methods st, names w, {| rename_of := rename_nodes w; graph_of := CG2 |}).

(** The loop over the DEX objects. [CG] is rebound by every pass, so the
    later passes start from the graph the earlier one relabeled. *)
Fixpoint export_loop {N : Type} `{EqDecision N} (output : string)
    (methods_filter_expr : option pattern) (jar : bool)
    (decompiler_type : option string)
    (cg_nodes_by_label : list string) (cg_nodes_by_external : list bool)
    (dexes : list DEX) (methods0 : gmap string nat)
    (method_names0 : list string) (CG : DiGraph N) (done : list relabeling)
    : M (gmap string nat * list string * list relabeling) :=
  match dexes with
  | [] => mret (methods0, method_names0, done)
  | vm :: dexes' =>
      r ← export_dex output methods_filter_expr jar decompiler_type
            cg_nodes_by_label cg_nodes_by_external vm methods0 method_names0 CG;
      export_loop output methods_filter_expr jar decompiler_type
        cg_nodes_by_label cg_nodes_by_external dexes'
        r.1.1 r.1.2 (graph_of r.2) (done ++ [r.2])
  end.

(** The values of the local variables when the function returns. *)
Record export_locals := {
  final_methods : gmap string nat;
  final_method_names : list string;
  relabelings : list relabeling
}.

(** [export_apps_to_format] from line 220 on, for a given [cg_output]. *)
Definition export_with_cg_output {N : Type} `{EqDecision N} (cg_output : string)
    (s : Session N) (output : string) (methods_filter : option pattern)
    (jar : bool) (decompiler_type : option string) : M export_locals :=
  writer ← lift (format_key cg_output);
  match write_methods !! writer with
  | None =>
      emit (LogError (no_writer_message writer));;
      raise (SystemExit 1)
  | Some w =>
      emit (WriteGraph w cg_output);;
      emit (FileWrite [Lit lit_open]);;
      r ← export_loop output methods_filter jar decompiler_type
            (cg_nodes_by_label s) (cg_nodes_by_external s)
            (get_objects_dex s) ∅ [] (call_graph s) [];
      mret {| final_methods := r.1.1; final_method_names := r.1.2;
              relabelings := r.2 |}
  end.

Definition export_apps_to_format {N : Type} `{EqDecision N} (filename : string)
    (s : Session N) (output : string) (methods_filter : option pattern)
    (jar : bool) (decompiler_type : option string) (form : option string)
    : M export_locals :=
  let cg_output := os_path_join output "callgraph.gml" in
  export_with_cg_output cg_output s output methods_filter jar decompiler_type.

(** ** Vocabulary of the statements *)

(** A method is exported when the filter, if any, finds a match in its
    signature and it has at least one instruction. *)
Definition qualifies (methods_filter_expr : option pattern) (method : Method)
  : bool :=
  match methods_filter_expr with
  | Some search => search (signature method)
  | None => true
  end && negb (bool_decide (length (get_instructions method) = 0)).

Definition qualifying (methods_filter_expr : option pattern)
    (ms : list Method) : list Method :=
  List.filter (qualifies methods_filter_expr) ms.

(** The check of line 319. *)
Definition cfg_consistent (cfg : CFG) : Prop :=
  length (get_node_attributes cfg) = cfg_number_of_nodes cfg.

#[global] Instance cfg_consistent_dec cfg : Decision (cfg_consistent cfg).
Proof. unfold cfg_consistent. apply _. Defined.

(** The trace of the method loop over exported methods whose check passes. *)
Fixpoint entries_trace (first : bool) (Q : list Method) : list event :=
  match Q with
  | [] => []
  | m :: Q' =>
      ExtractCfg (signature m) ::
        (if first then [] else [FileWrite [Lit lit_sep]]) ++
        FileWrite [JsonDumps (cfg_data (method2dotaggregated m))] ::
        entries_trace false Q'
  end.

(** The two writes that close the document (lines 370-371). *)
Definition closing_writes (CG2 : DiGraph nat) (method_names : list string)
  : list event :=
  [FileWrite [Lit lit_cg_edges; PyStr (edgelist_source CG2); Lit ",";
              PyStr (edgelist_target CG2); Lit lit_cg_close];
   FileWrite [Lit lit_method_names;
              JsonDumps (JArr (map JStr method_names)); Lit "}"]].

(** The [methods] dict after registering the methods of [Q] in order. *)
Definition register (Q : list Method) (methods0 : gmap string nat)
  : gmap string nat :=
  fold_left (fun ms m => <[signature m := size ms]> ms) Q methods0.

(** The labels of the external nodes, in table order. *)
Fixpoint external_names (labels : list string) (externals : list bool)
  : list string :=
  match labels, externals with
  | label :: labels', b :: externals' =>
      (if b then [label] else []) ++ external_names labels' externals'
  | _, _ => []
  end.

(** How many of the first [k] nodes are external. *)
Definition externals_before (k : nat) (externals : list bool) : nat :=
  length (List.filter id (take k externals)).

(** The id the walk gives to the node at position [k]: an external node
    takes the next free id after the [names0] already registered, an
    internal node the index of its label among them. *)
Definition node_id (labels : list string) (externals : list bool)
    (names0 : list string) (k : nat) : option nat :=
  match labels !! k, externals !! k with
  | Some label, Some true =>
      Some (length names0 + externals_before k externals)
  | Some label, Some false => index label names0
  | _, _ => None
  end.

(** The node tables run parallel to the nodes of the graph. *)
Definition tables_parallel {N : Type} (CG : DiGraph N) (labels : list string)
    (externals : list bool) : Prop :=
  length labels = number_of_nodes CG /\ length externals = length labels.

(** Every internal node carries the name of a registered method. *)
Definition internals_registered (labels : list string) (externals : list bool)
    (names0 : list string) : Prop :=
  forall k label, labels !! k = Some label -> externals !! k = Some false ->
                  label ∈ names0.

(** No two internal nodes carry the same label. *)
Definition internals_distinct (labels : list string) (externals : list bool)
  : Prop :=
  forall k k' label,
    labels !! k = Some label -> labels !! k' = Some label ->
    externals !! k = Some false -> externals !! k' = Some false -> k = k'.

(** The id of a node of the call graph: the id of its position. *)
Definition registry_id {N : Type} `{EqDecision N} (CG : DiGraph N)
    (labels : list string) (externals : list bool) (names0 : list string)
    (n : N) : nat :=
  let k := default 0 (index n (nodes CG)) in
  default k (node_id labels externals names0 k).

(** A trace that writes nothing to the corpus file and extracts no CFG. *)
Definition silent (t : list event) : Prop :=
  Forall (fun e => match e with
                   | FileWrite _ | ExtractCfg _ | WriteGraph _ _ => False
                   | _ => True
                   end) t.

(** A token sequence that never closes more than it has opened and ends at
    depth 0. *)
Definition balanced (ts : list token) : Prop :=
  depth ts = 0%Z /\ forall p q, ts = p ++ q -> (0 <= depth p)%Z.

(** The document a pass over one DEX object is meant to write. *)
Definition corpus_document (Q : list Method) (CG2 : DiGraph nat)
    (method_names : list string) : json :=
  JObj [("acfg_list",
          JArr (map (fun m => cfg_data (method2dotaggregated m)) Q));
        ("cg_edges",
          JArr [JArr (map (fun n => JNum (Z.of_nat n)) (edgelist_source CG2));
                JArr (map (fun n => JNum (Z.of_nat n)) (edgelist_target CG2))]);
        ("method_names", JArr (map JStr method_names))].

(** The trace of passes that all ran to their end, one per DEX object: each
    starts its entries afresh and ends with the closing writes. *)
Inductive completed_passes (filt : option pattern)
  : list DEX -> list event -> Prop :=
| passes_nil : completed_passes filt [] []
| passes_cons vm dexes t0 CG2 method_names t :
    silent t0 ->
    completed_passes filt dexes t ->
    completed_passes filt (vm :: dexes)
      ((t0 ++ entries_trace true (qualifying filt (get_methods vm))
           ++ closing_writes CG2 method_names) ++ t).

(** A graph with every node renamed in place. *)
Definition map_graph {N M : Type} (f : N -> M) (G : DiGraph N) : DiGraph M :=
  map (fun e => (f (fst e), map f (snd e))) G.

(** A name without a dot: what can stand as an extension. *)
Definition no_dot (s : string) : Prop := "."%char ∉ list_ascii_of_string s.

#[global] Instance no_dot_dec s : Decision (no_dot s).
Proof. unfold no_dot. apply _. Defined.

(** ** Further Python primitives

    What the other entry points of the module ask of Python's strings. *)

Module PyStr.

(** [s[i]], where a negative index counts from the end. *)
Definition getitem (s : string) (i : Z) : res ascii :=
  let len := Z.of_nat (String.length s) in
  let j := if (i <? 0)%Z then (i + len)%Z else i in
  if (j <? 0)%Z then Raise IndexError
  else match String.get (Z.to_nat j) s with
       | Some c => Ok c
       | None => Raise IndexError
       end.

(** [s[start:stop]]: a negative bound counts from the end, and both are
    clipped to the string. *)
Definition slice (s : string) (start stop : Z) : string :=
  let len := Z.of_nat (String.length s) in
  let clip i := if (i <? 0)%Z then Z.max 0 (i + len) else Z.min i len in
  substring (Z.to_nat (clip start)) (Z.to_nat (clip stop - clip start)) s.

(** [s.split(sep)] for a one-character separator, as the first piece and
    the pieces after it: the list Python returns is never empty. *)
Fixpoint split (s : string) (sep : ascii) : string * list string :=
  match s with
  | EmptyString => (EmptyString, [])
  | String c s' =>
      let '(a, p) := split s' sep in
      if decide (c = sep) then (EmptyString, a :: p) else (String c a, p)
  end.

(** [sub in s]. *)
Fixpoint contains (sub s : string) : bool :=
  String.prefix sub s ||
  match s with
  | EmptyString => false
  | String _ s' => contains sub s'
  end.

(** [os.path.basename(p)] (posixpath): what follows the last slash. *)
Definition os_path_basename (p : string) : string :=
  let '(a, ps) := split p "/" in default a (last ps).

(** [s.lower()] on ASCII text. *)
Definition lower_char (c : ascii) : ascii :=
  let n := nat_of_ascii c in
  if (65 <=? n) && (n <=? 90) then ascii_of_nat (n + 32) else c.

Fixpoint lower (s : string) : string :=
  match s with
  | EmptyString => EmptyString
  | String c s' => String (lower_char c) (lower s')
  end.

(** [str(b)] for a Boolean. *)
Definition str_bool (b : bool) : string := if b then "True" else "False".

(** The truth value of an optional string argument: [None] and the empty
    string count as false. *)
Definition truthy (o : option string) : bool :=
  match o with
  | Some s => negb (bool_decide (s = ""))
  | None => false
  end.

(** [o or d] for an optional string argument. *)
Definition or_else (o : option string) (d : string) : string :=
  match o with
  | Some s => if bool_decide (s = "") then d else s
  | None => d
  end.

End PyStr.

Export PyStr.

(** ** Class names as file paths: [valid_class_name] *)

(** Lines 376-379. [os.path.join(a, *p)] folds the two-component step over
    the pieces. *)
Definition valid_class_name (class_name : string) : res string :=
  match getitem class_name (-1) with
  | Raise e => Raise e
  | Ok c =>
      let class_name' :=
        if bool_decide (c = ";"%char) then slice class_name 1 (-1)
        else class_name in
      let '(a, p) := split class_name' "/" in
      Ok (fold_left os_path_join p a)
  end.

(** The pieces of a name between its slashes. *)
Definition segments (s : string) : list string :=
  (split s "/").1 :: (split s "/").2.

(** A name without a slash. *)
Definition slash_free (s : string) : Prop := "/"%char ∉ list_ascii_of_string s.

(** The pieces of a name that are not empty. *)
Definition kept (pieces : list string) : list string :=
  List.filter (fun b => negb (bool_decide (b = ""))) pieces.

(** The path made of the pieces of a name: the pieces that are not empty,
    joined by single slashes, and one slash at the end when the last piece
    is empty and some piece before it is not. *)
Definition collapse (pieces : list string) : string :=
  String.concat "/" (kept pieces) +:+
  (if negb (bool_decide (kept pieces = [])) &&
      bool_decide (last pieces = Some "")
   then "/" else "").

(** ** The plot of the call graph: [plot] *)

Module Plot.

(** What [plot] asks of a node of the call graph. *)
Class MethodNode (N : Type) := {
  is_external : N -> bool;
  class_name : N -> string;
  name : N -> string
}.

(** The calls to matplotlib and networkx, in the order they are made. *)
Inductive event (N : Type) :=
| SpringLayout
| DrawNodes (node_color : string) (nodelist : list N)
| DrawEdges
| DrawLabels (labels : list (N * string))
| PltDraw
| PltShow.
Arguments SpringLayout {N}.
Arguments DrawNodes {N} node_color nodelist.
Arguments DrawEdges {N}.
Arguments DrawLabels {N} labels.
Arguments PltDraw {N}.
Arguments PltShow {N}.

(** The loop of lines 147-151 over [cg.nodes], from the lists built so
    far. *)
Fixpoint classify {N : Type} `{MethodNode N} (ns : list N)
    (internal external : list N) : list N * list N :=
  match ns with
  | [] => (internal, external)
  | n :: ns' =>
      if is_external n then classify ns' internal (external ++ [n])
      else classify ns' (internal ++ [n]) external
  end.

(** Lines 142-158. The label dict is kept as the list of its items, in the
    order of [cg.nodes], which holds no node twice. *)
Definition plot {N : Type} `{MethodNode N} (cg : DiGraph N) : list (event N) :=
  let '(internal, external) := classify (nodes cg) [] [] in
  [SpringLayout;
   DrawNodes "r" internal;
   DrawNodes "b" external;
   DrawEdges;
   DrawLabels (map (fun x => (x, class_name x +:+ name x)) (nodes cg));
   PltDraw;
   PltShow].

End Plot.

(** ** The disassembler front end: [androdis_main] *)

Module Androdis.

(** [n] copies of a character. *)
Definition fill (n : nat) (c : ascii) : string :=
  string_of_list_ascii (replicate n c).

(** The hexadecimal digits of a natural number, lower case. *)
Definition hex (n : N) : string :=
  match n with
  | N0 => "0"
  | Npos p => HexString.Raw.of_pos p ""
  end.

(** ["%08x" % n] and ['{:08x}'.format(n)]: sign, then zeros up to a width
    of eight, then the digits. *)
Definition format_08x (n : Z) : string :=
  let sign := if (n <? 0)%Z then "-" else "" in
  let digits := hex (Z.abs_N n) in
  sign +:+ fill (8 - String.length sign - String.length digits) "0" +:+ digits.

(** ["%-8d" % n]: the decimal digits, then blanks up to a width of eight. *)
Definition format_ljust_8d (n : nat) : string :=
  pretty n +:+ fill (8 - String.length (pretty n)) " ".

(** An instruction of androguard.core.dex (not under src/), by the two
    answers the source asks of it. *)
Record Instruction := {
  disasm : string;
  get_length : nat
}.

Record EncodedMethod := {
  get_access_flags_string : string;
  get_name : string;
  get_descriptor : string;
  get_instructions_idx : list (Z * Instruction)
}.

(** A class, with its [get_name()] and [get_methods()]. *)
Record ClassDefItem := {
  class_get_name : string;
  get_methods : list EncodedMethod
}.

(** The object [DEX(buf)] (androguard.core.dex, not under src/): its
    classes, its linear-sweep disassembler and its truth value, all three
    arbitrary. *)
Record DEX := {
  get_classes : list ClassDefItem;
  disassemble : Z -> Z -> list Instruction;
  truth : bool
}.

(** What reaches the terminal: the text of a [print] call with its [end],
    and [i.show(idx)]. *)
Inductive event :=
| Stdout (text : string)
| InstructionShow (i : Instruction) (idx : Z).

(** Lines 596-601, entered with the counter [nb] and the address [idx]. *)
Fixpoint sweep (nb : nat) (idx : Z) (ins : list Instruction) : list event :=
  match ins with
  | [] => []
  | i :: ins' =>
      Stdout (format_ljust_8d nb +:+ "(" +:+ format_08x idx +:+ ")" +:+ " ") ::
      InstructionShow i idx ::
      Stdout nl ::
      sweep (S nb) (idx + Z.of_nat (get_length i)) ins'
  end.

(** Lines 581-589. *)
Definition listing (d : DEX) : list event :=
  flat_map (fun cls =>
    Stdout ("# CLASS: " +:+ class_get_name cls +:+ nl) ::
    flat_map (fun m =>
      Stdout ("## METHOD: " +:+ get_access_flags_string m +:+ " " +:+
              get_name m +:+ " " +:+ get_descriptor m +:+ nl) ::
      map (fun ii => Stdout (format_08x (fst ii) +:+ "  " +:+
                             disasm (snd ii) +:+ nl))
          (get_instructions_idx m) ++
      [Stdout nl]) (get_methods cls) ++
    [Stdout nl]) (get_classes d).

(** [androdis_main] once the file is read: [buf] is its content and [d] is
    [DEX(buf)]. *)
Definition androdis_main (offset size : Z) (buf : string) (d : DEX)
  : list event :=
  if bool_decide (size = 0%Z) && bool_decide (offset = 0%Z) then listing d
  else
    let size := if bool_decide (size = 0%Z)
                then Z.of_nat (String.length buf) else size in
    if truth d then sweep 0 offset (disassemble d offset size) else [].

(** The address of the [k]-th instruction of a sweep: the start address
    plus the lengths of the instructions before it. *)
Definition address (idx : Z) (ins : list Instruction) (k : nat) : Z :=
  (idx + Z.of_nat (sum_list_with get_length (take k ins)))%Z.

(** The header the sweep prints before an instruction. *)
Definition header (nb : nat) (idx : Z) : event :=
  Stdout (format_ljust_8d nb +:+ "(" +:+ format_08x idx +:+ ")" +:+ " ").

End Androdis.

(** ** Certificate fingerprints: [androsign_main] *)

Module Androsign.

(** DER-encoded certificates and keys. *)
Definition bytes := string.

Inductive hashfunction := md5 | sha1 | sha256 | sha512.

(** The dict [hashfunctions], in insertion order. *)
Definition hashfunctions : list (string * hashfunction) :=
  [("md5", md5); ("sha1", sha1); ("sha256", sha256); ("sha512", sha512)].

(** [hashfunctions[k]], [None] for a missing key. *)
Definition hashfunctions_get (k : string) : option hashfunction :=
  snd <$> List.find (fun kv => bool_decide (fst kv = k)) hashfunctions.

(** The APK object (androguard.core.apk, not under src/), by the answers
    the source asks of it, all arbitrary. *)
Record APK := {
  get_package : string;
  is_signed_v1 : bool;
  is_signed_v2 : bool;
  is_signed_v3 : bool;
  get_certificates_der_v3 : list bytes;
  get_certificates_der_v2 : list bytes;
  get_signature_names : list string;
  get_certificate_der : string -> bytes;
  get_public_keys_der_v3 : list bytes;
  get_public_keys_der_v2 : list bytes
}.

(** What the libraries do. [load_APK] is [APK(path)], [None] when it
    raises. [show_certificate] and [show_public_key] stand for the blocks of
    lines 530-537 and 551-559: the lines the block prints and whether it
    runs to its end ([false]: it raises after these lines). *)
Record Libs := {
  hexdigest : hashfunction -> bytes -> string;
  load_APK : string -> option APK;
  show_certificate : bytes -> list string * bool;
  show_public_key : bytes -> list string * bool
}.

Inductive event :=
| Stdout (line : string)      (* print(line) *)
| Stderr (line : string)      (* print(line, file=sys.stderr) *)
| Traceback.                  (* traceback.print_exc(file=sys.stderr) *)

(** colorama's [Fore.RED] and [Style.RESET_ALL]. *)
Definition Fore_RED : string := String "027"%char "[31m".
Definition Style_RESET_ALL : string := String "027"%char "[0m".

(** A stretch of the [try] body: what it printed, and whether it ran to its
    end ([false]: an exception is on its way to the [except] clause). *)
Definition block : Type := list event * bool.

Definition and_then (a b : block) : block :=
  if a.2 then (a.1 ++ b.1, b.2) else a.

Fixpoint for_each {A : Type} (body : A -> block) (l : list A) : block :=
  match l with
  | [] => ([], true)
  | x :: l' => and_then (body x) (for_each body l')
  end.

Definition say (lines : list string) : block := (map Stdout lines, true).

Section androsign.
Context (L : Libs) (args_hash : string) (args_all show : bool).

(** The hash lines of one certificate (lines 539-543). *)
Definition hash_lines (cert : bytes) : block :=
  if negb args_all then
    match hashfunctions_get (lower args_hash) with
    | Some f => say [lower args_hash +:+ " " +:+ hexdigest L f cert]
    | None => ([], false)
    end
  else
    say (map (fun kv => fst kv +:+ " " +:+ hexdigest L (snd kv) cert)
             hashfunctions).

(** The body of [for cert in certs]. *)
Definition certificate_report (cert : bytes) : block :=
  and_then (if show
            then (map Stdout (show_certificate L cert).1,
                  (show_certificate L cert).2)
            else ([], true))
    (and_then (hash_lines cert) (say [""])).

(** The body of [for public_key in pkeys]. *)
Definition public_key_report (public_key : bytes) : block :=
  and_then (if show
            then (map Stdout (show_public_key L public_key).1,
                  (show_public_key L public_key).2)
            else ([], true))
    (say [""]).

(** Lines 517-560, once [APK(path)] has returned [a]. The two sets are
    walked in the order of their elements. *)
Definition apk_report (path : string) (a : APK) : block :=
  let certs : gset bytes :=
    list_to_set (get_certificates_der_v3 a ++ get_certificates_der_v2 a ++
                 map (get_certificate_der a) (get_signature_names a)) in
  let pkeys : gset bytes :=
    list_to_set (get_public_keys_der_v3 a ++ get_public_keys_der_v2 a) in
  and_then (say [os_path_basename path +:+ ", package: '" +:+
                   get_package a +:+ "'";
                 "Is signed v1: " +:+ str_bool (is_signed_v1 a);
                 "Is signed v2: " +:+ str_bool (is_signed_v2 a);
                 "Is signed v3: " +:+ str_bool (is_signed_v3 a)])
  (and_then (if bool_decide (0 < size certs)
             then say ["Found " +:+ pretty (size certs) +:+
                       " unique certificates"]
             else say [])
  (and_then (for_each certificate_report (elements certs))
  (and_then (if bool_decide (0 < size certs)
             then say ["Found " +:+ pretty (size pkeys) +:+
                       " unique public keys associated with the certs"]
             else say [])
            (for_each public_key_report (elements pkeys))))).

(** The [try] statement of lines 514-565 for one path. *)
Definition try_report (path : string) : list event :=
  let body :=
    match load_APK L path with
    | Some a => apk_report path a
    | None => ([], false)
    end in
  if body.2 then body.1
  else body.1 ++
       [Stderr (Fore_RED +:+ "Error in " +:+ os_path_basename path +:+
                Style_RESET_ALL);
        Traceback].

Definition androsign_main (args_apk : list string) : list event * res unit :=
  if bool_decide (lower args_hash ∈ map fst hashfunctions) then
    (flat_map (fun path =>
                 try_report path ++
                 if bool_decide (1 < length args_apk) then [Stdout ""] else [])
              args_apk,
     Ok ())
  else
    ([Stderr ("Hash function " +:+ lower args_hash +:+ " not supported!");
      Stderr ("Use one of " +:+ String.concat ", " (map fst hashfunctions))],
     Raise (SystemExit 1)).

End androsign.

(** One stretch says no less than another and ends the same way. *)
Definition extends (a b : block) : Prop := a.2 = b.2 /\ sublist a.1 b.1.

End Androsign.

(** ** Binary XML: [androaxml_main] *)

Module Androaxml.

Definition bytes := string.

(** The exceptions of this entry point: the exit of the process, and what
    formatting a message raises, by the name of its class. *)
Inductive exn :=
| SystemExit (code : Z)
| FormatError (name : string).

Inductive res (A : Type) :=
| Ok (a : A)
| Raise (e : exn).
Arguments Ok {A} a.
Arguments Raise {A} e.

(** What [template.format(file=sys.stderr)] gives: a text, or an exception
    of the named class. *)
Inductive formatted :=
| Text (text : string)
| Fails (name : string).

(** The rest of a text from its first brace on, if it has one. *)
Fixpoint first_brace (s : string) : option string :=
  match s with
  | EmptyString => None
  | String c s' =>
      if bool_decide (c = "{"%char) || bool_decide (c = "}"%char)
      then Some s else first_brace s'
  end.

Section androaxml.
(** The parsed XML tree is opaque to the source. *)
Context {xml : Type}.

(** The APK object (androguard.core.apk, not under src/): the names of its
    files, their content and its decoded manifest, all arbitrary. *)
Record APK := {
  files : list string;
  get_file : string -> bytes;
  get_android_manifest_xml : xml
}.

(** What the libraries do: [androconf.is_android], [apk.APK],
    [AXMLPrinter(b).get_xml_obj()], [readFile], [etree.tostring] with the
    options of the source, [highlight] with the XML lexer and the terminal
    formatter on the decoded text, and [str.format] with the one keyword
    argument [file=sys.stderr] on a template that holds replacement fields
    or escaped braces. *)
Record Libs := {
  is_android : string -> option string;
  load_APK : string -> APK;
  get_xml_obj : bytes -> xml;
  readFile : string -> bytes;
  tostring : xml -> bytes;
  highlight : bytes -> string;
  format_fields : string -> formatted
}.

Inductive event :=
| LogError (msg : string)
| FileWrite (path : string) (content : bytes)   (* open(path, "wb"), write *)
| StdoutWrite (text : string).

(** [template.format(file=sys.stderr)]. A template without a brace is
    returned as it is. A template whose first brace opens the field [{}]
    asks for the positional argument 0, and there is none: [IndexError].
    Every other template is the library's matter. *)
Definition format_file (L : Libs) (template : string) : formatted :=
  match first_brace template with
  | None => Text template
  | Some rest =>
      if String.prefix "{}" rest then Fails "IndexError"
      else format_fields L template
  end.

(** [logger.error(message, file=sys.stderr)], with a sink that takes
    errors, as the logger has from the start: given a keyword argument the
    logger formats the message with it before the message is logged, and
    an exception of the formatting leaves nothing logged. *)
Definition logger_error_file (L : Libs) (message : string)
  : list event * res unit :=
  match format_file L message with
  | Text text => ([LogError text], Ok ())
  | Fails name => ([], Raise (FormatError name))
  end.

(** Lines 39-44: the serialised document goes to the file [outp], or to the
    terminal when [outp] is missing or empty. *)
Definition emit_buff (L : Libs) (outp : option string) (buff : bytes)
  : list event :=
  if truthy outp then [FileWrite (or_else outp "") buff]
  else [StdoutWrite (highlight L buff)].

(** Lines 21-44. The message of line 27 is formatted twice: by the source
    with the resource name, and by the logger with [file=sys.stderr]. *)
Definition androaxml_main (L : Libs) (inp : string)
    (outp resource : option string) : list event * res unit :=
  let finish axml := (emit_buff L outp (tostring L axml), Ok ()) in
  if bool_decide (is_android L inp = Some "APK") then
    let a := load_APK L inp in
    if truthy resource then
      let name := or_else resource "" in
      if bool_decide (name ∈ files a) then
        finish (get_xml_obj L (get_file a name))
      else
        match logger_error_file L
                ("The APK does not contain a file called '" +:+
                 name +:+ "'") with
        | (t, Ok _) => (t, Raise (SystemExit 1))
        | (t, Raise e) => (t, Raise e)
        end
    else finish (get_android_manifest_xml a)
  else if contains ".xml" inp then
    finish (get_xml_obj L (readFile L inp))
  else ([LogError "Unknown file type"], Raise (SystemExit 1)).

End androaxml.
Arguments APK xml : clear implicits.
Arguments Libs xml : clear implicits.

End Androaxml.

(** ** Resource tables: [androarsc_main] *)

Module Androarsc.

Definition bytes := string.

(** The resource table (androguard.core.axml, not under src/): its package
    names and its attributes named [get_<type>_resources], each a method of
    a package and a locale; all arbitrary. *)
Record ARSCParser := {
  get_packages_names : list string;
  attributes : gmap string (string -> string -> bytes)
}.

(** [pretty_xml] is [etree.tostring(etree.fromstring(x), pretty_print=True,
    encoding="UTF-8")]. *)
Record Libs := {
  pretty_xml : bytes -> bytes;
  highlight : bytes -> string
}.

Inductive event :=
| Stderr (line : string)
| FileWrite (path : string) (content : bytes)
| StdoutWrite (text : string).

(** The default locale, two NUL characters. *)
Definition default_locale : string := String "000"%char (String "000"%char "").

Definition androarsc_main (L : Libs) (arscobj : ARSCParser)
    (outp package typ locale : option string) : list event * res unit :=
  match (if truthy package then Ok (or_else package "")
         else match get_packages_names arscobj !! 0 with
              | Some first => Ok first
              | None => Raise IndexError
              end) with
  | Raise e => ([], Raise e)
  | Ok package =>
      let ttype := or_else typ "public" in
      let locale := or_else locale default_locale in
      match attributes arscobj !! ("get_" +:+ ttype +:+ "_resources") with
      | None =>
          ([Stderr ("No decoder found for type: '" +:+ ttype +:+
                    "'! Please open a bug report.")],
           Raise (SystemExit 1))
      | Some decoder =>
          let buff := pretty_xml L (decoder package locale) in
          (if truthy outp then [FileWrite (or_else outp "") buff]
           else [StdoutWrite (highlight L buff)],
           Ok ())
      end
  end.

End Androarsc.

(** ** The interactive shell: [androlyze_main] *)

Module Androlyze.

(** The exceptions of this entry point: a global name that is not defined,
    a local variable read before it is bound, and the call of a value that
    is not callable. *)
Inductive exn :=
| NameError (name : string)
| UnboundLocalError (name : string)
| TypeError.

Inductive outcome :=
| Returned
| Raised (e : exn).

Section androlyze.
(** The analysis objects [a], [d] and [dx] are opaque to the source, which
    only prints them. *)
Context {obj : Type}.

(** The session (androguard.session, not under src/), by the answers the
    source asks of it: the digest [s.add(filename, raw)] returns, the
    objects of an APK by digest, the triples of [s.get_objects_dex()], and
    for the exit hook [s.isOpen()] and the file name [s.save()] returns;
    all arbitrary. *)
Record Session := {
  add : string -> string -> string;
  get_objects_apk : string -> obj * obj * obj;
  get_objects_dex : list (string * obj * obj);
  isOpen : bool;
  save : string
}.

(** What the libraries do: [androconf.is_android], the content of a file,
    the fresh [Session(export_ipython=True)], [repr] of a string and the
    version constant. *)
Record Libs := {
  is_android : string -> option string;
  read : string -> string;
  new_session : Session;
  repr : string -> string;
  ANDROGUARD_VERSION : string
}.

Inductive event :=
| ColoramaInit
| LogInfo (msg : string)
| LogError (msg : string)
| PrintOut (line : string)      (* print(line) *)
| PrintObject (o : obj)         (* print(o) *)
| Embed (banner1 : string)      (* embed(config=cfg, banner1=...): the
                                   shell runs until the user leaves it *)
| AtexitRegister                (* atexit.register(shutdown_hook) *)
| Input (prompt : string)       (* input(prompt) *)
| SessionSave.                  (* s.save() *)

(** colorama's [Fore.RED] and [Fore.RESET]. *)
Definition Fore_RED : string := String "027"%char "[31m".
Definition Fore_RESET : string := String "027"%char "[39m".

(** Lines 457-459: [for h_, d, dx in s.get_objects_dex(): if h == h_:
    break]. [bound] holds the loop variables [d] and [dx] once an iteration
    has bound them; the result is their value after the loop. *)
Fixpoint select_dex (h : string) (entries : list (string * obj * obj))
    (bound : option (obj * obj)) : option (obj * obj) :=
  match entries with
  | [] => bound
  | (h_, d, dx) :: entries' =>
      if bool_decide (h = h_) then Some (d, dx)
      else select_dex h entries' (Some (d, dx))
  end.

(** Lines 420-464, for a file name that counts as true. The expression
    statement of line 421 has no effect. The keyword argument of line 429
    makes the logger format the message with it, which leaves a message
    without braces as it is. *)
Definition load_file (L : Libs) (s : Session) (filename : string)
  : list event * outcome :=
  let filetype := is_android L filename in
  let intro :=
    [LogInfo "Please be patient, this might take a while.";
     LogInfo ("Found the provided file is of type '" +:+
              default "None" filetype +:+ "'")] in
  if bool_decide (filetype ∈ [Some "DEX"; Some "DEY"; Some "APK"]) then
    let raw := read L filename in
    let h := add s filename raw in
    let added := [LogInfo ("Added file to session: SHA256::" +:+ h)] in
    if bool_decide (filetype = Some "APK") then
      let '(a, d, dx) := get_objects_apk s h in
      (intro ++ added ++
       [LogInfo "Loaded APK file...";
        PrintOut ">>> filename"; PrintOut filename;
        PrintOut ">>> a"; PrintObject a;
        PrintOut ">>> d"; PrintObject d;
        PrintOut ">>> dx"; PrintObject dx;
        PrintOut ""], Returned)
    else
      match select_dex h (get_objects_dex s) None with
      | Some (d, dx) =>
          (intro ++ added ++
           [LogInfo "Loaded DEX file...";
            PrintOut ">>> d"; PrintObject d;
            PrintOut ">>> dx"; PrintObject dx;
            PrintOut ""], Returned)
      | None =>
          (intro ++ added ++
           [LogInfo "Loaded DEX file..."; PrintOut ">>> d"],
           Raised (UnboundLocalError "d"))
      end
  else
    (intro ++
     [LogError (Fore_RED +:+
                "This file type is not supported by androlyze for auto "
                +:+ "loading right now!" +:+ Fore_RESET);
      LogError "But your file is still available:";
      LogError ">>> filename";
      LogError (repr L filename);
      PrintOut ""], Returned).

(** Lines 410-486. [Load] is bound nowhere in the module, so the branch
    that restores a session ends at the call. [embed] runs the shell and
    returns [None] when the user leaves it; line 484 binds that to
    [ipshell], so that the call [ipshell()] of line 486, after the hook is
    registered, raises [TypeError]. *)
Definition androlyze_main (L : Libs) (session filename : option string)
  : list event * outcome :=
  if truthy session then
    ([ColoramaInit;
      LogInfo ("Restoring session '" +:+ or_else session "" +:+ "'...")],
     Raised (NameError "Load"))
  else
    let s := new_session L in
    let loaded :=
      if truthy filename then load_file L s (or_else filename "")
      else ([], Returned) in
    match loaded.2 with
    | Raised e => (ColoramaInit :: loaded.1, Raised e)
    | Returned =>
        (ColoramaInit :: loaded.1 ++
         [Embed ("Androguard version " +:+ ANDROGUARD_VERSION L +:+ " started");
          AtexitRegister],
         Raised TypeError)
    end.

(** Lines 466-480: the hook run at exit. [answer] is what [input] returns,
    [None] when it raises [EOFError] or [KeyboardInterrupt]. *)
Definition shutdown_hook (s : Session) (answer : option string) : list event :=
  if negb (isOpen s) then []
  else
    Input "Do you want to save the session? (y/[n])?" ::
    match answer with
    | None => []
    | Some res =>
        if bool_decide (lower res = "y")
        then [SessionSave;
              PrintOut ("Saved Session to file: '" +:+ save s +:+ "'")]
        else []
    end.

End androlyze.
Arguments Session obj : clear implicits.
Arguments Libs obj : clear implicits.
Arguments event obj : clear implicits.

End Androlyze.

(** ** Further vocabulary of the statements *)

(** The DEX object that holds only the methods whose signature the pattern
    finds. *)
Definition matching (search : pattern) (vm : DEX) : DEX :=
  {| get_methods :=
       List.filter (fun m => search (signature m)) (get_methods vm) |}.

(** The name table after the walk indexes the labels: the id of every node
    is the position of its own label. *)
Definition ids_index_labels (labels : list string) (w : walk) : Prop :=
  forall k label, labels !! k = Some label ->
    exists id, rename_nodes w !! k = Some id /\ names w !! id = Some label.



(** * Properties *)

(** ** The primitives on sample inputs *)

Example rsplit_once : rsplit "out/cg.gml.bz2" "." 1 = ["out/cg.gml"; "bz2"].
Proof. reflexivity. Qed.

Example rsplit_twice : rsplit "out/cg.gml.bz2" "." 2 = ["out/cg"; "gml"; "bz2"].
Proof. reflexivity. Qed.

Example rsplit_no_separator : rsplit "callgraph" "." 1 = ["callgraph"].
Proof. reflexivity. Qed.

Example rsplit_empty_pieces : rsplit "a..b" "." 2 = ["a"; ""; "b"].
Proof. reflexivity. Qed.

Example format_key_lone_suffix : format_key "x.gz" = Ok "gz".
Proof. reflexivity. Qed.

Example format_key_no_extension : format_key "callgraph" = Raise IndexError.
Proof. reflexivity. Qed.

Example os_path_join_plain :
  os_path_join "out" "callgraph.gml" = "out/callgraph.gml".
Proof. reflexivity. Qed.

Example os_path_join_trailing_slash :
  os_path_join "out/" "callgraph.gml" = "out/callgraph.gml".
Proof. reflexivity. Qed.

Example index_first_occurrence : index "b" ["a"; "b"; "b"] = Some 1.
Proof. reflexivity. Qed.

Example lex_opening :
  lex lit_open = Some [TLBrace; TStr "acfg_list"; TColon; TLBracket].
Proof. reflexivity. Qed.

Example lex_closing_literals :
  lex lit_cg_edges = Some [TRBracket; TComma; TStr "cg_edges"; TColon; TLBracket]
  /\ lex lit_cg_close = Some [TRBracket; TComma]
  /\ lex lit_method_names = Some [TStr "method_names"; TColon]
  /\ lex lit_sep = Some [TComma].
Proof. repeat split. Qed.

Example add_edge_twice :
  add_edge 1 2 (add_edge 1 2 []) = [(1, [2]); (2, [])].
Proof. reflexivity. Qed.

Example relabel_nodes_partial_mapping :
  relabel_nodes [(0, [1]); (1, [2]); (2, [])] {[ 1 := 7 ]} =
    [(0, [7]); (7, [2]); (2, [])].
Proof. reflexivity. Qed.

Example convert_keeps_node_order :
  convert_node_labels_to_integers [("b", ["a"]); ("a", [])] = [(0, [1]); (1, [])].
Proof. reflexivity. Qed.

(** ** Splitting a file name at its dots *)

Lemma list_ascii_of_string_app (a b : string) :
  list_ascii_of_string (a +:+ b) = list_ascii_of_string a ++ list_ascii_of_string b.
Proof.
  induction a as [|c a IH]; [done|].
  change (c :: list_ascii_of_string (a +:+ b) =
          c :: list_ascii_of_string a ++ list_ascii_of_string b). by rewrite IH.
Qed.

Lemma rsplit_scan_skip sep k (e cur l : list ascii) :
  sep ∉ e ->
  rsplit_scan sep k cur (e ++ l) = rsplit_scan sep k (rev e ++ cur) l.
Proof.
  revert cur. induction e as [|c e IH]; intros cur Hne; simpl; [done|].
  apply not_elem_of_cons in Hne as [Hc He].
  destruct (decide (c = sep)) as [->|_]; [done|].
  rewrite IH by done. by rewrite <- app_assoc.
Qed.

Lemma rsplit_scan_exhausted sep (cur l : list ascii) :
  rsplit_scan sep 0 cur l = [rev l ++ cur].
Proof.
  revert cur. induction l as [|c l IH]; intros cur; simpl; [done|].
  destruct (decide (c = sep)); rewrite IH; by rewrite <- app_assoc.
Qed.

Lemma not_elem_of_rev {A : Type} (x : A) (l : list A) : x ∉ l -> x ∉ rev l.
Proof.
  intros H Hin. apply H. apply list_elem_of_In, in_rev. by apply list_elem_of_In.
Qed.

(** One split from the right cuts off the last extension. *)
Lemma rsplit_last_extension (stem ext : string) :
  no_dot ext ->
  rsplit (stem +:+ "." +:+ ext) "." 1 = [stem; ext].
Proof.
  intros Hext. unfold rsplit.
  rewrite !list_ascii_of_string_app, !rev_app_distr. simpl.
  rewrite <- app_assoc. simpl.
  rewrite rsplit_scan_skip by (by apply not_elem_of_rev).
  rewrite rev_involutive, app_nil_r. simpl.
  rewrite rsplit_scan_exhausted, rev_involutive, app_nil_r. simpl.
  by rewrite !string_of_list_ascii_of_string.
Qed.

(** Two splits from the right cut off the last two extensions. *)
Lemma rsplit_inner_extension (stem inner comp : string) :
  no_dot inner -> no_dot comp ->
  rsplit (stem +:+ "." +:+ inner +:+ "." +:+ comp) "." 2 = [stem; inner; comp].
Proof.
  intros Hin Hcomp. unfold rsplit.
  rewrite !list_ascii_of_string_app, !rev_app_distr. simpl.
  rewrite <- !app_assoc. simpl.
  rewrite rsplit_scan_skip by (by apply not_elem_of_rev).
  rewrite rev_involutive, app_nil_r. simpl.
  rewrite rsplit_scan_skip by (by apply not_elem_of_rev).
  rewrite rev_involutive, app_nil_r. simpl.
  rewrite rsplit_scan_exhausted, rev_involutive, app_nil_r. simpl.
  by rewrite !string_of_list_ascii_of_string.
Qed.

Lemma string_app_assoc (a b c : string) : (a +:+ b) +:+ c = a +:+ b +:+ c.
Proof.
  induction a as [|x a IH]; [done|].
  change (String x ((a +:+ b) +:+ c) = String x (a +:+ b +:+ c)). by rewrite IH.
Qed.

(** The key of a plain name [stem.ext]. *)
Lemma format_key_plain (stem ext : string) :
  no_dot ext -> ext ∉ ["bz2"; "gz"] ->
  format_key (stem +:+ "." +:+ ext) = Ok ext.
Proof.
  intros Hext Hnot. unfold format_key.
  rewrite rsplit_last_extension by done. simpl.
  by rewrite bool_decide_eq_false_2.
Qed.

(** The key of a compressed name [stem.inner.comp]. *)
Lemma format_key_compressed (stem inner comp : string) :
  no_dot inner -> comp ∈ ["bz2"; "gz"] ->
  format_key (stem +:+ "." +:+ inner +:+ "." +:+ comp) = Ok inner.
Proof.
  intros Hin Hcomp. unfold format_key.
  assert (no_dot comp) as Hnd.
  { apply elem_of_cons in Hcomp as [->|Hcomp]; [compute_done|].
    apply list_elem_of_singleton in Hcomp as ->. compute_done. }
  rewrite <- (string_app_assoc stem "." (inner +:+ "." +:+ comp)).
  rewrite <- (string_app_assoc (stem +:+ ".") inner ("." +:+ comp)).
  rewrite rsplit_last_extension by done. simpl.
  rewrite bool_decide_eq_true_2 by done.
  rewrite !string_app_assoc.
  by rewrite rsplit_inner_extension.
Qed.

(** ** The format key and the writer table *)

Lemma callgraph_path_shape (output : string) :
  exists stem, os_path_join output "callgraph.gml" = stem +:+ "." +:+ "gml".
Proof.
  unfold os_path_join.
  change (startswith "callgraph.gml" "/") with false. cbv iota.
  destruct (bool_decide (output = "") || endswith output "/").
  - exists (output +:+ "callgraph").
    by rewrite (string_app_assoc output "callgraph" ("." +:+ "gml")).
  - exists (output +:+ "/" +:+ "callgraph").
    rewrite (string_app_assoc output ("/" +:+ "callgraph") ("." +:+ "gml")).
    by rewrite (string_app_assoc "/" "callgraph" ("." +:+ "gml")).
Qed.

Lemma callgraph_format_key (output : string) :
  format_key (os_path_join output "callgraph.gml") = Ok "gml".
Proof.
  destruct (callgraph_path_shape output) as [stem ->].
  apply format_key_plain; compute_done.
Qed.

Lemma bind_emit {A : Type} (e : event) (k : unit -> M A) :
  (emit e ≫= k) = (e :: (k ()).1, (k ()).2).
Proof. unfold mbind, M_bind, emit. by destruct (k ()). Qed.

Lemma bind_lift_ok {A B : Type} (a : A) (k : A -> M B) : (lift (Ok a) ≫= k) = k a.
Proof. unfold mbind, M_bind, lift. by destruct (k a). Qed.

Lemma bind_lift_raise {A B : Type} (e : exn) (k : A -> M B) :
  (lift (Raise e) ≫= k) = ([], Raise e).
Proof. done. Qed.

Lemma androcg_main_unsupported (output key : string) :
  format_key output = Ok key ->
  Androcg.write_methods !! key = None ->
  androcg_main false output =
    ([PrintOut (no_writer_message key)], Raise (SystemExit 1)).
Proof.
  intros Hkey Hnone. unfold androcg_main.
  rewrite Hkey, bind_lift_ok, Hnone. by rewrite bind_emit.
Qed.

Lemma androcg_main_supported (output key : string) (w : graph_writer) :
  format_key output = Ok key ->
  Androcg.write_methods !! key = Some w ->
  androcg_main false output = ([WriteGraph w output], Ok ()).
Proof.
  intros Hkey Hsome. unfold androcg_main.
  by rewrite Hkey, bind_lift_ok, Hsome.
Qed.

Lemma format_key_suffixed (stem inner suffix : string) :
  no_dot inner ->
  suffix ∈ [""; ".gz"; ".bz2"] ->
  (suffix = "" -> inner ∉ ["bz2"; "gz"]) ->
  format_key (stem +:+ "." +:+ inner +:+ suffix) = Ok inner.
Proof.
  intros Hinner Hsuffix Hplain.
  apply elem_of_cons in Hsuffix as [->|Hsuffix].
  { replace (inner +:+ "") with inner.
    - apply format_key_plain; auto.
    - clear. induction inner as [|c i IH]; [done|].
      change (String c i = String c (i +:+ "")). by rewrite <- IH. }
  apply elem_of_cons in Hsuffix as [->|Hsuffix].
  { apply (format_key_compressed stem inner "gz"); [done|set_solver]. }
  apply list_elem_of_singleton in Hsuffix as ->.
  apply (format_key_compressed stem inner "bz2"); [done|set_solver].
Qed.

(** C7. In the call-graph-only path the format key of an output name
    [stem.inner], [stem.inner.gz] or [stem.inner.bz2] is [inner]: a trailing
    compression suffix is stripped and the inner extension is the key. A
    supported key writes the graph with the writer registered for it; for
    every output name whose key is not registered, the only effect is the
    message and the process exits with status 1, no graph file written. *)
Theorem androcg_format_by_extension (stem inner suffix : string)
    (Hinner : no_dot inner)
    (Hsuffix : suffix ∈ [""; ".gz"; ".bz2"])
    (Hplain : suffix = "" -> inner ∉ ["bz2"; "gz"]) :
  let output := stem +:+ "." +:+ inner +:+ suffix in
  format_key output = Ok inner /\
  match Androcg.write_methods !! inner with
  | Some w => androcg_main false output = ([WriteGraph w output], Ok ())
  | None =>
      androcg_main false output =
        ([PrintOut (no_writer_message inner)], Raise (SystemExit 1))
  end /\
  (forall output' key,
      format_key output' = Ok key ->
      Androcg.write_methods !! key = None ->
      exists code,
        androcg_main false output' =
          ([PrintOut (no_writer_message key)], Raise (SystemExit code)) /\
        code <> 0%Z /\
        forall w p, WriteGraph w p ∉ (androcg_main false output').1).
Proof.
  intros output.
  assert (format_key output = Ok inner) as Hkey
    by (by apply format_key_suffixed).
  split; [done|]. split.
  - destruct (Androcg.write_methods !! inner) as [w|] eqn:Hw.
    + by apply (androcg_main_supported output inner).
    + by apply androcg_main_unsupported.
  - intros output' key Hkey' Hnone.
    exists 1%Z. rewrite (androcg_main_unsupported output' key) by done.
    split; [done|]. split; [done|].
    intros w p Hin. simpl in Hin.
    apply list_elem_of_singleton in Hin. discriminate.
Qed.

Lemma androcg_format_by_extension_witness :
  format_key "cg.svg.gz" = Ok "svg" /\
  androcg_main false "cg.svg.gz" =
    ([PrintOut (no_writer_message "svg")], Raise (SystemExit 1)) /\
  format_key "cg.svg" = Ok "svg".
Proof.
  pose proof (androcg_format_by_extension "cg" "svg" ".gz") as H.
  destruct H as (Hk & Hrun & Hall).
  - compute_done.
  - set_solver.
  - discriminate.
  - split; [exact Hk|]. split; [exact Hrun|]. reflexivity.
Defined.

Lemma export_with_cg_output_unsupported {N : Type} `{EqDecision N}
    (cg_output key : string) (s : Session N) (output : string)
    (methods_filter : option pattern) (jar : bool)
    (decompiler_type : option string) :
  format_key cg_output = Ok key ->
  write_methods !! key = None ->
  export_with_cg_output cg_output s output methods_filter jar decompiler_type =
    ([LogError (no_writer_message key)], Raise (SystemExit 1)).
Proof.
  intros Hkey Hnone. unfold export_with_cg_output.
  rewrite Hkey, bind_lift_ok, Hnone. by rewrite bind_emit.
Qed.

Lemma export_with_cg_output_supported {N : Type} `{EqDecision N}
    (cg_output key : string) (w : graph_writer) (s : Session N)
    (output : string) (methods_filter : option pattern) (jar : bool)
    (decompiler_type : option string) :
  format_key cg_output = Ok key ->
  write_methods !! key = Some w ->
  exists t r,
    export_with_cg_output cg_output s output methods_filter jar decompiler_type =
      (WriteGraph w cg_output :: FileWrite [Lit lit_open] :: t, r).
Proof.
  intros Hkey Hsome. unfold export_with_cg_output.
  rewrite Hkey, bind_lift_ok, Hsome. rewrite !bind_emit. simpl. eauto.
Qed.

(** C10. The orchestrator's call-graph path is [callgraph.gml] inside the
    output directory whatever the caller passes: its format key is always
    [gml], the table maps it to the GML writer, every run starts by writing
    that file with that writer, and the [form] argument changes nothing. *)
Theorem export_callgraph_always_gml {N : Type} `{EqDecision N}
    (filename : string) (s : Session N) (output : string)
    (methods_filter : option pattern) (jar : bool)
    (decompiler_type form : option string) :
  format_key (os_path_join output "callgraph.gml") = Ok "gml" /\
  write_methods !! "gml" = Some write_gml /\
  (exists t r,
      export_apps_to_format filename s output methods_filter jar
        decompiler_type form =
        (WriteGraph write_gml (os_path_join output "callgraph.gml") :: t, r)) /\
  (forall form',
      export_apps_to_format filename s output methods_filter jar
        decompiler_type form' =
      export_apps_to_format filename s output methods_filter jar
        decompiler_type form).
Proof.
  split; [apply callgraph_format_key|]. split; [reflexivity|]. split; [|done].
  destruct (export_with_cg_output_supported
              (os_path_join output "callgraph.gml") "gml" write_gml s output
              methods_filter jar decompiler_type) as (t & r & Heq).
  - apply callgraph_format_key.
  - reflexivity.
  - exists (FileWrite [Lit lit_open] :: t), r. exact Heq.
Qed.

(** ** The method loop *)

Section method_loop.
Context (filt : option pattern).

Lemma dump_method_skip (m : Method) (st : registry) :
  qualifies filt m = false -> dump_method filt m st = ([], Ok st).
Proof.
  unfold qualifies, dump_method. intros Hq.
  destruct filt as [search|].
  - destruct (search (signature m)); simpl in *; [|done].
    destruct (bool_decide (length (get_instructions m) = 0)); done.
  - simpl in *. destruct (bool_decide (length (get_instructions m) = 0)); done.
Qed.

Lemma dump_method_qualifies (m : Method) (st : registry) :
  qualifies filt m = true ->
  dump_method filt m st =
    (emit (ExtractCfg (signature m));;
     if bool_decide (length (get_node_attributes (method2dotaggregated m)) =
                     cfg_number_of_nodes (method2dotaggregated m)) then
       (if first_iteration st then mret () else emit (FileWrite [Lit lit_sep]));;
       emit (FileWrite [JsonDumps (cfg_data (method2dotaggregated m))]);;
       mret {| methods := <[signature m := size (methods st)]> (methods st);
               method_names := method_names st ++ [signature m];
               first_iteration := false |}
     else raise AssertionError).
Proof.
  unfold qualifies, dump_method. intros Hq.
  apply andb_true_iff in Hq as [Hf Hi]. apply negb_true_iff in Hi.
  rewrite Hi. destruct filt as [search|]; [by rewrite Hf|done].
Qed.

Lemma dump_method_ok (m : Method) (st : registry) :
  qualifies filt m = true ->
  cfg_consistent (method2dotaggregated m) ->
  dump_method filt m st =
    (entries_trace (first_iteration st) [m],
     Ok {| methods := <[signature m := size (methods st)]> (methods st);
           method_names := method_names st ++ [signature m];
           first_iteration := false |}).
Proof.
  intros Hq Hc. rewrite dump_method_qualifies by done.
  rewrite bool_decide_eq_true_2 by done.
  rewrite bind_emit. by destruct (first_iteration st).
Qed.

Lemma dump_method_abort (m : Method) (st : registry) :
  qualifies filt m = true ->
  ~ cfg_consistent (method2dotaggregated m) ->
  dump_method filt m st = ([ExtractCfg (signature m)], Raise AssertionError).
Proof.
  intros Hq Hc. rewrite dump_method_qualifies by done.
  by rewrite bool_decide_eq_false_2 by done.
Qed.

Lemma qualifying_cons (m : Method) (ms : list Method) :
  qualifying filt (m :: ms) =
    if qualifies filt m then m :: qualifying filt ms else qualifying filt ms.
Proof. done. Qed.

(** All exported methods pass the check: the loop runs to its end. *)
Lemma dump_methods_ok (ms : list Method) (st : registry) :
  Forall (fun m => cfg_consistent (method2dotaggregated m)) (qualifying filt ms) ->
  dump_methods filt ms st =
    (entries_trace (first_iteration st) (qualifying filt ms),
     Ok {| methods := register (qualifying filt ms) (methods st);
           method_names := method_names st ++ map signature (qualifying filt ms);
           first_iteration :=
             first_iteration st && bool_decide (qualifying filt ms = []) |}).
Proof.
  revert st. induction ms as [|m ms IH]; intros st Hall.
  - simpl. rewrite app_nil_r, andb_true_r. by destruct st.
  - rewrite qualifying_cons in *. cbn [dump_methods].
    destruct (qualifies filt m) eqn:Hq.
    + apply Forall_cons in Hall as [Hm Hall].
      rewrite dump_method_ok by done.
      unfold mbind, M_bind. rewrite IH by done. simpl.
      rewrite andb_false_r. rewrite <- app_assoc. simpl.
      destruct (first_iteration st); simpl; by rewrite <- app_assoc.
    + rewrite dump_method_skip by done.
      unfold mbind, M_bind. by rewrite IH.
Qed.

(** The first exported method that fails the check stops the loop: the
    methods before it are written, nothing is written for it or after. *)
Lemma dump_methods_abort (ms1 ms2 : list Method) (m : Method) (st : registry) :
  Forall (fun m => cfg_consistent (method2dotaggregated m)) (qualifying filt ms1) ->
  qualifies filt m = true ->
  ~ cfg_consistent (method2dotaggregated m) ->
  dump_methods filt (ms1 ++ m :: ms2) st =
    (entries_trace (first_iteration st) (qualifying filt ms1)
       ++ [ExtractCfg (signature m)],
     Raise AssertionError).
Proof.
  revert st. induction ms1 as [|m1 ms1 IH]; intros st Hall Hq Hc.
  - simpl. by rewrite dump_method_abort.
  - rewrite qualifying_cons in *. cbn [dump_methods app].
    destruct (qualifies filt m1) eqn:Hq1.
    + apply Forall_cons in Hall as [Hm Hall].
      rewrite dump_method_ok by done.
      unfold mbind, M_bind. rewrite IH by done. simpl.
      destruct (first_iteration st); simpl; by rewrite <- ?app_assoc.
    + rewrite dump_method_skip by done.
      unfold mbind, M_bind. by rewrite IH.
Qed.

(** Whatever the outcome, an entry is written only for an exported method
    that passed the check. *)
Lemma dump_methods_entries (ms : list Method) (st : registry) (d : json) :
  FileWrite [JsonDumps d] ∈ (dump_methods filt ms st).1 ->
  exists m, m ∈ ms /\ qualifies filt m = true /\
            d = cfg_data (method2dotaggregated m) /\
            cfg_consistent (method2dotaggregated m).
Proof.
  revert st. induction ms as [|m ms IH]; intros st Hin; simpl in Hin.
  - by apply elem_of_nil in Hin.
  - destruct (qualifies filt m) eqn:Hq.
    + destruct (decide (cfg_consistent (method2dotaggregated m))) as [Hc|Hc].
      * rewrite dump_method_ok in Hin by done.
        unfold mbind, M_bind in Hin.
        destruct (dump_methods filt ms _) as [t r] eqn:Hrest. simpl in Hin.
        assert (FileWrite [JsonDumps d] =
                  FileWrite [JsonDumps (cfg_data (method2dotaggregated m))] \/
                FileWrite [JsonDumps d] ∈ t) as [Heq|Hin'].
        { destruct (first_iteration st); simpl in Hin;
            repeat (apply elem_of_cons in Hin as [Hin|Hin]; [try discriminate; auto|]);
            auto. }
        -- injection Heq as ->. exists m. split; [left|done].
        -- destruct (IH _ ltac:(rewrite Hrest; exact Hin')) as (m' & ? & ?).
           exists m'. split; [by right|done].
      * rewrite dump_method_abort in Hin by done. simpl in Hin.
        apply list_elem_of_singleton in Hin. discriminate.
    + rewrite dump_method_skip in Hin by done.
      unfold mbind, M_bind in Hin.
      destruct (dump_methods filt ms st) as [t r] eqn:Hrest. simpl in Hin.
      destruct (IH st ltac:(rewrite Hrest; exact Hin)) as (m' & ? & ?).
      exists m'. split; [by right|done].
Qed.
End method_loop.

(** ** [list.index] *)

Section index.
Context {A : Type} `{EqDecision A}.
Implicit Types (x y : A) (l : list A).

Lemma index_is_Some x l : x ∈ l -> is_Some (index x l).
Proof.
  induction l as [|y l IH]; intros Hin; [by apply elem_of_nil in Hin|].
  simpl. destruct (decide (y = x)); [by eexists|].
  apply elem_of_cons in Hin as [->|Hin]; [done|].
  destruct (IH Hin) as [i ->]. by eexists.
Qed.

Lemma index_None x l : x ∉ l -> index x l = None.
Proof.
  induction l as [|y l IH]; intros Hin; [done|]. simpl.
  apply not_elem_of_cons in Hin as [Hne Hin].
  destruct (decide (y = x)); [congruence|]. by rewrite IH.
Qed.

Lemma index_lookup x l i : index x l = Some i -> l !! i = Some x.
Proof.
  revert i. induction l as [|y l IH]; intros i Hi; [done|]. simpl in Hi.
  destruct (decide (y = x)) as [->|].
  - by injection Hi as <-.
  - destruct (index x l) as [j|]; [|done]. injection Hi as <-. by apply IH.
Qed.

Lemma index_lt x l i : index x l = Some i -> i < length l.
Proof. intros Hi. by apply lookup_lt_Some with x, index_lookup. Qed.

Lemma index_app_l x l l' : x ∈ l -> index x (l ++ l') = index x l.
Proof.
  induction l as [|y l IH]; intros Hin; [by apply elem_of_nil in Hin|].
  simpl. destruct (decide (y = x)); [done|].
  apply elem_of_cons in Hin as [->|Hin]; [done|]. by rewrite IH.
Qed.

Lemma index_inj x y l i : index x l = Some i -> index y l = Some i -> x = y.
Proof.
  intros Hx Hy. apply index_lookup in Hx, Hy. congruence.
Qed.

Lemma index_NoDup l i x : NoDup l -> l !! i = Some x -> index x l = Some i.
Proof.
  revert i. induction l as [|y l IH]; intros i Hnd Hi; [done|].
  apply NoDup_cons in Hnd as [Hy Hnd]. simpl.
  destruct i as [|i]; simpl in Hi.
  - injection Hi as ->. by rewrite decide_True.
  - rewrite decide_False.
    + by rewrite (IH i).
    + intros ->. apply Hy. by eapply list_elem_of_lookup_2.
Qed.
End index.

(** ** The relabeling walk *)

Lemma externals_before_true (k : nat) (externals : list bool) :
  externals_before (S k) (true :: externals) = S (externals_before k externals).
Proof. done. Qed.

Lemma externals_before_false (k : nat) (externals : list bool) :
  externals_before (S k) (false :: externals) = externals_before k externals.
Proof. done. Qed.

(** When the tables are long enough and every internal label is already in
    the name table, the walk ends normally: the external labels are appended
    in table order, each external node takes the next counter value and each
    internal node the index of its label. *)
Lemma relabel_walk_spec (externals : list bool) (labels : list string)
    (i : nat) (w : walk) :
  i + length labels <= length externals ->
  (forall k label, labels !! k = Some label ->
                   externals !! (i + k) = Some false -> label ∈ names w) ->
  exists w',
    relabel_walk externals i labels w = Ok w' /\
    names w' = names w ++ external_names labels (drop i externals) /\
    counter w' =
      counter w + length (external_names labels (drop i externals)) /\
    (forall j, j < i \/ i + length labels <= j ->
               rename_nodes w' !! j = rename_nodes w !! j) /\
    (forall k (label : string) (b : bool),
        labels !! k = Some label -> externals !! (i + k) = Some b ->
        rename_nodes w' !! (i + k) =
          if b then Some (counter w + externals_before k (drop i externals))
          else index label (names w)).
Proof.
  revert i w. induction labels as [|label labels IH]; intros i w Hlen Hint.
  - exists w. simpl. rewrite app_nil_r, Nat.add_0_r.
    split; [done|]. split; [done|]. split; [done|]. split; [done|].
    intros k label b Hk. done.
  - simpl in Hlen.
    destruct (externals !! i) as [b|] eqn:Hb;
      [|apply lookup_ge_None in Hb; lia].
    rewrite (drop_S _ _ _ Hb). cbn [relabel_walk external_names]. rewrite Hb.
    destruct b.
    + set (w1 := {| rename_nodes := <[i:=counter w]> (rename_nodes w);
                    counter := S (counter w); names := names w ++ [label] |}).
      destruct (IH (S i) w1) as (w' & Hrun & Hnames & Hcounter & Hout & Hin).
      { lia. }
      { intros k l Hk He. simpl. apply elem_of_app. left.
        apply (Hint (S k) l); [done|].
        by replace (i + S k) with (S i + k) by lia. }
      exists w'. split; [done|]. simpl in *.
      split; [by rewrite Hnames, <- app_assoc|].
      split; [rewrite Hcounter; lia|].
      split.
      * intros j Hj. rewrite Hout by lia.
        rewrite lookup_insert_ne; [done|lia].
      * intros k l b Hk He. destruct k as [|k]; simpl in Hk.
        -- rewrite Nat.add_0_r in *. rewrite Hout by lia.
           rewrite lookup_insert_eq.
           assert (b = true) as -> by congruence.
           unfold externals_before. simpl. f_equal. lia.
        -- replace (i + S k) with (S (i + k)) in * by lia.
           rewrite (Hin k l b Hk He). destruct b.
           ++ rewrite externals_before_true. f_equal. lia.
           ++ apply index_app_l. apply (Hint (S k) l); [done|].
              by replace (i + S k) with (S i + k) by lia.
    + assert (label ∈ names w) as Hlabel.
      { apply (Hint 0 label); [done|]. by rewrite Nat.add_0_r. }
      destruct (index_is_Some _ _ Hlabel) as [id Hid]. rewrite Hid.
      set (w1 := {| rename_nodes := <[i:=id]> (rename_nodes w);
                    counter := counter w; names := names w |}).
      destruct (IH (S i) w1) as (w' & Hrun & Hnames & Hcounter & Hout & Hin).
      { lia. }
      { intros k l Hk He. simpl.
        apply (Hint (S k) l); [done|].
        by replace (i + S k) with (S i + k) by lia. }
      exists w'. split; [done|]. simpl in *.
      split; [done|]. split; [done|]. split.
      * intros j Hj. rewrite Hout by lia.
        rewrite lookup_insert_ne; [done|lia].
      * intros k l b Hk He. destruct k as [|k]; simpl in Hk.
        -- rewrite Nat.add_0_r in *. rewrite Hout by lia.
           rewrite lookup_insert_eq.
           assert (b = false) as -> by congruence.
           injection Hk as <-. done.
        -- replace (i + S k) with (S (i + k)) in * by lia.
           rewrite (Hin k l b Hk He). destruct b; [|done].
           by rewrite externals_before_false.
Qed.

(** ** Rebuilding a graph node by node and edge by edge *)

Lemma map_fmap {A B : Type} (f : A -> B) (l : list A) : map f l = f <$> l.
Proof. induction l as [|x l IH]; simpl; [done|]. by rewrite IH. Qed.

Section rebuild.
Context {N : Type} `{EqDecision N}.
Implicit Types (G H pre post : DiGraph N) (u v n : N).

Lemma nodes_app G H : nodes (G ++ H) = nodes G ++ nodes H.
Proof. unfold nodes. by rewrite map_app. Qed.

Lemma edges_app G H : edges (G ++ H) = edges G ++ edges H.
Proof. unfold edges. by rewrite flat_map_app. Qed.

Lemma add_node_fresh n G : n ∉ nodes G -> add_node n G = G ++ [(n, [])].
Proof. intros Hn. unfold add_node. by rewrite decide_False. Qed.

Lemma add_node_present n G : n ∈ nodes G -> add_node n G = G.
Proof. intros Hn. unfold add_node. by rewrite decide_True. Qed.

Lemma add_nodes_from_fresh ns H :
  NoDup (nodes H ++ ns) ->
  add_nodes_from ns H = H ++ map (fun n => (n, [])) ns.
Proof.
  revert H. induction ns as [|n ns IH]; intros H Hnd; simpl.
  - by rewrite app_nil_r.
  - unfold add_nodes_from in *. simpl.
    rewrite add_node_fresh.
    + rewrite IH.
      * by rewrite <- app_assoc.
      * rewrite nodes_app. simpl. by rewrite <- app_assoc.
    + apply NoDup_app in Hnd as (_ & Hdisj & _).
      intros Hin. apply (Hdisj n Hin). left.
Qed.

Lemma add_succ_absent u v G : u ∉ nodes G -> add_succ u v G = G.
Proof.
  induction G as [|[n ss] G IH]; intros Hu; [done|]. simpl in *.
  apply not_elem_of_cons in Hu as [Hne Hu].
  rewrite decide_False by done. f_equal. by apply IH.
Qed.

Lemma add_succ_at u v pre post ss :
  u ∉ nodes pre -> u ∉ nodes post -> v ∉ ss ->
  add_succ u v (pre ++ (u, ss) :: post) = pre ++ (u, ss ++ [v]) :: post.
Proof.
  intros Hpre Hpost Hv. unfold add_succ at 1. rewrite map_app. simpl.
  rewrite decide_True by done. rewrite decide_False by done.
  fold (add_succ u v pre). fold (add_succ u v post).
  by rewrite !add_succ_absent.
Qed.

Lemma add_edge_at u v pre post ss :
  u ∉ nodes pre -> u ∉ nodes post -> v ∉ ss ->
  v ∈ nodes (pre ++ (u, ss) :: post) ->
  add_edge u v (pre ++ (u, ss) :: post) = pre ++ (u, ss ++ [v]) :: post.
Proof.
  intros Hpre Hpost Hv Hin. unfold add_edge.
  rewrite (add_node_present u).
  - rewrite add_node_present by done. by apply add_succ_at.
  - rewrite nodes_app. apply elem_of_app. right. left.
Qed.

Lemma add_edges_from_app es1 es2 G :
  add_edges_from (es1 ++ es2) G = add_edges_from es2 (add_edges_from es1 G).
Proof. unfold add_edges_from. by rewrite fold_left_app. Qed.

Lemma add_edges_from_cons u v es G :
  add_edges_from ((u, v) :: es) G = add_edges_from es (add_edge u v G).
Proof. done. Qed.

(** The edges out of one node, added in order. *)
Lemma add_edges_from_source u pre post ss vs :
  u ∉ nodes pre -> u ∉ nodes post -> NoDup (ss ++ vs) ->
  Forall (fun v => v ∈ nodes (pre ++ (u, ss) :: post)) vs ->
  add_edges_from (map (pair u) vs) (pre ++ (u, ss) :: post) =
    pre ++ (u, ss ++ vs) :: post.
Proof.
  intros Hpre Hpost. revert ss.
  induction vs as [|v vs IH]; intros ss Hnd Hall.
  - by rewrite app_nil_r.
  - apply Forall_cons in Hall as [Hv Hall].
    change (map (pair u) (v :: vs)) with ((u, v) :: map (pair u) vs).
    rewrite add_edges_from_cons.
    rewrite add_edge_at; [|done|done| |done].
    + rewrite IH.
      * by rewrite <- app_assoc.
      * by rewrite <- app_assoc.
      * eapply Forall_impl; [exact Hall|]. intros x Hx.
        rewrite nodes_app in *. exact Hx.
    + apply NoDup_app in Hnd as (_ & Hdisj & _).
      intros Hin. apply (Hdisj v Hin). left.
Qed.

(** All the edges of a graph, added to its bare nodes. *)
Lemma add_edges_from_all pre G :
  NoDup (nodes pre ++ nodes G) ->
  Forall (fun e => NoDup (snd e) /\
                   Forall (fun v => v ∈ nodes pre ++ nodes G) (snd e)) G ->
  add_edges_from (edges G) (pre ++ map (fun n => (n, [])) (nodes G)) = pre ++ G.
Proof.
  revert pre. induction G as [|[u ss] G IH]; intros pre Hnd Hall; [done|].
  apply Forall_cons in Hall as [[Hss Hin] Hall]. simpl in *.
  change (edges ((u, ss) :: G)) with (map (pair u) ss ++ edges G).
  rewrite add_edges_from_app.
  pose proof Hnd as Hnd'.
  apply NoDup_app in Hnd' as (_ & Hdisj & Hnd2).
  apply NoDup_cons in Hnd2 as [HuG _].
  rewrite (add_edges_from_source u pre _ [] ss).
  - simpl. rewrite (cons_middle (u, ss)), app_assoc. rewrite IH.
    + by rewrite <- app_assoc.
    + rewrite nodes_app. simpl. by rewrite <- app_assoc.
    + eapply Forall_impl; [exact Hall|]. intros e [He1 He2].
      split; [done|]. eapply Forall_impl; [exact He2|]. intros x Hx.
      rewrite nodes_app. simpl. by rewrite <- app_assoc.
  - intros Hu. apply (Hdisj u Hu). left.
  - unfold nodes. rewrite map_map. simpl. rewrite map_id. exact HuG.
  - done.
  - eapply Forall_impl; [exact Hin|]. intros x Hx.
    rewrite nodes_app. simpl. unfold nodes at 2. rewrite map_map. simpl.
    by rewrite map_id.
Qed.

(** A well-formed graph is rebuilt as it was. *)
Lemma rebuild_wf G :
  wf G -> add_edges_from (edges G) (add_nodes_from (nodes G) []) = G.
Proof.
  intros [Hnd Hall].
  rewrite add_nodes_from_fresh by done. simpl.
  by apply (add_edges_from_all []).
Qed.
End rebuild.

(** ** Relabeling *)

Section relabel.
Context {N M : Type} `{EqDecision N} `{EqDecision M}.
Implicit Types (G : DiGraph N) (f : N -> M).

Lemma nodes_map_graph f G : nodes (map_graph f G) = map f (nodes G).
Proof. unfold nodes, map_graph. rewrite !map_map. done. Qed.

Lemma edges_map_graph f G :
  edges (map_graph f G) = map (fun e => (f (fst e), f (snd e))) (edges G).
Proof.
  induction G as [|[u ss] G IH]; [done|].
  change (edges ((u, ss) :: G)) with (map (pair u) ss ++ edges G).
  change (edges (map_graph f ((u, ss) :: G)))
    with (map (pair (f u)) (map f ss) ++ edges (map_graph f G)).
  rewrite map_app, IH, !map_map. done.
Qed.

Lemma length_map_graph f G : length (map_graph f G) = length G.
Proof. unfold map_graph. by rewrite length_map. Qed.

(** [relabel_copy] rebuilds the renamed graph. *)
Lemma relabel_copy_rebuild f G :
  relabel_copy f G =
    add_edges_from (edges (map_graph f G))
                   (add_nodes_from (nodes (map_graph f G)) []).
Proof. unfold relabel_copy. by rewrite edges_map_graph, nodes_map_graph. Qed.

Lemma wf_map_graph f G :
  wf G ->
  (forall x y, x ∈ nodes G -> y ∈ nodes G -> f x = f y -> x = y) ->
  wf (map_graph f G).
Proof.
  intros [Hnd Hall] Hinj. split.
  - rewrite nodes_map_graph, map_fmap. by apply NoDup_fmap_2_strong.
  - apply Forall_forall. intros e He. unfold map_graph in He.
    apply list_elem_of_In, in_map_iff in He as ([u ss] & <- & He). simpl.
    apply list_elem_of_In in He.
    rewrite Forall_forall in Hall. destruct (Hall _ He) as [Hss Hin].
    simpl in *. rewrite Forall_forall in Hin. split.
    + rewrite map_fmap. apply NoDup_fmap_2_strong; [|done].
      intros x y Hx Hy. apply Hinj; by apply Hin.
    + apply Forall_forall. intros v Hv.
      apply list_elem_of_In, in_map_iff in Hv as (v' & <- & Hv').
      apply list_elem_of_In in Hv'.
      rewrite nodes_map_graph, map_fmap. apply list_elem_of_fmap_2.
      by apply Hin.
Qed.

(** A renaming that is injective on the nodes renames in place: node
    order, successor order and therefore edge order are kept. *)
Lemma relabel_copy_injective f G :
  wf G ->
  (forall x y, x ∈ nodes G -> y ∈ nodes G -> f x = f y -> x = y) ->
  relabel_copy f G = map_graph f G.
Proof.
  intros Hwf Hinj. rewrite relabel_copy_rebuild.
  apply rebuild_wf. by apply wf_map_graph.
Qed.
End relabel.

Section edges_of_rebuild.
Context {N : Type} `{EqDecision N}.
Implicit Types (G H : DiGraph N) (u v n : N).

Lemma elem_of_edges a b G :
  (a, b) ∈ edges G <-> exists ss, (a, ss) ∈ G /\ b ∈ ss.
Proof.
  unfold edges. rewrite list_elem_of_In, in_flat_map. split.
  - intros ([u ss] & He & Hin). simpl in Hin.
    apply in_map_iff in Hin as (b' & [= <- <-] & Hb).
    exists ss. split; by apply list_elem_of_In.
  - intros (ss & He & Hb). exists (a, ss). split; [by apply list_elem_of_In|].
    simpl. apply in_map. by apply list_elem_of_In.
Qed.

Lemma edges_add_node n G : edges (add_node n G) = edges G.
Proof.
  unfold add_node. destruct (decide (n ∈ nodes G)); [done|].
  rewrite edges_app. simpl. by rewrite app_nil_r.
Qed.

Lemma edges_add_nodes_from ns G : edges (add_nodes_from ns G) = edges G.
Proof.
  revert G. induction ns as [|n ns IH]; intros G; [done|].
  unfold add_nodes_from in *. simpl. by rewrite IH, edges_add_node.
Qed.

Lemma edges_add_succ a b u v G :
  (a, b) ∈ edges (add_succ u v G) -> (a, b) = (u, v) \/ (a, b) ∈ edges G.
Proof.
  rewrite !elem_of_edges. intros (ss & He & Hb).
  unfold add_succ in He. apply list_elem_of_In, in_map_iff in He.
  destruct He as ([n ss0] & Heq & He). simpl in Heq.
  apply list_elem_of_In in He.
  destruct (decide (n = u)) as [->|Hne].
  - injection Heq as <- <-.
    destruct (decide (v ∈ ss0)).
    + right. by exists ss0.
    + apply elem_of_app in Hb as [Hb|Hb].
      * right. by exists ss0.
      * apply list_elem_of_singleton in Hb as ->. by left.
  - injection Heq as <- <-. right. by exists ss0.
Qed.

Lemma edges_add_edge a b u v G :
  (a, b) ∈ edges (add_edge u v G) -> (a, b) = (u, v) \/ (a, b) ∈ edges G.
Proof.
  unfold add_edge. intros Hin. apply edges_add_succ in Hin as [?|Hin]; [by left|].
  right. by rewrite !edges_add_node in Hin.
Qed.

(** Adding edges creates no edge beyond those added. *)
Lemma edges_add_edges_from a b es G :
  (a, b) ∈ edges (add_edges_from es G) -> (a, b) ∈ es \/ (a, b) ∈ edges G.
Proof.
  revert G. induction es as [|[u v] es IH]; intros G Hin; [by right|].
  rewrite add_edges_from_cons in Hin.
  apply IH in Hin as [Hin|Hin]; [left; by right|].
  apply edges_add_edge in Hin as [->|Hin]; [left; left|by right].
Qed.
End edges_of_rebuild.

(** Every edge of a relabeled graph is the renaming of an edge. *)
Lemma edges_relabel_copy {N M : Type} `{EqDecision N} `{EqDecision M}
    (f : N -> M) (G : DiGraph N) (a b : M) :
  (a, b) ∈ edges (relabel_copy f G) ->
  exists x y, (x, y) ∈ edges G /\ a = f x /\ b = f y.
Proof.
  unfold relabel_copy. intros Hin.
  apply edges_add_edges_from in Hin as [Hin|Hin].
  - apply list_elem_of_In, in_map_iff in Hin as ([x y] & [= <- <-] & Hxy).
    exists x, y. split; [by apply list_elem_of_In|done].
  - rewrite edges_add_nodes_from in Hin. by apply elem_of_nil in Hin.
Qed.

(** ** Positions of nodes *)

Lemma positions_seq {A : Type} `{EqDecision A} (l : list A) :
  NoDup l -> map (fun n => default 0 (index n l)) l = seq 0 (length l).
Proof.
  intros Hnd. rewrite map_fmap. apply list_eq. intros i.
  rewrite list_lookup_fmap.
  destruct (l !! i) as [x|] eqn:Hi; simpl.
  - rewrite (index_NoDup l i x) by done. simpl.
    symmetry. apply lookup_seq. split; [done|]. by apply lookup_lt_Some in Hi.
  - symmetry. apply lookup_seq_ge. by apply lookup_ge_None.
Qed.

Lemma position_injective {A : Type} `{EqDecision A} (l : list A) (x y : A) :
  x ∈ l -> y ∈ l ->
  default 0 (index x l) = default 0 (index y l) -> x = y.
Proof.
  intros Hx Hy Heq.
  destruct (index_is_Some _ _ Hx) as [i Hi], (index_is_Some _ _ Hy) as [j Hj].
  rewrite Hi, Hj in Heq. simpl in Heq. subst j. by eapply index_inj.
Qed.

(** On a well-formed graph the conversion to integers renames in place and
    numbers the nodes in node order. *)
Lemma convert_wf {N : Type} `{EqDecision N} (G : DiGraph N) :
  wf G ->
  let pos := fun n => default 0 (index n (nodes G)) in
  convert_node_labels_to_integers G = map_graph pos G /\
  nodes (convert_node_labels_to_integers G) = seq 0 (number_of_nodes G) /\
  wf (convert_node_labels_to_integers G).
Proof.
  intros Hwf pos.
  assert (convert_node_labels_to_integers G = map_graph pos G) as Heq.
  { apply relabel_copy_injective; [done|]. intros x y. apply position_injective. }
  rewrite Heq. split; [done|]. split.
  - rewrite nodes_map_graph. unfold pos, number_of_nodes.
    destruct Hwf as [Hnd _]. rewrite positions_seq by done.
    unfold nodes. by rewrite length_map.
  - apply wf_map_graph; [done|]. intros x y. apply position_injective.
Qed.

(** ** Counting external nodes *)

Lemma externals_before_cons (k : nat) (b : bool) (externals : list bool) :
  externals_before (S k) (b :: externals) =
    (if b then 1 else 0) + externals_before k externals.
Proof. by destruct b. Qed.

Lemma externals_before_lt (k k' : nat) (externals : list bool) :
  k < k' -> externals !! k = Some true ->
  externals_before k externals < externals_before k' externals.
Proof.
  revert k k'. induction externals as [|b e IH]; intros k k' Hlt Hk; [done|].
  destruct k' as [|k']; [lia|]. destruct k as [|k]; simpl in Hk.
  - injection Hk as ->. rewrite externals_before_cons.
    unfold externals_before at 1. simpl. lia.
  - rewrite !externals_before_cons.
    assert (externals_before k e < externals_before k' e) by (apply IH; [lia|done]).
    lia.
Qed.

Lemma external_names_lookup (labels : list string) (externals : list bool)
    (k : nat) (label : string) :
  labels !! k = Some label -> externals !! k = Some true ->
  external_names labels externals !! externals_before k externals = Some label.
Proof.
  revert externals k. induction labels as [|l labels IH];
    intros externals k Hl He; [done|].
  destruct externals as [|b e]; [done|].
  destruct k as [|k]; simpl in Hl, He.
  - injection Hl as ->. injection He as ->. done.
  - rewrite externals_before_cons. cbn [external_names].
    destruct b; simpl; by apply IH.
Qed.

Lemma externals_before_bound (labels : list string) (externals : list bool)
    (k : nat) (label : string) :
  labels !! k = Some label -> externals !! k = Some true ->
  externals_before k externals < length (external_names labels externals).
Proof.
  intros Hl He. eapply lookup_lt_Some. by apply external_names_lookup.
Qed.

(** ** The relabeling step *)

Lemma node_id_bound (labels : list string) (externals : list bool)
    (names0 : list string) (k id : nat) :
  node_id labels externals names0 k = Some id ->
  id < length (names0 ++ external_names labels externals).
Proof.
  unfold node_id. rewrite length_app.
  destruct (labels !! k) as [label|] eqn:Hl; [|done].
  destruct (externals !! k) as [[]|] eqn:He; [| |done].
  - intros [= <-]. pose proof (externals_before_bound _ _ _ _ Hl He). lia.
  - intros Hi. apply index_lt in Hi. lia.
Qed.

Lemma node_id_injective (labels : list string) (externals : list bool)
    (names0 : list string) (k k' id : nat) :
  internals_distinct labels externals ->
  node_id labels externals names0 k = Some id ->
  node_id labels externals names0 k' = Some id ->
  k = k'.
Proof.
  unfold node_id. intros Hdist.
  destruct (labels !! k) as [l|] eqn:Hl; [|done].
  destruct (labels !! k') as [l'|] eqn:Hl'; [|by destruct (externals !! k) as [[]|]].
  destruct (externals !! k) as [[]|] eqn:He; [| |done];
    (destruct (externals !! k') as [[]|] eqn:He'; [| |done]).
  - intros [= <-] [= Heq].
    destruct (Nat.lt_trichotomy k k') as [Hlt|[->|Hlt]]; [|done|].
    + pose proof (externals_before_lt _ _ _ Hlt He). lia.
    + pose proof (externals_before_lt _ _ _ Hlt He'). lia.
  - intros [= <-] Hi. apply index_lt in Hi. lia.
  - intros Hi [= <-]. apply index_lt in Hi. lia.
  - intros Hi Hi'. assert (l = l') as -> by (by eapply index_inj).
    by eapply Hdist.
Qed.

Lemma wf_edge_nodes {N : Type} `{EqDecision N} (G : DiGraph N) (x y : N) :
  wf G -> (x, y) ∈ edges G -> x ∈ nodes G /\ y ∈ nodes G.
Proof.
  intros [_ Hall] Hin. apply elem_of_edges in Hin as (ss & He & Hy).
  rewrite Forall_forall in Hall. destruct (Hall _ He) as [_ Hss].
  rewrite Forall_forall in Hss. split; [|by apply Hss].
  unfold nodes. rewrite map_fmap. by apply (list_elem_of_fmap_2 fst _ (x, ss)).
Qed.

(** With parallel tables and registered internal labels the step returns:
    the name table is extended by the external labels in table order and
    the renaming sends position [k] to [node_id k]. *)
Lemma relabel_call_graph_ok {N : Type} `{EqDecision N} (labels : list string)
    (externals : list bool) (names0 : list string) (CG : DiGraph N) :
  length externals = length labels ->
  internals_registered labels externals names0 ->
  exists w,
    relabel_call_graph labels externals names0 CG =
      Ok (w, relabel_nodes (convert_node_labels_to_integers CG) (rename_nodes w)) /\
    names w = names0 ++ external_names labels externals /\
    counter w = length (names w) /\
    (forall k, k < length labels ->
               rename_nodes w !! k = node_id labels externals names0 k /\
               is_Some (node_id labels externals names0 k)) /\
    (forall k, length labels <= k -> rename_nodes w !! k = None).
Proof.
  intros Hlen Hreg. unfold relabel_call_graph.
  destruct (relabel_walk_spec externals labels 0
              {| rename_nodes := ∅; counter := length names0; names := names0 |})
    as (w & Hrun & Hnames & Hcounter & Hout & Hin).
  { simpl. lia. }
  { intros k label Hk He. simpl in *. by eapply Hreg. }
  rewrite Hrun. exists w. simpl in *. rewrite drop_0 in *.
  split; [done|]. split; [done|].
  split; [rewrite Hcounter, Hnames, length_app; lia|]. split.
  - intros k Hk.
    destruct (lookup_lt_is_Some_2 labels k Hk) as [label Hl].
    destruct (lookup_lt_is_Some_2 externals k ltac:(lia)) as [b Hb].
    rewrite (Hin k label b Hl Hb). unfold node_id. rewrite Hl, Hb.
    destruct b; [by split|]. split; [done|].
    apply index_is_Some. by eapply Hreg.
  - intros k Hk. rewrite Hout by lia. apply lookup_empty.
Qed.

(** An internal node without a registered label stops the step: the lookup
    of line 362 raises [ValueError]. *)
Lemma relabel_walk_unregistered (externals : list bool) (labels : list string)
    (i : nat) (label : string) (labels' : list string) (w : walk) :
  externals !! i = Some false -> label ∉ names w ->
  relabel_walk externals i (label :: labels') w = Raise ValueError.
Proof. intros He Hl. simpl. by rewrite He, index_None. Qed.

(** Ids handed out by the step index the name table. *)
Lemma relabel_call_graph_ids_bounded {N : Type} `{EqDecision N}
    (labels : list string) (externals : list bool) (names0 : list string)
    (CG : DiGraph N) :
  wf CG -> tables_parallel CG labels externals ->
  internals_registered labels externals names0 ->
  exists w G',
    relabel_call_graph labels externals names0 CG = Ok (w, G') /\
    names w = names0 ++ external_names labels externals /\
    forall a b, (a, b) ∈ edges G' ->
                a < length (names w) /\ b < length (names w).
Proof.
  intros Hwf [Hlab Hext] Hreg.
  destruct (relabel_call_graph_ok labels externals names0 CG Hext Hreg)
    as (w & Hrun & Hnames & _ & Hin & _).
  eexists w, _. split; [exact Hrun|]. split; [done|].
  intros a b Hab. unfold relabel_nodes in Hab.
  apply edges_relabel_copy in Hab as (x & y & Hxy & -> & ->).
  destruct (convert_wf CG Hwf) as (_ & Hnodes & Hwf1).
  apply (wf_edge_nodes _ _ _ Hwf1) in Hxy as [Hx Hy].
  rewrite Hnodes in Hx, Hy. apply elem_of_seq in Hx, Hy.
  assert (forall k, k < length labels ->
                    default k (rename_nodes w !! k) < length (names w)) as Hb.
  { intros k Hk. destruct (Hin k Hk) as [-> [id Hid]]. rewrite Hid. simpl.
    rewrite Hnames. by eapply node_id_bound. }
  split; apply Hb; lia.
Qed.

Lemma map_graph_compose {A B C : Type} (f : A -> B) (g : B -> C) (G : DiGraph A) :
  map_graph g (map_graph f G) = map_graph (fun n => g (f n)) G.
Proof.
  unfold map_graph. rewrite map_map. apply map_ext. intros [u ss]. simpl.
  by rewrite map_map.
Qed.

Lemma map_graph_ext {A B : Type} `{EqDecision A} (f g : A -> B) (G : DiGraph A) :
  wf G -> (forall n, n ∈ nodes G -> f n = g n) ->
  map_graph f G = map_graph g G.
Proof.
  intros [_ Hall] Heq. unfold map_graph. apply map_ext_in.
  intros [u ss] He. apply list_elem_of_In in He. simpl.
  rewrite Forall_forall in Hall. destruct (Hall _ He) as [_ Hss]. simpl in Hss.
  rewrite Forall_forall in Hss. f_equal.
  - apply Heq. unfold nodes. rewrite map_fmap.
    by apply (list_elem_of_fmap_2 fst _ (u, ss)).
  - apply map_ext_in. intros v Hv. apply Heq, Hss. by apply list_elem_of_In.
Qed.

Lemma position_lt {A : Type} `{EqDecision A} (l : list A) (x : A) :
  x ∈ l -> default 0 (index x l) < length l.
Proof.
  intros Hx. destruct (index_is_Some _ _ Hx) as [i Hi]. rewrite Hi. simpl.
  by eapply index_lt.
Qed.

(** A renaming that is injective on the nodes renames the call graph in
    place. *)
Lemma relabel_call_graph_in_place {N : Type} `{EqDecision N} (CG : DiGraph N)
    (labels : list string) (externals : list bool) (names0 : list string)
    (Hwf : wf CG)
    (Hpar : tables_parallel CG labels externals)
    (Hreg : internals_registered labels externals names0)
    (Hdist : internals_distinct labels externals) :
  let rho := registry_id CG labels externals names0 in
  exists w G',
    relabel_call_graph labels externals names0 CG = Ok (w, G') /\
    (forall x y, x ∈ nodes CG -> y ∈ nodes CG -> rho x = rho y -> x = y) /\
    nodes G' = map rho (nodes CG) /\
    edges G' = map (fun e => (rho (fst e), rho (snd e))) (edges CG) /\
    edges G' ≡ₚ map (fun e => (rho (fst e), rho (snd e))) (edges CG) /\
    number_of_edges G' = number_of_edges CG /\
    number_of_nodes G' = number_of_nodes CG /\
    NoDup (nodes G').
Proof.
  intros rho. destruct Hpar as [Hlab Hext].
  destruct (relabel_call_graph_ok labels externals names0 CG Hext Hreg)
    as (w & Hrun & Hnames & _ & Hin & _).
  destruct (convert_wf CG Hwf) as (Hconv & Hnodes & Hwf1).
  set (f := fun n => default n (rename_nodes w !! n)).
  assert (forall k, k < length labels ->
            f k = default k (node_id labels externals names0 k) /\
            is_Some (node_id labels externals names0 k)) as Hf.
  { intros k Hk. unfold f. by destruct (Hin k Hk) as [-> ?]. }
  assert (forall x y, x ∈ nodes (convert_node_labels_to_integers CG) ->
                      y ∈ nodes (convert_node_labels_to_integers CG) ->
                      f x = f y -> x = y) as Hinj.
  { intros x y Hx Hy Hxy. rewrite Hnodes in Hx, Hy.
    apply elem_of_seq in Hx, Hy.
    destruct (Hf x ltac:(lia)) as [Hfx [idx Hidx]].
    destruct (Hf y ltac:(lia)) as [Hfy [idy Hidy]].
    rewrite Hfx, Hfy, Hidx, Hidy in Hxy. simpl in Hxy. subst idy.
    by eapply node_id_injective. }
  assert (relabel_nodes (convert_node_labels_to_integers CG) (rename_nodes w)
          = map_graph rho CG) as HG.
  { unfold relabel_nodes. fold f. rewrite relabel_copy_injective by done.
    rewrite Hconv, map_graph_compose. apply map_graph_ext; [done|].
    intros n Hn. unfold rho, registry_id.
    apply Hf. rewrite Hlab. unfold number_of_nodes.
    replace (length CG) with (length (nodes CG)) by (unfold nodes; apply length_map).
    by apply position_lt. }
  assert (forall x y, x ∈ nodes CG -> y ∈ nodes CG -> rho x = rho y -> x = y)
    as Hrho.
  { intros x y Hx Hy Hxy. unfold rho, registry_id in Hxy.
    pose proof (position_lt _ _ Hx) as Hpx. pose proof (position_lt _ _ Hy) as Hpy.
    assert (length (nodes CG) = length labels) as Hl
      by (rewrite Hlab; unfold nodes, number_of_nodes; apply length_map).
    rewrite Hl in Hpx, Hpy.
    destruct (Hf _ Hpx) as [_ [idx Hidx]]. destruct (Hf _ Hpy) as [_ [idy Hidy]].
    rewrite Hidx, Hidy in Hxy. simpl in Hxy. subst idy.
    apply (position_injective (nodes CG)); [done..|].
    by eapply node_id_injective. }
  exists w, (map_graph rho CG). rewrite Hrun, HG.
  split; [done|]. split; [done|].
  split; [apply nodes_map_graph|]. split; [apply edges_map_graph|].
  split; [by rewrite edges_map_graph|].
  split; [unfold number_of_edges; by rewrite edges_map_graph, length_map|].
  split; [apply length_map_graph|].
  rewrite nodes_map_graph, map_fmap. apply NoDup_fmap_2_strong; [done|].
  by destruct Hwf.
Qed.

(** C4 (amended). When the node tables run parallel to the nodes of the call
    graph, every internal node carries the name of a registered method and
    no two internal nodes carry the same name, the relabeling step returns
    the call graph renamed in place by the id mapping: that mapping is
    injective on the nodes, the nodes and the edges of the output are the
    images of the input's in the same order (hence the same multiset of
    edge pairs), and the node count and the edge count are unchanged. *)
Theorem relabeling_isomorphic {N : Type} `{EqDecision N} (CG : DiGraph N)
    (labels : list string) (externals : list bool) (names0 : list string)
    (Hwf : wf CG)
    (Hpar : tables_parallel CG labels externals)
    (Hreg : internals_registered labels externals names0)
    (Hdist : internals_distinct labels externals) :
  let rho := registry_id CG labels externals names0 in
  exists w G',
    relabel_call_graph labels externals names0 CG = Ok (w, G') /\
    (forall x y, x ∈ nodes CG -> y ∈ nodes CG -> rho x = rho y -> x = y) /\
    nodes G' = map rho (nodes CG) /\
    edges G' = map (fun e => (rho (fst e), rho (snd e))) (edges CG) /\
    edges G' ≡ₚ map (fun e => (rho (fst e), rho (snd e))) (edges CG) /\
    number_of_edges G' = number_of_edges CG /\
    number_of_nodes G' = number_of_nodes CG /\
    NoDup (nodes G').
Proof.
  exact (relabel_call_graph_in_place CG labels externals names0
           Hwf Hpar Hreg Hdist).
Qed.

Lemma relabeling_isomorphic_witness :
  exists w G',
    relabel_call_graph ["LA;a()V"; "Ljava/lang/Object;<init>()V"] [false; true]
      ["LA;a()V"] [("a", ["init"]); ("init", [])] = Ok (w, G') /\
    edges G' = [(0, 1)].
Proof.
  destruct (relabeling_isomorphic (N := string)
              [("a", ["init"]); ("init", [])]
              ["LA;a()V"; "Ljava/lang/Object;<init>()V"] [false; true]
              ["LA;a()V"])
    as (w & G' & Hrun & _ & _ & Hedges & _).
  - compute_done.
  - split; reflexivity.
  - intros [|[|k]] label Hl He; simpl in *; simplify_eq. left.
  - intros [|[|k]] [|[|k']] label Hl Hl' He He'; simpl in *; simplify_eq; done.
  - exists w, G'. split; [exact Hrun|]. rewrite Hedges. reflexivity.
Defined.

(** C4 as stated does not hold for every call graph handed to the step:
    two internal nodes that carry the same label are merged into one, so a
    node and an edge are lost. *)
Lemma relabeling_merges_shared_label :
  let CG : DiGraph nat := [(0, [1]); (1, [0])] in
  wf CG /\ tables_parallel CG ["LA;a()V"; "LA;a()V"] [false; false] /\
  exists w,
    relabel_call_graph ["LA;a()V"; "LA;a()V"] [false; false] ["LA;a()V"] CG =
      Ok (w, [(0, [0])]) /\
    number_of_nodes CG = 2 /\ number_of_nodes (N := nat) [(0, [0])] = 1 /\
    number_of_edges CG = 2 /\ number_of_edges (N := nat) [(0, [0])] = 1.
Proof.
  intros CG. split; [|split].
  - compute_done.
  - split; reflexivity.
  - eexists. split; [vm_compute; reflexivity|]. repeat split.
Qed.

(** ** One pass over a DEX object *)

Lemma elem_of_bind {A B : Type} (m : M A) (k : A -> M B) (e : event) :
  e ∈ (m ≫= k).1 -> e ∈ m.1 \/ exists a, m.2 = Ok a /\ e ∈ (k a).1.
Proof.
  destruct m as [t [a|x]]; unfold mbind, M_bind; simpl.
  - destruct (k a) as [t' r] eqn:Hk. simpl. intros Hin.
    apply elem_of_app in Hin as [Hin|Hin]; [by left|].
    right. exists a. by rewrite Hk.
  - by left.
Qed.

Lemma bind_Ok_inv {A B : Type} (m : M A) (k : A -> M B) (b : B) :
  (m ≫= k).2 = Ok b -> exists a, m.2 = Ok a /\ (k a).2 = Ok b.
Proof.
  destruct m as [t [a|x]]; unfold mbind, M_bind; simpl; [|done].
  destruct (k a) as [t' r] eqn:Hk. simpl. intros ->. exists a. by rewrite Hk.
Qed.

Lemma set_decompiler_silent (decompiler_type : option string) :
  exists t, set_decompiler decompiler_type = (t, Ok ()) /\ silent t.
Proof.
  unfold set_decompiler, silent. destruct decompiler_type as [tag|].
  - destruct (bool_decide (tag ∈ decompilers)); eexists; split; try done;
      by repeat constructor.
  - eexists; split; [done|]. constructor.
Qed.

Lemma make_jar_silent (output : string) (jar : bool) :
  exists t, make_jar output jar = (t, Ok ()) /\ silent t.
Proof.
  unfold make_jar, silent. destruct jar; eexists; split; try done;
    by repeat constructor.
Qed.

Lemma silent_app (t1 t2 : list event) : silent t1 -> silent t2 -> silent (t1 ++ t2).
Proof. apply Forall_app_2. Qed.

Lemma silent_written (t : list event) : silent t -> written t = [].
Proof.
  induction t as [|e t IH]; intros Hs; [done|].
  apply Forall_cons in Hs as [He Hs]. simpl. rewrite IH by done.
  by destruct e.
Qed.

Lemma silent_no_entry (t : list event) (text : list piece) :
  silent t -> FileWrite text ∉ t.
Proof.
  intros Hs Hin. unfold silent in Hs. rewrite Forall_forall in Hs.
  exact (Hs _ Hin).
Qed.

Section dex_pass.
Context {N : Type} `{EqDecision N}.
Context (output : string) (filt : option pattern) (jar : bool)
        (decompiler_type : option string)
        (labels : list string) (externals : list bool).

(** The pass in terms of its two stages. *)
Lemma export_dex_stages (vm : DEX) (methods0 : gmap string nat)
    (names0 : list string) (CG : DiGraph N) :
  exists t0, silent t0 /\
    export_dex output filt jar decompiler_type labels externals vm
      methods0 names0 CG =
    (([] : list event, Ok ()) ≫= fun _ =>
     (t0, Ok ()) ≫= fun _ =>
     dump_methods filt (get_methods vm)
       {| methods := methods0; method_names := names0;
          first_iteration := true |} ≫= fun st =>
     lift (relabel_call_graph labels externals (method_names st) CG) ≫= fun wg =>
     (closing_writes wg.2 (names wg.1), Ok ()) ≫= fun _ =>
     mret (methods st, names wg.1,
           {| rename_of := rename_nodes wg.1; graph_of := wg.2 |})).
Proof.
  destruct (set_decompiler_silent decompiler_type) as (t1 & H1 & Hs1).
  destruct (make_jar_silent output jar) as (t2 & H2 & Hs2).
  exists (t1 ++ t2). split; [by apply silent_app|].
  unfold export_dex. rewrite H1, H2.
  unfold mbind, M_bind, emit, closing_writes. simpl.
  destruct (dump_methods _ _ _) as [t [st|e]]; simpl.
  - destruct (relabel_call_graph _ _ _ _) as [[w G]|e]; simpl;
      by rewrite ?app_nil_r, <- ?app_assoc.
  - by rewrite ?app_nil_r, <- ?app_assoc.
Qed.

(** A pass in which every exported method passes the check and the
    relabeling step returns. *)
Lemma export_dex_ok (vm : DEX) (methods0 : gmap string nat)
    (names0 : list string) (CG : DiGraph N) (w : walk) (G' : DiGraph nat) :
  let Q := qualifying filt (get_methods vm) in
  Forall (fun m => cfg_consistent (method2dotaggregated m)) Q ->
  relabel_call_graph labels externals (names0 ++ map signature Q) CG =
    Ok (w, G') ->
  exists t0, silent t0 /\
    export_dex output filt jar decompiler_type labels externals vm
      methods0 names0 CG =
    (t0 ++ entries_trace true Q ++ closing_writes G' (names w),
     Ok (register Q methods0, names w,
         {| rename_of := rename_nodes w; graph_of := G' |})).
Proof.
  intros Q Hall Hrel.
  destruct (export_dex_stages vm methods0 names0 CG) as (t0 & Hs & ->).
  exists t0. split; [done|].
  rewrite (dump_methods_ok filt _ _ Hall). fold Q. simpl.
  unfold mbind, M_bind, lift. simpl. rewrite Hrel. simpl.
  by rewrite ?app_nil_r.
Qed.

(** Whatever its outcome, a pass writes an entry only for an exported
    method of its DEX object that passed the check. *)
Lemma export_dex_entries (vm : DEX) (methods0 : gmap string nat)
    (names0 : list string) (CG : DiGraph N) (d : json) :
  FileWrite [JsonDumps d] ∈
    (export_dex output filt jar decompiler_type labels externals vm
       methods0 names0 CG).1 ->
  exists m, m ∈ get_methods vm /\ qualifies filt m = true /\
            d = cfg_data (method2dotaggregated m) /\
            cfg_consistent (method2dotaggregated m).
Proof.
  destruct (export_dex_stages vm methods0 names0 CG) as (t0 & Hs & ->).
  intros Hin.
  apply elem_of_bind in Hin as [Hin|(_ & _ & Hin)]; [by apply elem_of_nil in Hin|].
  apply elem_of_bind in Hin as [Hin|(_ & _ & Hin)];
    [by apply silent_no_entry in Hin|].
  apply elem_of_bind in Hin as [Hin|(st & _ & Hin)];
    [by eapply dump_methods_entries|].
  apply elem_of_bind in Hin as [Hin|(wg & _ & Hin)]; [by apply elem_of_nil in Hin|].
  apply elem_of_bind in Hin as [Hin|(_ & _ & Hin)].
  - simpl in Hin. unfold closing_writes in Hin.
    repeat (apply elem_of_cons in Hin as [Hin|Hin]; [discriminate|]).
    by apply elem_of_nil in Hin.
  - by apply elem_of_nil in Hin.
Qed.
End dex_pass.

(** ** The loop over the DEX objects and the whole run *)

Lemma dump_methods_Ok_consistent (filt : option pattern) (ms : list Method)
    (st st' : registry) :
  (dump_methods filt ms st).2 = Ok st' ->
  Forall (fun m => cfg_consistent (method2dotaggregated m)) (qualifying filt ms).
Proof.
  revert st. induction ms as [|m ms IH]; intros st Hok; [constructor|].
  rewrite qualifying_cons. cbn [dump_methods] in Hok.
  apply bind_Ok_inv in Hok as (st1 & H1 & H2).
  destruct (qualifies filt m) eqn:Hq; [|by eapply IH].
  constructor; [|by eapply IH].
  destruct (decide (cfg_consistent (method2dotaggregated m))) as [Hc|Hc]; [done|].
  by rewrite dump_method_abort in H1.
Qed.

Section run.
Context (output : string) (filt : option pattern) (jar : bool)
        (decompiler_type : option string)
        (labels : list string) (externals : list bool).

(** A pass that returns went through both stages. *)
Lemma export_dex_Ok_inv {N : Type} `{EqDecision N} (vm : DEX)
    (methods0 : gmap string nat) (names0 : list string) (CG : DiGraph N)
    (t : list event) (r : gmap string nat * list string * relabeling) :
  export_dex output filt jar decompiler_type labels externals vm
    methods0 names0 CG = (t, Ok r) ->
  let Q := qualifying filt (get_methods vm) in
  exists t0 w G',
    silent t0 /\
    Forall (fun m => cfg_consistent (method2dotaggregated m)) Q /\
    relabel_call_graph labels externals (names0 ++ map signature Q) CG =
      Ok (w, G') /\
    t = t0 ++ entries_trace true Q ++ closing_writes G' (names w) /\
    r = (register Q methods0, names w,
         {| rename_of := rename_nodes w; graph_of := G' |}).
Proof.
  intros Hrun Q.
  assert (Forall (fun m => cfg_consistent (method2dotaggregated m)) Q) as Hall.
  { destruct (export_dex_stages output filt jar decompiler_type labels
                externals vm methods0 names0 CG) as (t0 & _ & Heq).
    rewrite Heq in Hrun.
    assert (((([] : list event, Ok ()) : M unit) ≫= fun _ =>
             (t0, Ok ()) ≫= fun _ =>
             dump_methods filt (get_methods vm)
               {| methods := methods0; method_names := names0;
                  first_iteration := true |} ≫= fun st =>
             lift (relabel_call_graph labels externals (method_names st) CG)
               ≫= fun wg =>
             (closing_writes wg.2 (names wg.1), Ok ()) ≫= fun _ =>
             mret (methods st, names wg.1,
                   {| rename_of := rename_nodes wg.1; graph_of := wg.2 |})).2
            = Ok r) as Hok by (by rewrite Hrun).
    apply bind_Ok_inv in Hok as (_ & _ & Hok).
    apply bind_Ok_inv in Hok as (_ & _ & Hok).
    apply bind_Ok_inv in Hok as (st & Hst & _).
    by eapply dump_methods_Ok_consistent. }
  destruct (relabel_call_graph labels externals (names0 ++ map signature Q) CG)
    as [[w G']|e] eqn:Hrel.
  - destruct (export_dex_ok output filt jar decompiler_type labels externals
                vm methods0 names0 CG w G' Hall Hrel) as (t0 & Hs & Heq).
    rewrite Heq in Hrun. injection Hrun as <- <-.
    by exists t0, w, G'.
  - exfalso.
    destruct (export_dex_stages output filt jar decompiler_type labels
                externals vm methods0 names0 CG) as (t0 & _ & Heq).
    rewrite Heq in Hrun. rewrite (dump_methods_ok filt _ _ Hall) in Hrun.
    fold Q in Hrun. unfold mbind, M_bind, lift in Hrun. simpl in Hrun.
    rewrite Hrel in Hrun. simpl in Hrun. discriminate.
Qed.

Lemma export_loop_nil {N : Type} `{EqDecision N} (methods0 : gmap string nat)
    (names0 : list string) (CG : DiGraph N) (done : list relabeling) :
  export_loop output filt jar decompiler_type labels externals []
    methods0 names0 CG done = ([], Ok (methods0, names0, done)).
Proof. done. Qed.

Lemma export_loop_cons {N : Type} `{EqDecision N} (vm : DEX) (dexes : list DEX)
    (methods0 : gmap string nat) (names0 : list string) (CG : DiGraph N)
    (done : list relabeling) :
  export_loop output filt jar decompiler_type labels externals (vm :: dexes)
    methods0 names0 CG done =
  (export_dex output filt jar decompiler_type labels externals vm
     methods0 names0 CG ≫= fun r =>
   export_loop output filt jar decompiler_type labels externals dexes
     r.1.1 r.1.2 (graph_of r.2) (done ++ [r.2])).
Proof. done. Qed.

(** Whatever the outcome of the loop, an entry is written only for an
    exported method that passed the check. *)
Lemma export_loop_entries (dexes : list DEX) (d : json) :
  forall {N : Type} `{EqDecision N} (methods0 : gmap string nat)
         (names0 : list string) (CG : DiGraph N) (done : list relabeling),
  FileWrite [JsonDumps d] ∈
    (export_loop output filt jar decompiler_type labels externals dexes
       methods0 names0 CG done).1 ->
  exists vm m, vm ∈ dexes /\ m ∈ get_methods vm /\
               qualifies filt m = true /\
               d = cfg_data (method2dotaggregated m) /\
               cfg_consistent (method2dotaggregated m).
Proof.
  induction dexes as [|vm dexes IH]; intros N ? methods0 names0 CG done Hin.
  - by apply elem_of_nil in Hin.
  - rewrite export_loop_cons in Hin.
    apply elem_of_bind in Hin as [Hin|(r & _ & Hin)].
    + apply export_dex_entries in Hin as (m & ? & ?).
      exists vm, m. split; [left|done].
    + apply IH in Hin as (vm' & m & ? & ?).
      exists vm', m. split; [by right|done].
Qed.

(** A loop that returns ran every pass to its end. *)
Lemma export_loop_Ok_consistent (dexes : list DEX) :
  forall {N : Type} `{EqDecision N} (methods0 : gmap string nat)
         (names0 : list string) (CG : DiGraph N) (done : list relabeling) r,
  (export_loop output filt jar decompiler_type labels externals dexes
     methods0 names0 CG done).2 = Ok r ->
  forall vm, vm ∈ dexes ->
    Forall (fun m => cfg_consistent (method2dotaggregated m))
           (qualifying filt (get_methods vm)).
Proof.
  induction dexes as [|vm dexes IH]; intros N ? methods0 names0 CG done r Hok vm' Hvm.
  - by apply elem_of_nil in Hvm.
  - rewrite export_loop_cons in Hok.
    apply bind_Ok_inv in Hok as (r1 & H1 & H2).
    apply elem_of_cons in Hvm as [->|Hvm].
    + destruct (export_dex _ _ _ _ _ _ _ _ _ _) as [t1 res1] eqn:Hd.
      simpl in H1. subst res1.
      by destruct (export_dex_Ok_inv _ _ _ _ _ _ Hd) as (_ & _ & _ & _ & ? & _).
    + by eapply IH.
Qed.
End run.

Lemma export_run_shape {N : Type} `{EqDecision N} (filename : string) (s : Session N)
    (output : string) (filt : option pattern) (jar : bool)
    (decompiler_type form : option string) :
  let loop := export_loop output filt jar decompiler_type
                (cg_nodes_by_label s) (cg_nodes_by_external s)
                (get_objects_dex s) ∅ [] (call_graph s) [] in
  export_apps_to_format filename s output filt jar decompiler_type form =
    (WriteGraph write_gml (os_path_join output "callgraph.gml") ::
       FileWrite [Lit lit_open] :: loop.1,
     match loop.2 with
     | Ok r => Ok {| final_methods := r.1.1; final_method_names := r.1.2;
                     relabelings := r.2 |}
     | Raise e => Raise e
     end).
Proof.
  intros loop. unfold export_apps_to_format, export_with_cg_output.
  rewrite callgraph_format_key, bind_lift_ok.
  change (write_methods !! "gml") with (Some write_gml).
  rewrite !bind_emit. fold loop. unfold mbind, M_bind.
  destruct loop as [t [r|e]]; simpl; by rewrite ?app_nil_r.
Qed.

Lemma export_first_dex_abort {N : Type} `{EqDecision N} (filename : string)
    (s : Session N) (output : string) (filt : option pattern) (jar : bool)
    (decompiler_type form : option string)
    (vm : DEX) (rest : list DEX) (ms1 ms2 : list Method) (m : Method) :
  get_objects_dex s = vm :: rest ->
  get_methods vm = ms1 ++ m :: ms2 ->
  Forall (fun m => cfg_consistent (method2dotaggregated m)) (qualifying filt ms1) ->
  qualifies filt m = true ->
  ~ cfg_consistent (method2dotaggregated m) ->
  exists t0, silent t0 /\
    export_apps_to_format filename s output filt jar decompiler_type form =
      (WriteGraph write_gml (os_path_join output "callgraph.gml") ::
         FileWrite [Lit lit_open] ::
         t0 ++ entries_trace true (qualifying filt ms1)
            ++ [ExtractCfg (signature m)],
       Raise AssertionError).
Proof.
  intros Hdex Hms Hall Hq Hc. rewrite export_run_shape. rewrite Hdex.
  rewrite export_loop_cons.
  destruct (export_dex_stages output filt jar decompiler_type
              (cg_nodes_by_label s) (cg_nodes_by_external s) vm ∅ []
              (call_graph s)) as (t0 & Hs & ->).
  exists t0. split; [done|].
  rewrite Hms. rewrite (dump_methods_abort filt ms1 ms2 m _ Hall Hq Hc).
  unfold mbind, M_bind. simpl. by rewrite ?app_nil_r.
Qed.

Lemma elem_of_qualifying (filt : option pattern) (ms : list Method) (m : Method) :
  m ∈ ms -> qualifies filt m = true -> m ∈ qualifying filt ms.
Proof.
  intros Hin Hq. apply list_elem_of_In, filter_In. split; [|done].
  by apply list_elem_of_In.
Qed.

(** C5. Every entry of the corpus belongs to an exported method whose
    feature map has exactly one entry per node of its control-flow graph:
    the check is made when the method is extracted, before its entry is
    written. A run that returns met the check on every exported method. A
    method that fails it stops the run with [AssertionError] at that point:
    no entry is written for it, none of the following methods is processed
    and nothing else is written. *)
Theorem features_match_node_count {N : Type} `{EqDecision N} (filename : string)
    (s : Session N) (output : string) (filt : option pattern) (jar : bool)
    (decompiler_type form : option string) :
  let run := export_apps_to_format filename s output filt jar
               decompiler_type form in
  (forall d, FileWrite [JsonDumps d] ∈ run.1 ->
     exists vm m, vm ∈ get_objects_dex s /\ m ∈ get_methods vm /\
       qualifies filt m = true /\
       d = cfg_data (method2dotaggregated m) /\
       length (get_node_attributes (method2dotaggregated m)) =
         cfg_number_of_nodes (method2dotaggregated m)) /\
  (forall locals, run.2 = Ok locals ->
     forall vm m, vm ∈ get_objects_dex s -> m ∈ get_methods vm ->
       qualifies filt m = true ->
       length (get_node_attributes (method2dotaggregated m)) =
         cfg_number_of_nodes (method2dotaggregated m)) /\
  (forall vm rest ms1 m ms2,
     get_objects_dex s = vm :: rest ->
     get_methods vm = ms1 ++ m :: ms2 ->
     Forall (fun m => cfg_consistent (method2dotaggregated m))
            (qualifying filt ms1) ->
     qualifies filt m = true ->
     length (get_node_attributes (method2dotaggregated m)) <>
       cfg_number_of_nodes (method2dotaggregated m) ->
     exists t0, silent t0 /\
       run = (WriteGraph write_gml (os_path_join output "callgraph.gml") ::
                FileWrite [Lit lit_open] ::
                t0 ++ entries_trace true (qualifying filt ms1)
                   ++ [ExtractCfg (signature m)],
              Raise AssertionError)).
Proof.
  intros run. unfold run. split; [|split].
  - intros d Hin. rewrite export_run_shape in Hin. simpl in Hin.
    apply elem_of_cons in Hin as [Hin|Hin]; [discriminate|].
    apply elem_of_cons in Hin as [Hin|Hin]; [discriminate|].
    by apply export_loop_entries in Hin.
  - intros locals Hok vm m Hvm Hm Hq. rewrite export_run_shape in Hok.
    simpl in Hok.
    destruct (export_loop _ _ _ _ _ _ _ _ _ _ _).2 as [r|e] eqn:Hloop; [|done].
    pose proof (export_loop_Ok_consistent _ _ _ _ _ _ _ _ _ _ _ _ Hloop vm Hvm)
      as Hall.
    rewrite Forall_forall in Hall. apply Hall. by apply elem_of_qualifying.
  - intros vm rest ms1 m ms2 Hdex Hms Hall Hq Hc.
    by eapply export_first_dex_abort.
Qed.

Lemma features_match_node_count_witness :
  let cfg := {| cfg_nodes := [(0, Some (JArr [JNum 1])); (1, None)];
                cfg_edges := [(0, 1)] |} in
  let m := {| get_class_name := "LA;"; get_name := "a";
              get_descriptor := "()V"; get_instructions := [18; 14];
              method2dotaggregated := cfg |} in
  let s : Session nat :=
    {| get_objects_dex := [{| get_methods := [m] |}];
       call_graph := [(0, [])]; cg_nodes_by_label := ["LA;a()V"];
       cg_nodes_by_external := [false] |} in
  length (get_node_attributes cfg) <> cfg_number_of_nodes cfg /\
  exists t0, silent t0 /\
    export_apps_to_format "app.apk" s "out" None false None None =
      (WriteGraph write_gml "out/callgraph.gml" :: FileWrite [Lit lit_open] ::
         t0 ++ [ExtractCfg "LA;a()V"],
       Raise AssertionError).
Proof.
  intros cfg m s. split; [compute_done|].
  destruct (features_match_node_count "app.apk" s "out" None false None None)
    as (_ & _ & Habort).
  apply (Habort {| get_methods := [m] |} [] [] m []).
  - reflexivity.
  - reflexivity.
  - constructor.
  - reflexivity.
  - compute_done.
Defined.

(** ** A run over one DEX object *)

Lemma export_single_dex {N : Type} `{EqDecision N} (filename : string)
    (s : Session N) (output : string) (filt : option pattern) (jar : bool)
    (decompiler_type form : option string) (vm : DEX) :
  let Q := qualifying filt (get_methods vm) in
  let labels := cg_nodes_by_label s in
  let externals := cg_nodes_by_external s in
  get_objects_dex s = [vm] ->
  Forall (fun m => cfg_consistent (method2dotaggregated m)) Q ->
  length externals = length labels ->
  internals_registered labels externals (map signature Q) ->
  exists t0 w G',
    silent t0 /\
    relabel_call_graph labels externals (map signature Q) (call_graph s) =
      Ok (w, G') /\
    names w = map signature Q ++ external_names labels externals /\
    (forall k, k < length labels ->
       rename_nodes w !! k = node_id labels externals (map signature Q) k /\
       is_Some (node_id labels externals (map signature Q) k)) /\
    export_apps_to_format filename s output filt jar decompiler_type form =
      (WriteGraph write_gml (os_path_join output "callgraph.gml") ::
         FileWrite [Lit lit_open] ::
         t0 ++ entries_trace true Q ++ closing_writes G' (names w),
       Ok {| final_methods := register Q ∅;
             final_method_names := names w;
             relabelings := [{| rename_of := rename_nodes w;
                                graph_of := G' |}] |}).
Proof.
  intros Q labels externals Hdex Hall Hlen Hreg.
  destruct (relabel_call_graph_ok labels externals (map signature Q)
              (call_graph s) Hlen Hreg) as (w & Hrel & Hnames & _ & Hin & _).
  set (G' := relabel_nodes (convert_node_labels_to_integers (call_graph s))
                           (rename_nodes w)) in *.
  destruct (export_dex_ok output filt jar decompiler_type labels externals vm
              ∅ [] (call_graph s) w G' Hall Hrel) as (t0 & Hs & Hrun).
  exists t0, w, G'. split; [done|]. split; [exact Hrel|]. split; [done|].
  split; [done|].
  rewrite export_run_shape, Hdex, export_loop_cons.
  fold labels externals. rewrite Hrun.
  unfold mbind, M_bind. simpl. by rewrite ?app_nil_r.
Qed.

Lemma entries_trace_events (first : bool) (Q : list Method) (e : event) :
  e ∈ entries_trace first Q ->
  (exists n, e = ExtractCfg n) \/ e = FileWrite [Lit lit_sep] \/
  (exists d, e = FileWrite [JsonDumps d]).
Proof.
  revert first. induction Q as [|m Q IH]; intros first Hin;
    [by apply elem_of_nil in Hin|].
  simpl in Hin. apply elem_of_cons in Hin as [->|Hin]; [left; eauto|].
  apply elem_of_app in Hin as [Hin|Hin].
  - destruct first; [by apply elem_of_nil in Hin|].
    apply list_elem_of_singleton in Hin as ->. right; by left.
  - apply elem_of_cons in Hin as [->|Hin]; [right; right; eauto|].
    by eapply IH.
Qed.

Lemma single_dex_trace_cg_edges (t0 : list event) (Q : list Method)
    (G' : DiGraph nat) (names' : list string) (path : string)
    (s_ids t_ids : list nat) :
  silent t0 ->
  FileWrite [Lit lit_cg_edges; PyStr s_ids; Lit ","; PyStr t_ids;
             Lit lit_cg_close] ∈
    WriteGraph write_gml path :: FileWrite [Lit lit_open] ::
      t0 ++ entries_trace true Q ++ closing_writes G' names' ->
  s_ids = edgelist_source G' /\ t_ids = edgelist_target G'.
Proof.
  intros Hs Hin.
  apply elem_of_cons in Hin as [Hin|Hin]; [discriminate|].
  apply elem_of_cons in Hin as [Hin|Hin]; [discriminate|].
  apply elem_of_app in Hin as [Hin|Hin]; [by apply silent_no_entry in Hin|].
  apply elem_of_app in Hin as [Hin|Hin].
  - apply entries_trace_events in Hin as [[n Hn]|[Hn|[d Hn]]]; discriminate.
  - unfold closing_writes in Hin.
    apply elem_of_cons in Hin as [Hin|Hin]; [by injection Hin as -> ->|].
    apply list_elem_of_singleton in Hin. discriminate.
Qed.

Lemma closing_writes_in_trace (pre : list event) (G' : DiGraph nat)
    (names' : list string) :
  FileWrite [Lit lit_cg_edges; PyStr (edgelist_source G'); Lit ",";
             PyStr (edgelist_target G'); Lit lit_cg_close] ∈
    pre ++ closing_writes G' names' /\
  FileWrite [Lit lit_method_names; JsonDumps (JArr (map JStr names'));
             Lit "}"] ∈ pre ++ closing_writes G' names'.
Proof.
  split; apply elem_of_app; right; unfold closing_writes.
  - left.
  - right. left.
Qed.

(** C2 (amended). For every export run over exactly one DEX object in which
    every exported method passes the feature check, the node tables run
    parallel to the nodes of the call graph and every internal node carries
    the name of an exported method, the run returns, the name table is the
    exported methods' names followed by the external labels, its length is
    [L + E], and every id in the two [cg_edges] lists of the document is
    below that length. The ids in the [edges] lists of the [acfg_list]
    entries are node ids of the method's own control-flow graph and are not
    bounded by the length of the name table. *)
Theorem single_dex_ids_within_name_table {N : Type} `{EqDecision N}
    (filename : string) (s : Session N) (output : string)
    (filt : option pattern) (jar : bool) (decompiler_type form : option string)
    (vm : DEX)
    (Hdex : get_objects_dex s = [vm])
    (Hwf : wf (call_graph s))
    (Hpar : tables_parallel (call_graph s) (cg_nodes_by_label s)
              (cg_nodes_by_external s))
    (Hall : Forall (fun m => cfg_consistent (method2dotaggregated m))
              (qualifying filt (get_methods vm)))
    (Hreg : internals_registered (cg_nodes_by_label s) (cg_nodes_by_external s)
              (map signature (qualifying filt (get_methods vm)))) :
  let L := length (qualifying filt (get_methods vm)) in
  let E := length (external_names (cg_nodes_by_label s)
                     (cg_nodes_by_external s)) in
  exists t locals,
    export_apps_to_format filename s output filt jar decompiler_type form =
      (t, Ok locals) /\
    final_method_names locals =
      map signature (qualifying filt (get_methods vm)) ++
      external_names (cg_nodes_by_label s) (cg_nodes_by_external s) /\
    length (final_method_names locals) = L + E /\
    FileWrite [Lit lit_method_names;
               JsonDumps (JArr (map JStr (final_method_names locals)));
               Lit "}"] ∈ t /\
    (exists s_ids t_ids,
        FileWrite [Lit lit_cg_edges; PyStr s_ids; Lit ","; PyStr t_ids;
                   Lit lit_cg_close] ∈ t) /\
    (forall s_ids t_ids,
        FileWrite [Lit lit_cg_edges; PyStr s_ids; Lit ","; PyStr t_ids;
                   Lit lit_cg_close] ∈ t ->
        Forall (fun id => id < length (final_method_names locals))
               (s_ids ++ t_ids)).
Proof.
  intros L E. pose proof Hpar as [Hlab Hext].
  destruct (export_single_dex filename s output filt jar decompiler_type form
              vm Hdex Hall Hext Hreg)
    as (t0 & w & G' & Hs & Hrel & Hnames & _ & Hrun).
  destruct (relabel_call_graph_ids_bounded _ _ _ _ Hwf Hpar Hreg)
    as (w2 & G2 & Hrel2 & _ & Hbound).
  rewrite Hrel in Hrel2. injection Hrel2 as <- <-.
  eexists _, _. split; [exact Hrun|]. simpl.
  split; [done|].
  split; [rewrite Hnames, length_app, length_map; done|].
  split.
  { do 2 right. rewrite app_assoc. apply closing_writes_in_trace. }
  split.
  { eexists _, _. do 2 right. rewrite app_assoc. apply closing_writes_in_trace. }
  intros s_ids t_ids Hin.
  apply single_dex_trace_cg_edges in Hin as [-> ->]; [|done].
  apply Forall_app. unfold edgelist_source, edgelist_target.
  split; apply Forall_forall; intros id Hid;
    apply list_elem_of_In, in_map_iff in Hid as ([a b] & <- & Hab);
    apply list_elem_of_In in Hab; by destruct (Hbound a b Hab).
Qed.

Lemma single_dex_ids_within_name_table_witness :
  let cfg := {| cfg_nodes := [(0, Some (JArr [JNum 1])); (1, Some (JArr [JNum 2]))];
                cfg_edges := [(0, 1)] |} in
  let m := {| get_class_name := "LA;"; get_name := "a";
              get_descriptor := "()V"; get_instructions := [18; 14];
              method2dotaggregated := cfg |} in
  let s : Session string :=
    {| get_objects_dex := [{| get_methods := [m] |}];
       call_graph := [("a", ["x"]); ("x", [])];
       cg_nodes_by_label := ["LA;a()V"; "Ljava/lang/Object;<init>()V"];
       cg_nodes_by_external := [false; true] |} in
  exists t locals,
    export_apps_to_format "app.apk" s "out" None false None None =
      (t, Ok locals) /\
    length (final_method_names locals) = 2.
Proof.
  intros cfg m s.
  destruct (single_dex_ids_within_name_table "app.apk" s "out" None false
              None None {| get_methods := [m] |})
    as (t & locals & Hrun & _ & Hlen & _).
  - reflexivity.
  - compute_done.
  - split; reflexivity.
  - repeat constructor.
  - intros [|[|k]] label Hl He; simpl in *; simplify_eq. left.
  - exists t, locals. split; [exact Hrun|exact Hlen].
Defined.

(** C2 as stated fails on the [acfg_list] part: a method whose control-flow
    graph has the edge 0 -> 1, in an application whose name table has a
    single entry, is exported with the id 1 in its edge list. *)
Lemma acfg_edge_id_beyond_name_table :
  let cfg := {| cfg_nodes := [(0, Some (JArr [JNum 1])); (1, Some (JArr [JNum 2]))];
                cfg_edges := [(0, 1)] |} in
  let m := {| get_class_name := "LA;"; get_name := "a";
              get_descriptor := "()V"; get_instructions := [18; 14];
              method2dotaggregated := cfg |} in
  let s : Session string :=
    {| get_objects_dex := [{| get_methods := [m] |}];
       call_graph := [("a", [])];
       cg_nodes_by_label := ["LA;a()V"];
       cg_nodes_by_external := [false] |} in
  exists t locals,
    export_apps_to_format "app.apk" s "out" None false None None =
      (t, Ok locals) /\
    final_method_names locals = ["LA;a()V"] /\
    FileWrite [JsonDumps
                 (JObj [("edges", JArr [JArr [JNum 0]; JArr [JNum 1]]);
                        ("features", JObj [("0", JArr [JNum 1]);
                                           ("1", JArr [JNum 2])])])] ∈ t /\
    ~ (1 < length (final_method_names locals)).
Proof.
  intros cfg m s. eexists _, _. split; [vm_compute; reflexivity|].
  split; [reflexivity|]. split.
  - do 3 right. left.
  - simpl. lia.
Qed.

Lemma wf_single_edge {N : Type} `{EqDecision N} (a x : N) :
  a <> x -> wf [(a, [x]); (x, [])] /\ wf [(x, []); (a, [x])].
Proof.
  intros Hax. split; split; simpl.
  - apply NoDup_cons.
    split; [by intros ->%list_elem_of_singleton|apply NoDup_singleton].
  - repeat constructor. by intros ?%elem_of_nil.
  - apply NoDup_cons.
    split; [by intros ->%list_elem_of_singleton|apply NoDup_singleton].
  - repeat constructor. by intros ?%elem_of_nil.
Qed.

(** C3 (amended). An application that is delivered as one DEX object, with
    exactly one exported method [A] whose control-flow graph passes the
    feature check, and whose call graph has the single edge from [A]'s node
    to one external node labelled [X] (the two nodes in either order), is
    exported with the name table [[A; X]] and the call-graph edge lists
    [[0]] and [[1]]: the run returns. *)
Theorem scenario_local_calls_external {N : Type} `{EqDecision N}
    (filename output : string) (filt : option pattern) (jar : bool)
    (decompiler_type form : option string)
    (ms : list Method) (A : Method) (X : string) (a x : N) (a_first : bool)
    (HA : qualifying filt ms = [A])
    (Hcfg : cfg_consistent (method2dotaggregated A))
    (Hax : a <> x) :
  let s :=
    {| get_objects_dex := [{| get_methods := ms |}];
       call_graph := if a_first then [(a, [x]); (x, [])]
                     else [(x, []); (a, [x])];
       cg_nodes_by_label := if a_first then [signature A; X]
                            else [X; signature A];
       cg_nodes_by_external := if a_first then [false; true]
                               else [true; false] |} in
  exists t locals,
    export_apps_to_format filename s output filt jar decompiler_type form =
      (t, Ok locals) /\
    final_method_names locals = [signature A; X] /\
    FileWrite [Lit lit_cg_edges; PyStr [0]; Lit ","; PyStr [1];
               Lit lit_cg_close] ∈ t /\
    FileWrite [Lit lit_method_names;
               JsonDumps (JArr [JStr (signature A); JStr X]); Lit "}"] ∈ t.
Proof.
  intros s.
  assert (wf (call_graph s)) as Hwf.
  { unfold s; destruct a_first; simpl; by apply wf_single_edge. }
  assert (tables_parallel (call_graph s) (cg_nodes_by_label s)
            (cg_nodes_by_external s)) as Hpar.
  { unfold s; destruct a_first; split; reflexivity. }
  assert (internals_registered (cg_nodes_by_label s) (cg_nodes_by_external s)
            [signature A]) as Hreg.
  { unfold s; destruct a_first; intros [|[|k]] label Hl He; simpl in *;
      simplify_eq; left. }
  assert (internals_distinct (cg_nodes_by_label s) (cg_nodes_by_external s))
    as Hdist.
  { unfold s; destruct a_first;
      intros [|[|k]] [|[|k']] label Hl Hl' He He'; simpl in *; simplify_eq; done. }
  destruct (export_single_dex filename s output filt jar decompiler_type form
              {| get_methods := ms |})
    as (t0 & w & G' & Hs & Hrel & Hnames & _ & Hrun).
  { reflexivity. }
  { simpl. rewrite HA. by repeat constructor. }
  { by destruct Hpar. }
  { simpl. by rewrite HA. }
  simpl in Hrel, Hnames, Hrun. rewrite HA in Hrel, Hnames, Hrun. simpl in *.
  destruct (relabel_call_graph_in_place (call_graph s) (cg_nodes_by_label s)
              (cg_nodes_by_external s) [signature A] Hwf Hpar Hreg Hdist)
    as (w2 & G2 & Hrel2 & _ & _ & Hedges & _).
  simpl in Hrel2. rewrite Hrel in Hrel2. injection Hrel2 as <- <-.
  assert (edges G' = [(0, 1)]) as HG.
  { rewrite Hedges. unfold s, registry_id, node_id. destruct a_first; simpl;
      repeat (rewrite ?decide_True, ?decide_False by done; simpl); done. }
  assert (names w = [signature A; X]) as Hw.
  { rewrite Hnames. unfold s. by destruct a_first. }
  rewrite Hw in Hrun.
  unfold closing_writes, edgelist_source, edgelist_target in Hrun.
  rewrite HG in Hrun. simpl in Hrun.
  eexists _, _. split; [exact Hrun|]. simpl. split; [done|].
  split; do 2 right; apply elem_of_app; right.
  - do 2 right. left.
  - do 3 right. left.
Qed.

Lemma scenario_local_calls_external_witness :
  let cfg := {| cfg_nodes := [(0, Some (JArr [JNum 1]))]; cfg_edges := [] |} in
  let A := {| get_class_name := "LA;"; get_name := "a";
              get_descriptor := "()V"; get_instructions := [110; 14];
              method2dotaggregated := cfg |} in
  let s : Session string :=
    {| get_objects_dex := [{| get_methods := [A] |}];
       call_graph := [("a", ["x"]); ("x", [])];
       cg_nodes_by_label := ["LA;a()V"; "X"];
       cg_nodes_by_external := [false; true] |} in
  exists t locals,
    export_apps_to_format "app.apk" s "out" None false None None =
      (t, Ok locals) /\
    final_method_names locals = ["LA;a()V"; "X"] /\
    FileWrite [Lit lit_cg_edges; PyStr [0]; Lit ","; PyStr [1];
               Lit lit_cg_close] ∈ t.
Proof.
  intros cfg A s.
  destruct (scenario_local_calls_external "app.apk" "out" None false None None
              [A] A "X" "a" "x" true)
    as (t & locals & Hrun & Hnames & Hedges & _).
  - reflexivity.
  - reflexivity.
  - discriminate.
  - exists t, locals. split; [exact Hrun|]. split; [exact Hnames|exact Hedges].
Defined.

(** C3 as stated does not hold for every application with one local method
    [A] that calls the external [X]. Delivered as two DEX objects, the
    second without methods, the run returns with the name table
    [[A; X; X]] and writes the closing part twice; and when the
    control-flow graph of [A] fails the feature check the run stops with
    [AssertionError] before any name table is written. *)
Lemma scenario_needs_one_dex_and_passing_check :
  let cfg := {| cfg_nodes := [(0, Some (JArr [JNum 1]))]; cfg_edges := [] |} in
  let A := {| get_class_name := "LA;"; get_name := "a";
              get_descriptor := "()V"; get_instructions := [110; 14];
              method2dotaggregated := cfg |} in
  let bad := {| cfg_nodes := [(0, Some (JArr [JNum 1])); (1, None)];
                cfg_edges := [(0, 1)] |} in
  let A' := {| get_class_name := "LA;"; get_name := "a";
               get_descriptor := "()V"; get_instructions := [110; 14];
               method2dotaggregated := bad |} in
  let session dexes : Session string :=
    {| get_objects_dex := dexes;
       call_graph := [("a", ["x"]); ("x", [])];
       cg_nodes_by_label := ["LA;a()V"; "X"];
       cg_nodes_by_external := [false; true] |} in
  let run2 := export_apps_to_format "app.apk"
                (session [{| get_methods := [A] |}; {| get_methods := [] |}])
                "out" None false None None in
  let run1 := export_apps_to_format "app.apk"
                (session [{| get_methods := [A'] |}])
                "out" None false None None in
  (exists locals,
      run2.2 = Ok locals /\
      final_method_names locals = ["LA;a()V"; "X"; "X"] /\
      FileWrite [Lit lit_method_names;
                 JsonDumps (JArr [JStr "LA;a()V"; JStr "X"; JStr "X"]);
                 Lit "}"] ∈ run2.1) /\
  run1 = ([WriteGraph write_gml "out/callgraph.gml"; FileWrite [Lit lit_open];
           ExtractCfg "LA;a()V"],
          Raise AssertionError).
Proof.
  intros cfg A bad A' session run2 run1. split.
  - eexists. split; [vm_compute; reflexivity|]. split; [reflexivity|].
    vm_compute. repeat (first [left|right]).
  - vm_compute. reflexivity.
Qed.

(** ** Well-formed JSON token sequences *)

Lemma json_ind (P : json -> Prop) :
  (forall n, P (JNum n)) ->
  (forall s, P (JStr s)) ->
  (forall l, Forall P l -> P (JArr l)) ->
  (forall l, Forall (fun kv => P (snd kv)) l -> P (JObj l)) ->
  forall v, P v.
Proof.
  intros Hn Hs Ha Ho. fix IH 1. intros [n|s|l|l].
  - apply Hn.
  - apply Hs.
  - apply Ha. induction l as [|x l IHl]; constructor; [apply IH|apply IHl].
  - apply Ho. induction l as [|[k x] l IHl]; constructor; [apply IH|apply IHl].
Qed.

Lemma sep_join_cons (x : list token) (l : list (list token)) :
  l <> [] -> sep_join (x :: l) = x ++ TComma :: sep_join l.
Proof. by destruct l. Qed.

Lemma sep_join_elements (vs : list (list token)) :
  vs <> [] -> Forall json_value vs -> json_elements (sep_join vs).
Proof.
  induction vs as [|v vs IH]; intros Hne Hall; [done|].
  apply Forall_cons in Hall as [Hv Hall].
  destruct vs as [|v' vs]; [by apply JE_one|].
  rewrite sep_join_cons by done. apply JE_more; [done|]. by apply IH.
Qed.

Lemma sep_join_members (kvs : list (string * list token)) :
  kvs <> [] -> Forall (fun kv => json_value (snd kv)) kvs ->
  json_members
    (sep_join (map (fun kv => TStr (fst kv) :: TColon :: snd kv) kvs)).
Proof.
  induction kvs as [|[k v] kvs IH]; intros Hne Hall; [done|].
  apply Forall_cons in Hall as [Hv Hall].
  destruct kvs as [|kv' kvs]; [by apply JM_one|].
  cbn [map]. rewrite sep_join_cons by done. simpl.
  apply (JM_more k v); [done|]. by apply IH.
Qed.

(** [json.dumps] always writes a well-formed value. *)
Lemma dumps_valid (v : json) : json_value (dumps v).
Proof.
  induction v as [n|s|l IH|l IH] using json_ind; simpl.
  - constructor.
  - constructor.
  - destruct l as [|x l]; [apply JV_arr_nil|].
    apply JV_arr, sep_join_elements; [done|].
    apply Forall_forall. intros ts Hts.
    apply list_elem_of_In, in_map_iff in Hts as (y & <- & Hy).
    rewrite Forall_forall in IH. by apply IH, list_elem_of_In.
  - destruct l as [|x l]; [apply JV_obj_nil|].
    apply JV_obj.
    rewrite <- (map_map (fun kv => (fst kv, dumps (snd kv)))
                        (fun kv => TStr (fst kv) :: TColon :: snd kv)).
    apply sep_join_members; [done|].
    apply Forall_forall. intros kv Hkv.
    apply list_elem_of_In, in_map_iff in Hkv as (y & <- & Hy).
    rewrite Forall_forall in IH. simpl. by apply IH, list_elem_of_In.
Qed.

Lemma depth_app (a b : list token) : depth (a ++ b) = (depth a + depth b)%Z.
Proof. induction a as [|t a IH]; simpl; [done|]. rewrite IH. lia. Qed.

Lemma balanced_nil : balanced [].
Proof.
  split; [done|]. intros p q Hpq. symmetry in Hpq.
  apply app_eq_nil in Hpq as [-> _]. done.
Qed.

Lemma balanced_atom (t : token) : delta t = 0%Z -> balanced [t].
Proof.
  intros Ht. split; [simpl; lia|]. intros [|t' p] q Hpq; [done|].
  injection Hpq as <- Hpq. symmetry in Hpq.
  apply app_eq_nil in Hpq as [-> _]. simpl. lia.
Qed.

Lemma balanced_app (a b : list token) :
  balanced a -> balanced b -> balanced (a ++ b).
Proof.
  intros [Ha Hpa] [Hb Hpb]. split; [rewrite depth_app; lia|].
  intros p q Hpq. apply app_eq_app in Hpq as [l [[-> ->]|[-> ->]]].
  - by apply (Hpa p l).
  - rewrite depth_app. pose proof (Hpb l q eq_refl). lia.
Qed.

(** A bracketed balanced sequence: only the whole of it returns to depth 0. *)
Lemma wrapped_prefix (o c : token) (a p q : list token) :
  delta o = 1%Z -> delta c = (-1)%Z -> balanced a ->
  o :: a ++ [c] = p ++ q -> p <> [] -> q <> [] -> (1 <= depth p)%Z.
Proof.
  intros Ho Hc [Ha Hpa] Hpq Hp Hq.
  destruct p as [|t p]; [done|]. injection Hpq as <- Hpq. simpl. rewrite Ho.
  apply app_eq_app in Hpq as [l [[-> ->]|[-> Hl]]].
  - pose proof (Hpa p l eq_refl). lia.
  - destruct l as [|t l].
    + rewrite app_nil_r. lia.
    + injection Hl as <- Hl. symmetry in Hl.
      apply app_eq_nil in Hl as [_ ->]. done.
Qed.

Lemma balanced_wrap (o c : token) (a : list token) :
  delta o = 1%Z -> delta c = (-1)%Z -> balanced a -> balanced (o :: a ++ [c]).
Proof.
  intros Ho Hc Ha. split.
  - simpl. rewrite depth_app. destruct Ha as [-> _]. simpl. lia.
  - intros p q Hpq.
    destruct p as [|t p]; [done|]. destruct q as [|t' q].
    + rewrite app_nil_r in Hpq. rewrite <- Hpq. simpl. rewrite depth_app.
      destruct Ha as [-> _]. simpl. lia.
    + pose proof (wrapped_prefix o c a (t :: p) (t' :: q) Ho Hc Ha Hpq
                    ltac:(done) ltac:(done)). lia.
Qed.

Lemma grammar_balanced :
  (forall ts, json_value ts -> balanced ts) /\
  (forall ts, json_elements ts -> balanced ts) /\
  (forall ts, json_members ts -> balanced ts).
Proof.
  apply json_grammar_ind.
  - intros n. by apply balanced_atom.
  - intros s. by apply balanced_atom.
  - apply (balanced_wrap TLBracket TRBracket []); [done..|apply balanced_nil].
  - intros es _ Hes. by apply balanced_wrap.
  - apply (balanced_wrap TLBrace TRBrace []); [done..|apply balanced_nil].
  - intros ms _ Hms. by apply balanced_wrap.
  - done.
  - intros v es _ Hv _ Hes. apply balanced_app; [done|].
    apply (balanced_app [TComma]); [by apply balanced_atom|done].
  - intros k v _ Hv. apply (balanced_app [TStr k]); [by apply balanced_atom|].
    apply (balanced_app [TColon]); [by apply balanced_atom|done].
  - intros k v ms _ Hv _ Hms.
    apply (balanced_app [TStr k]); [by apply balanced_atom|].
    apply (balanced_app [TColon]); [by apply balanced_atom|].
    apply balanced_app; [done|].
    apply (balanced_app [TComma]); [by apply balanced_atom|done].
Qed.

Lemma json_value_shape (ts : list token) :
  json_value ts ->
  (exists t, ts = [t] /\ delta t = 0%Z) \/
  (exists o c a, ts = o :: a ++ [c] /\ delta o = 1%Z /\ delta c = (-1)%Z /\
                 balanced a).
Proof.
  destruct grammar_balanced as (_ & Hes & Hms).
  intros [n|s| |es He| |ms Hm].
  - left. by eexists.
  - left. by eexists.
  - right. exists TLBracket, TRBracket, []. repeat split; apply balanced_nil.
  - right. exists TLBracket, TRBracket, es. repeat split; try done; by apply Hes.
  - right. exists TLBrace, TRBrace, []. repeat split; apply balanced_nil.
  - right. exists TLBrace, TRBrace, ms. repeat split; try done; by apply Hms.
Qed.

(** Nothing follows a JSON value inside a JSON value that starts with it. *)
Lemma json_value_prefix_whole (p q : list token) :
  json_value p -> json_value (p ++ q) -> q = [].
Proof.
  intros Hp Hpq.
  destruct grammar_balanced as (Hv & _ & _).
  destruct (Hv p Hp) as [Hdepth _].
  assert (p <> []) as Hne by (by destruct Hp).
  destruct q as [|t q]; [done|]. exfalso.
  apply json_value_shape in Hpq as [(t' & Ht & _)|(o & c & a & Hw & Ho & Hc & Ha)].
  - destruct p as [|t0 [|t1 p]]; simplify_eq.
  - pose proof (wrapped_prefix o c a p (t :: q) Ho Hc Ha (eq_sym Hw) Hne
                  ltac:(done)).
    lia.
Qed.

Lemma json_value_depth (ts : list token) : json_value ts -> depth ts = 0%Z.
Proof. intros Hv. by destruct (proj1 grammar_balanced ts Hv). Qed.

(** ** The text of the corpus file *)

Lemma written_app (t1 t2 : list event) :
  written (t1 ++ t2) = written t1 ++ written t2.
Proof. unfold written. by rewrite flat_map_app. Qed.

Lemma text_tokens_app (a b : list piece) (ta tb : list token) :
  text_tokens a = Some ta -> text_tokens b = Some tb ->
  text_tokens (a ++ b) = Some (ta ++ tb).
Proof.
  revert ta. induction a as [|p a IH]; intros ta Ha Hb; simpl in *.
  - by injection Ha as <-.
  - destruct (piece_tokens p) as [tp|]; [|done].
    destruct (text_tokens a) as [ta'|]; [|done].
    injection Ha as <-. rewrite (IH ta' eq_refl Hb). by rewrite app_assoc.
Qed.

Lemma text_tokens_app_inv (a b : list piece) (ts : list token) :
  text_tokens (a ++ b) = Some ts ->
  exists ta tb, text_tokens a = Some ta /\ text_tokens b = Some tb /\
                ts = ta ++ tb.
Proof.
  revert ts. induction a as [|p a IH]; intros ts Hab; simpl in *.
  - by exists [], ts.
  - destruct (piece_tokens p) as [tp|]; [|done].
    destruct (text_tokens (a ++ b)) as [tab|] eqn:Htab; [|done].
    injection Hab as <-.
    destruct (IH tab eq_refl) as (ta & tb & -> & -> & ->).
    exists (tp ++ ta), tb. by rewrite app_assoc.
Qed.

(** The entries of one pass: the values joined by commas, after a comma
    when the pass has already written an entry. *)
Lemma entries_tokens (first : bool) (Q : list Method) :
  text_tokens (written (entries_trace first Q)) =
    Some (match Q with
          | [] => []
          | _ => (if first then [] else [TComma]) ++
                 sep_join (map (fun m => dumps (cfg_data (method2dotaggregated m))) Q)
          end).
Proof.
  revert first. induction Q as [|m Q IH]; intros first; [done|].
  cbn [entries_trace]. change (written (ExtractCfg ?n :: ?t)) with (written t).
  rewrite written_app.
  change (written (FileWrite ?x :: ?t)) with (x ++ written t).
  erewrite text_tokens_app; [reflexivity| |].
  - by destruct first.
  - cbn [app text_tokens piece_tokens]. rewrite IH.
    destruct Q as [|m' Q]; [by rewrite app_nil_r|].
    cbn [map].
    by rewrite (sep_join_cons (dumps (cfg_data (method2dotaggregated m)))).
Qed.

Lemma closing_tokens (CG2 : DiGraph nat) (method_names : list string) :
  text_tokens (written (closing_writes CG2 method_names)) =
    Some ([TRBracket; TComma; TStr "cg_edges"; TColon; TLBracket] ++
          dumps (JArr (map (fun n => JNum (Z.of_nat n)) (edgelist_source CG2))) ++
          [TComma] ++
          dumps (JArr (map (fun n => JNum (Z.of_nat n)) (edgelist_target CG2))) ++
          [TRBracket; TComma; TStr "method_names"; TColon] ++
          dumps (JArr (map JStr method_names)) ++ [TRBrace]).
Proof.
  unfold closing_writes, written. cbn [flat_map app].
  cbn [text_tokens piece_tokens].
  change (lex lit_cg_edges)
    with (Some [TRBracket; TComma; TStr "cg_edges"; TColon; TLBracket]).
  change (lex ",") with (Some [TComma]).
  change (lex lit_cg_close) with (Some [TRBracket; TComma]).
  change (lex lit_method_names) with (Some [TStr "method_names"; TColon]).
  change (lex "}") with (Some [TRBrace]).
  cbv iota. f_equal; by rewrite <- ?app_assoc.
Qed.

(** A single pass writes exactly the corpus document. *)
Lemma single_pass_tokens (Q : list Method) (CG2 : DiGraph nat)
    (method_names : list string) :
  text_tokens (Lit lit_open :: written (entries_trace true Q)
                 ++ written (closing_writes CG2 method_names)) =
    Some (dumps (corpus_document Q CG2 method_names)).
Proof.
  cbn [text_tokens piece_tokens].
  change (lex lit_open) with (Some [TLBrace; TStr "acfg_list"; TColon; TLBracket]).
  erewrite text_tokens_app; [|apply entries_tokens|apply closing_tokens].
  f_equal. unfold corpus_document.
  cbn [dumps map fst snd sep_join]. rewrite !map_map.
  destruct Q as [|m Q]; cbn [app map];
    repeat (rewrite <- app_assoc; cbn [app]); reflexivity.
Qed.

Lemma bind_eq_Ok_inv {A B : Type} (m : M A) (k : A -> M B) (t : list event)
    (b : B) :
  (m ≫= k) = (t, Ok b) ->
  exists t1 a t2, m = (t1, Ok a) /\ k a = (t2, Ok b) /\ t = t1 ++ t2.
Proof.
  destruct m as [t1 [a|e]]; unfold mbind, M_bind; [|done].
  destruct (k a) as [t2 r] eqn:Hk. intros [= <- ->]. by exists t1, a, t2.
Qed.

(** A loop that returns consists of completed passes, one per DEX object. *)
Lemma export_loop_passes (output : string) (filt : option pattern) (jar : bool)
    (decompiler_type : option string) (labels : list string)
    (externals : list bool) (dexes : list DEX) :
  forall {N : Type} `{EqDecision N} (methods0 : gmap string nat)
         (names0 : list string) (CG : DiGraph N) (done : list relabeling) t r,
  export_loop output filt jar decompiler_type labels externals dexes
    methods0 names0 CG done = (t, Ok r) ->
  completed_passes filt dexes t /\
  length r.2 = length done + length dexes.
Proof.
  induction dexes as [|vm dexes IH]; intros N ? methods0 names0 CG done t r Hrun.
  - rewrite export_loop_nil in Hrun. injection Hrun as <- <-.
    split; [constructor|simpl; lia].
  - rewrite export_loop_cons in Hrun.
    apply bind_eq_Ok_inv in Hrun as (t1 & r1 & t2 & Hdex & Hrest & ->).
    apply export_dex_Ok_inv in Hdex as (t0 & w & G' & Hs & _ & _ & -> & ->).
    apply IH in Hrest as [Hpasses Hlen]. split.
    + by constructor.
    + rewrite Hlen, length_app. simpl. lia.
Qed.

Lemma one_pass_text (t0 : list event) (Q : list Method) (CG2 : DiGraph nat)
    (method_names : list string) :
  silent t0 ->
  text_tokens (Lit lit_open ::
                 written (t0 ++ entries_trace true Q
                             ++ closing_writes CG2 method_names)) =
    Some (dumps (corpus_document Q CG2 method_names)).
Proof.
  intros Hs. rewrite !written_app, (silent_written t0 Hs). simpl app.
  apply single_pass_tokens.
Qed.

Lemma pass_tokens_nonempty (t0 t : list event) (Q : list Method)
    (CG2 : DiGraph nat) (method_names : list string) (ts : list token) :
  text_tokens (written ((t0 ++ entries_trace true Q
                            ++ closing_writes CG2 method_names) ++ t)) =
    Some ts ->
  ts <> [].
Proof.
  rewrite !written_app. intros Hts.
  apply text_tokens_app_inv in Hts as (ta & tb & Ha & _ & ->).
  apply text_tokens_app_inv in Ha as (tz & tc & _ & Hc & ->).
  apply text_tokens_app_inv in Hc as (td & te & _ & He & ->).
  rewrite closing_tokens in He. injection He as <-.
  intros Hnil. apply app_eq_nil in Hnil as [Hnil _].
  apply app_eq_nil in Hnil as [_ Hnil].
  apply app_eq_nil in Hnil as [_ Hnil]. discriminate.
Qed.

Lemma opening_fragment_invalid : ~ is_json_document [Lit lit_open].
Proof.
  intros (ts & Hts & Hv). vm_compute in Hts. injection Hts as <-.
  apply json_value_depth in Hv. vm_compute in Hv. discriminate.
Qed.

(** The text of completed passes is one JSON document exactly when there
    is one pass. *)
Lemma passes_document (filt : option pattern) (dexes : list DEX)
    (t : list event) :
  completed_passes filt dexes t ->
  is_json_document (Lit lit_open :: written t) <-> length dexes = 1.
Proof.
  intros Hpasses. split.
  - intros (ts & Hts & Hv).
    destruct Hpasses as [|vm dexes t0 G names t Hs Hrest].
    + exfalso. apply opening_fragment_invalid. by exists ts.
    + destruct Hrest as [|vm' dexes' t0' G2 names2 t' Hs' Hrest]; [done|].
      exfalso. rewrite written_app in Hts.
      change (Lit lit_open :: ?a ++ ?b) with ((Lit lit_open :: a) ++ b) in Hts.
      apply text_tokens_app_inv in Hts as (ta & tb & Ha & Hb & ->).
      rewrite one_pass_text in Ha by done. injection Ha as <-.
      apply pass_tokens_nonempty in Hb.
      apply Hb.
      apply (json_value_prefix_whole
               (dumps (corpus_document (qualifying filt (get_methods vm))
                         G names))); [apply dumps_valid|exact Hv].
  - intros Hlen. destruct Hpasses as [|vm dexes t0 G names t Hs Hrest]; [done|].
    destruct Hrest as [|vm' dexes' t0' G2 names2 t' Hs' Hrest]; [|done].
    rewrite app_nil_r.
    eexists. split; [by apply one_pass_text|apply dumps_valid].
Qed.

(** C9 (amended). The closing of the document is written by every pass of
    the loop over the DEX objects, and every pass starts its entries
    without a leading comma: the trace of a run that returns is the
    call-graph file, the opening fragment and one completed pass per DEX
    object. So, for a run that returns, the file is one well-formed JSON
    document exactly when there is exactly one DEX object; and with no DEX
    object the run returns having written only the opening fragment, which
    is not valid JSON. *)
Theorem terminator_once_per_dex {N : Type} `{EqDecision N} (filename : string)
    (s : Session N) (output : string) (filt : option pattern) (jar : bool)
    (decompiler_type form : option string) :
  let run := export_apps_to_format filename s output filt jar
               decompiler_type form in
  (get_objects_dex s = [] ->
     (exists locals, run.2 = Ok locals) /\
     written run.1 = [Lit lit_open] /\
     ~ is_json_document (written run.1)) /\
  (forall locals, run.2 = Ok locals ->
     exists t,
       run.1 = WriteGraph write_gml (os_path_join output "callgraph.gml") ::
                 FileWrite [Lit lit_open] :: t /\
       completed_passes filt (get_objects_dex s) t /\
       length (relabelings locals) = length (get_objects_dex s) /\
       (is_json_document (written run.1) <-> length (get_objects_dex s) = 1)).
Proof.
  intros run. unfold run. rewrite export_run_shape. simpl. split.
  - intros ->. rewrite export_loop_nil. simpl.
    split; [by eexists|]. split; [done|]. apply opening_fragment_invalid.
  - intros locals Hok.
    destruct (export_loop _ _ _ _ _ _ _ _ _ _ _) as [t [r|e]] eqn:Hloop;
      [|done].
    simpl in *. injection Hok as <-.
    apply export_loop_passes in Hloop as [Hpasses Hlen].
    exists t. split; [done|]. split; [done|]. split; [done|].
    by apply (passes_document filt).
Qed.

Lemma terminator_once_per_dex_witness :
  let cfg := {| cfg_nodes := [(0, Some (JArr [JNum 1]))]; cfg_edges := [] |} in
  let A := {| get_class_name := "LA;"; get_name := "a";
              get_descriptor := "()V"; get_instructions := [14];
              method2dotaggregated := cfg |} in
  let s : Session string :=
    {| get_objects_dex := [{| get_methods := [A] |}; {| get_methods := [] |}];
       call_graph := [("a", [])];
       cg_nodes_by_label := ["LA;a()V"];
       cg_nodes_by_external := [false] |} in
  let run := export_apps_to_format "app.apk" s "out" None false None None in
  (exists locals, run.2 = Ok locals) /\ ~ is_json_document (written run.1).
Proof.
  intros cfg A s run.
  destruct (terminator_once_per_dex "app.apk" s "out" None false None None)
    as [_ Hret].
  assert (exists locals, run.2 = Ok locals) as [locals Hok]
    by (eexists; vm_compute; reflexivity).
  split; [by exists locals|].
  destruct (Hret locals Hok) as (t & _ & _ & _ & Hiff).
  intros Hdoc. apply Hiff in Hdoc. discriminate.
Defined.

(** C9 as stated does not hold without the condition that the run returns.
    With one DEX object and a method that fails the feature check the run
    stops after the opening fragment, and the file is no JSON document;
    with two DEX objects, when the first pass completes and the second
    stops at its first method, the file holds exactly the document of the
    first pass, which is well-formed. *)
Lemma document_count_needs_returning_run :
  let cfg := {| cfg_nodes := [(0, Some (JArr [JNum 1]))]; cfg_edges := [] |} in
  let bad := {| cfg_nodes := [(0, Some (JArr [JNum 1])); (1, None)];
                cfg_edges := [(0, 1)] |} in
  let A := {| get_class_name := "LA;"; get_name := "a";
              get_descriptor := "()V"; get_instructions := [14];
              method2dotaggregated := cfg |} in
  let B := {| get_class_name := "LB;"; get_name := "b";
              get_descriptor := "()V"; get_instructions := [14];
              method2dotaggregated := bad |} in
  let session dexes : Session string :=
    {| get_objects_dex := dexes;
       call_graph := [("a", [])];
       cg_nodes_by_label := ["LA;a()V"];
       cg_nodes_by_external := [false] |} in
  let one := session [{| get_methods := [B] |}] in
  let two := session [{| get_methods := [A] |}; {| get_methods := [B] |}] in
  let run1 := export_apps_to_format "app.apk" one "out" None false None None in
  let run2 := export_apps_to_format "app.apk" two "out" None false None None in
  (length (get_objects_dex one) = 1 /\ run1.2 = Raise AssertionError /\
   ~ is_json_document (written run1.1)) /\
  (length (get_objects_dex two) = 2 /\ run2.2 = Raise AssertionError /\
   is_json_document (written run2.1)).
Proof.
  intros cfg bad A B session one two run1 run2. split.
  - split; [reflexivity|]. split; [reflexivity|].
    assert (written run1.1 = [Lit lit_open]) as -> by reflexivity.
    apply opening_fragment_invalid.
  - split; [reflexivity|]. split; [reflexivity|].
    exists (dumps (corpus_document [A] [(0, [])] ["LA;a()V"])).
    split; [vm_compute; reflexivity|apply dumps_valid].
Qed.

(** ** Runs over several DEX objects, and runs in which nothing qualifies *)

(** C1 (divergence). The relabeling walk runs once per DEX object, inside
    the loop. With two DEX objects holding [A] and [B] and a call graph over
    [A], [B] and the external [X], the first pass knows only [A]: the lookup
    of [B] raises [ValueError] and no name table is written. When the call
    graph holds no method of the second DEX object, the run returns, but the
    second pass appends the external label again: the name table is
    [[A; X; B; X]], [X] has been given the ids 1 and 3, and [B], registered
    with id 1, sits at index 2. *)
Theorem two_dex_objects_break_registry :
  let cfg := {| cfg_nodes := [(0, Some (JArr [JNum 1]))]; cfg_edges := [] |} in
  let A := {| get_class_name := "LA;"; get_name := "a";
              get_descriptor := "()V"; get_instructions := [110; 14];
              method2dotaggregated := cfg |} in
  let B := {| get_class_name := "LB;"; get_name := "b";
              get_descriptor := "()V"; get_instructions := [14];
              method2dotaggregated := cfg |} in
  let dexes := [{| get_methods := [A] |}; {| get_methods := [B] |}] in
  let s : Session string :=
    {| get_objects_dex := dexes;
       call_graph := [("a", ["b"; "x"]); ("b", []); ("x", [])];
       cg_nodes_by_label := ["LA;a()V"; "LB;b()V"; "X"];
       cg_nodes_by_external := [false; false; true] |} in
  let s' : Session string :=
    {| get_objects_dex := dexes;
       call_graph := [("a", ["x"]); ("x", [])];
       cg_nodes_by_label := ["LA;a()V"; "X"];
       cg_nodes_by_external := [false; true] |} in
  export_apps_to_format "app.apk" s "out" None false None None =
    ([WriteGraph write_gml "out/callgraph.gml"; FileWrite [Lit lit_open];
      ExtractCfg "LA;a()V"; FileWrite [JsonDumps (cfg_data cfg)]],
     Raise ValueError) /\
  exists t locals r1 r2,
    export_apps_to_format "app.apk" s' "out" None false None None =
      (t, Ok locals) /\
    final_method_names locals = ["LA;a()V"; "X"; "LB;b()V"; "X"] /\
    final_methods locals !! "LB;b()V" = Some 1 /\
    relabelings locals = [r1; r2] /\
    rename_of r1 !! 1 = Some 1 /\ rename_of r2 !! 1 = Some 3.
Proof.
  intros cfg A B dexes s s'. split; [vm_compute; reflexivity|].
  eexists _, _, _, _. split; [vm_compute; reflexivity|].
  repeat split; vm_compute; reflexivity.
Qed.

(** C6 (divergence). One DEX object with a method [A], a filter that matches
    nothing, and a call graph with the internal node of [A]: no method
    qualifies, so the name table is empty when the walk looks [A] up; the
    lookup raises [ValueError] and the file is left with the opening
    fragment only, which is not valid JSON. *)
Theorem empty_filter_result_aborts :
  let cfg := {| cfg_nodes := [(0, Some (JArr [JNum 1]))]; cfg_edges := [] |} in
  let A := {| get_class_name := "LA;"; get_name := "a";
              get_descriptor := "()V"; get_instructions := [14];
              method2dotaggregated := cfg |} in
  let s : Session string :=
    {| get_objects_dex := [{| get_methods := [A] |}];
       call_graph := [("a", [])];
       cg_nodes_by_label := ["LA;a()V"];
       cg_nodes_by_external := [false] |} in
  let run := export_apps_to_format "app.apk" s "out"
               (Some (fun _ => false)) false None None in
  qualifying (Some (fun _ => false)) [A] = [] /\
  run = ([WriteGraph write_gml "out/callgraph.gml"; FileWrite [Lit lit_open]],
         Raise ValueError) /\
  written run.1 = [Lit lit_open] /\
  ~ is_json_document (written run.1).
Proof.
  intros cfg A s run. split; [reflexivity|].
  assert (run = ([WriteGraph write_gml "out/callgraph.gml";
                  FileWrite [Lit lit_open]], Raise ValueError)) as ->
    by (vm_compute; reflexivity).
  split; [done|]. split; [done|]. apply opening_fragment_invalid.
Qed.

(** ** The registry of a run over one DEX object *)

Lemma register_lookup (Q : list Method) (methods0 : gmap string nat) :
  NoDup (map signature Q) ->
  (forall m, m ∈ Q -> methods0 !! signature m = None) ->
  (forall k m, Q !! k = Some m ->
     register Q methods0 !! signature m = Some (size methods0 + k)) /\
  (forall x, x ∉ map signature Q -> register Q methods0 !! x = methods0 !! x).
Proof.
  revert methods0. induction Q as [|m Q IH]; intros methods0 Hnd Hfresh.
  - split; [done|]. intros x _. done.
  - cbn [map] in Hnd. apply NoDup_cons in Hnd as [Hm Hnd].
    change (register (m :: Q) methods0)
      with (register Q (<[signature m := size methods0]> methods0)).
    destruct (IH (<[signature m := size methods0]> methods0) Hnd) as [Hin Hout].
    { intros m' Hm'. rewrite lookup_insert_ne.
      - apply Hfresh. by right.
      - intros Heq. apply Hm. rewrite Heq, map_fmap.
        by apply list_elem_of_fmap_2. }
    assert (size (<[signature m := size methods0]> methods0) = S (size methods0))
      as Hsize by (apply map_size_insert_None, Hfresh; left).
    split.
    + intros [|k] m' Hk; simpl in Hk.
      * injection Hk as <-. rewrite Hout by done.
        rewrite lookup_insert_eq. f_equal. lia.
      * rewrite (Hin k m' Hk), Hsize. f_equal. lia.
    + intros x Hx. cbn [map] in Hx. apply not_elem_of_cons in Hx as [Hne Hx].
      rewrite Hout by done. by rewrite lookup_insert_ne.
Qed.

(** X9. In a run over one DEX object that completes, the ids are those of the
    specification: the [k]-th exported method is registered with id [k] and
    named at index [k]; an external node takes the id [L] plus the number of
    external nodes before it and its label is at that index; an internal
    node takes the id of the exported method its label names. *)
Lemma single_dex_registry {N : Type} `{EqDecision N} (filename : string)
    (s : Session N) (output : string) (filt : option pattern) (jar : bool)
    (decompiler_type form : option string) (vm : DEX) :
  let Q := qualifying filt (get_methods vm) in
  let labels := cg_nodes_by_label s in
  let externals := cg_nodes_by_external s in
  get_objects_dex s = [vm] ->
  Forall (fun m => cfg_consistent (method2dotaggregated m)) Q ->
  length externals = length labels ->
  internals_registered labels externals (map signature Q) ->
  NoDup (map signature Q) ->
  exists t locals r,
    export_apps_to_format filename s output filt jar decompiler_type form =
      (t, Ok locals) /\
    relabelings locals = [r] /\
    final_method_names locals = map signature Q ++ external_names labels externals /\
    (forall k m, Q !! k = Some m ->
       final_methods locals !! signature m = Some k /\
       final_method_names locals !! k = Some (signature m)) /\
    (forall k label, labels !! k = Some label -> externals !! k = Some true ->
       rename_of r !! k = Some (length Q + externals_before k externals) /\
       final_method_names locals !! (length Q + externals_before k externals)
         = Some label) /\
    (forall k label, labels !! k = Some label -> externals !! k = Some false ->
       exists id, rename_of r !! k = Some id /\ id < length Q /\
                  final_method_names locals !! id = Some label).
Proof.
  intros Q labels externals Hdex Hall Hlen Hreg Hnd.
  destruct (export_single_dex filename s output filt jar decompiler_type form
              vm Hdex Hall Hlen Hreg)
    as (t0 & w & G' & Hs & Hrel & Hnames & Hids & Hrun).
  fold Q labels externals in Hnames, Hids, Hrun.
  eexists _, _, _. split; [exact Hrun|]. simpl. split; [done|].
  split; [done|]. rewrite Hnames.
  assert (length (map signature Q) = length Q) as HL by apply length_map.
  split; [|split].
  - intros k m Hk. split.
    + destruct (register_lookup Q ∅ Hnd) as [Hin _]; [done|].
      rewrite (Hin k m Hk). by rewrite map_size_empty.
    + rewrite lookup_app_l by (rewrite HL; by eapply lookup_lt_Some).
      rewrite map_fmap, list_lookup_fmap, Hk. done.
  - intros k label Hl He. cbn [rename_of].
    destruct (Hids k (lookup_lt_Some _ _ _ Hl)) as [-> _].
    unfold node_id. rewrite Hl, He, HL. split; [done|].
    rewrite lookup_app_r by lia.
    replace (length Q + externals_before k externals - length (map signature Q))
      with (externals_before k externals) by lia.
    by apply external_names_lookup.
  - intros k label Hl He. cbn [rename_of].
    destruct (Hids k (lookup_lt_Some _ _ _ Hl)) as [-> [id Hid]].
    exists id. split; [done|].
    unfold node_id in Hid. rewrite Hl, He in Hid.
    pose proof (index_lt _ _ _ Hid) as Hlt. rewrite HL in Hlt.
    split; [done|].
    rewrite lookup_app_l by lia. by apply index_lookup.
Qed.

(** ** The document of a run over one DEX object *)

(** X10. A run over one DEX object that completes writes exactly the corpus
    document: the entries of the exported methods, the two edge lists of
    the relabeled call graph and the name table. *)
Lemma single_dex_document {N : Type} `{EqDecision N} (filename : string)
    (s : Session N) (output : string) (filt : option pattern) (jar : bool)
    (decompiler_type form : option string) (vm : DEX) :
  let Q := qualifying filt (get_methods vm) in
  get_objects_dex s = [vm] ->
  Forall (fun m => cfg_consistent (method2dotaggregated m)) Q ->
  length (cg_nodes_by_external s) = length (cg_nodes_by_label s) ->
  internals_registered (cg_nodes_by_label s) (cg_nodes_by_external s)
    (map signature Q) ->
  exists t locals r,
    export_apps_to_format filename s output filt jar decompiler_type form =
      (t, Ok locals) /\
    relabelings locals = [r] /\
    text_tokens (written t) =
      Some (dumps (corpus_document Q (graph_of r) (final_method_names locals))) /\
    is_json_document (written t).
Proof.
  intros Q Hdex Hall Hlen Hreg.
  destruct (export_single_dex filename s output filt jar decompiler_type form
              vm Hdex Hall Hlen Hreg)
    as (t0 & w & G' & Hs & _ & _ & _ & Hrun).
  fold Q in Hrun.
  assert (text_tokens
            (written
               (WriteGraph write_gml (os_path_join output "callgraph.gml") ::
                  FileWrite [Lit lit_open] ::
                  t0 ++ entries_trace true Q ++ closing_writes G' (names w))) =
          Some (dumps (corpus_document Q G' (names w)))) as Htokens
    by (by apply one_pass_text).
  eexists _, _, _. split; [exact Hrun|]. split; [reflexivity|].
  split; [exact Htokens|].
  eexists. split; [exact Htokens|apply dumps_valid].
Qed.

(** X11. When no method qualifies and the call graph has no internal node, the
    document is the corpus document with an empty [acfg_list]. *)
Lemma no_method_document {N : Type} `{EqDecision N} (filename : string)
    (s : Session N) (output : string) (filt : option pattern) (jar : bool)
    (decompiler_type form : option string) (vm : DEX) :
  get_objects_dex s = [vm] ->
  qualifying filt (get_methods vm) = [] ->
  length (cg_nodes_by_external s) = length (cg_nodes_by_label s) ->
  Forall (fun b => b = true) (cg_nodes_by_external s) ->
  exists t locals r,
    export_apps_to_format filename s output filt jar decompiler_type form =
      (t, Ok locals) /\
    relabelings locals = [r] /\
    final_method_names locals = cg_nodes_by_label s /\
    text_tokens (written t) =
      Some (dumps (JObj [("acfg_list", JArr []);
                         ("cg_edges",
                           JArr [JArr (map (fun n => JNum (Z.of_nat n))
                                           (edgelist_source (graph_of r)));
                                 JArr (map (fun n => JNum (Z.of_nat n))
                                           (edgelist_target (graph_of r)))]);
                         ("method_names",
                           JArr (map JStr (cg_nodes_by_label s)))])) /\
    is_json_document (written t).
Proof.
  intros Hdex HQ Hlen Hext.
  assert (internals_registered (cg_nodes_by_label s) (cg_nodes_by_external s)
            (map signature (qualifying filt (get_methods vm)))) as Hreg.
  { intros k label _ He. rewrite Forall_forall in Hext.
    apply list_elem_of_lookup_2 in He. by apply Hext in He. }
  destruct (export_single_dex filename s output filt jar decompiler_type form
              vm Hdex ltac:(rewrite HQ; constructor) Hlen Hreg)
    as (t0 & w & G' & Hs & _ & Hnames & _ & Hrun).
  assert (text_tokens
            (written
               (WriteGraph write_gml (os_path_join output "callgraph.gml") ::
                  FileWrite [Lit lit_open] ::
                  t0 ++ entries_trace true (qualifying filt (get_methods vm))
                     ++ closing_writes G' (names w))) =
          Some (dumps (corpus_document (qualifying filt (get_methods vm)) G'
                         (names w)))) as Htokens
    by (by apply one_pass_text).
  assert (is_json_document
            (written
               (WriteGraph write_gml (os_path_join output "callgraph.gml") ::
                  FileWrite [Lit lit_open] ::
                  t0 ++ entries_trace true (qualifying filt (get_methods vm))
                     ++ closing_writes G' (names w)))) as Hdoc
    by (eexists; split; [exact Htokens|apply dumps_valid]).
  assert (names w = cg_nodes_by_label s) as Hw.
  { rewrite Hnames, HQ. simpl. clear -Hlen Hext.
    revert Hlen Hext. generalize (cg_nodes_by_external s).
    induction (cg_nodes_by_label s) as [|l ls IH]; intros [|b bs] Hlen Hext;
      simpl in *; try done.
    apply Forall_cons in Hext as [-> Hext]. simpl. f_equal.
    apply IH; [lia|done]. }
  eexists _, _, _. split; [exact Hrun|]. split; [reflexivity|].
  split; [exact Hw|]. split; [|exact Hdoc].
  cbn [final_method_names graph_of] in Htokens |- *.
  rewrite HQ, Hw in Htokens. rewrite HQ, Hw. exact Htokens.
Qed.

(** ** The format check of the orchestrator *)








(** * Further properties of the exporter *)

(** ** The format key, in full *)

Lemma rsplit_no_separator_found (s : string) (sep : ascii) (k : nat) :
  sep ∉ list_ascii_of_string s -> rsplit s sep k = [s].
Proof.
  intros Hfree. unfold rsplit.
  rewrite <- (app_nil_r (rev (list_ascii_of_string s))).
  rewrite rsplit_scan_skip by (by apply not_elem_of_rev).
  simpl. by rewrite rev_involutive, app_nil_r, string_of_list_ascii_of_string.
Qed.

(** A name with a dot ends in a dot-free extension. *)
Lemma last_dot_split (s : string) :
  ~ no_dot s -> exists stem ext, s = stem +:+ "." +:+ ext /\ no_dot ext.
Proof.
  induction s as [|c s IH]; intros Hdot.
  - destruct Hdot. apply not_elem_of_nil.
  - destruct (decide (no_dot s)) as [Hs|Hs].
    + destruct (decide (c = "."%char)) as [->|Hc].
      * by exists "", s.
      * destruct Hdot. by apply not_elem_of_cons.
    + destruct (IH Hs) as (stem & ext & -> & Hext).
      by exists (String c stem), ext.
Qed.

Lemma rsplit_single_dot (stem ext : string) (k : nat) :
  no_dot stem -> no_dot ext ->
  rsplit (stem +:+ "." +:+ ext) "." (S k) = [stem; ext].
Proof.
  intros Hstem Hext. unfold rsplit.
  rewrite !list_ascii_of_string_app, !rev_app_distr. simpl.
  rewrite <- app_assoc. simpl.
  rewrite rsplit_scan_skip by (by apply not_elem_of_rev).
  rewrite rev_involutive, app_nil_r. simpl.
  rewrite <- (app_nil_r (rev (list_ascii_of_string stem))).
  rewrite rsplit_scan_skip by (by apply not_elem_of_rev).
  simpl. rewrite rev_involutive, app_nil_r.
  by rewrite !string_of_list_ascii_of_string.
Qed.

Lemma format_key_no_dot (output : string) :
  no_dot output -> format_key output = Raise IndexError.
Proof.
  intros Hfree. unfold format_key. by rewrite rsplit_no_separator_found.
Qed.

(** The key of [stem.comp] when the stem has no dot: the compression suffix
    itself. *)
Lemma format_key_lone (stem comp : string) :
  no_dot stem -> comp ∈ ["bz2"; "gz"] ->
  format_key (stem +:+ "." +:+ comp) = Ok comp.
Proof.
  intros Hstem Hcomp. unfold format_key.
  assert (no_dot comp) as Hnd.
  { apply elem_of_cons in Hcomp as [->|Hcomp]; [compute_done|].
    apply list_elem_of_singleton in Hcomp as ->. compute_done. }
  rewrite !rsplit_single_dot by done. simpl.
  by rewrite bool_decide_eq_true_2.
Qed.

(** The three shapes of a name with a dot, and the key of each. *)
Lemma format_key_shape (output : string) :
  ~ no_dot output ->
  exists key, format_key output = Ok key /\ no_dot key /\
    ((exists stem, output = stem +:+ "." +:+ key /\ key ∉ ["bz2"; "gz"]) \/
     (exists stem, output = stem +:+ "." +:+ key /\ key ∈ ["bz2"; "gz"] /\
                   no_dot stem) \/
     (exists stem comp, output = stem +:+ "." +:+ key +:+ "." +:+ comp /\
                        comp ∈ ["bz2"; "gz"])).
Proof.
  intros Hdot. destruct (last_dot_split output Hdot) as (stem & ext & -> & Hext).
  destruct (decide (ext ∈ ["bz2"; "gz"])) as [Hcomp|Hplain].
  - destruct (decide (no_dot stem)) as [Hstem|Hstem].
    + exists ext. split; [by apply format_key_lone|]. split; [done|].
      right; left. by exists stem.
    + destruct (last_dot_split stem Hstem) as (stem' & inner & -> & Hinner).
      exists inner. rewrite string_app_assoc.
      change (("." +:+ inner) +:+ "." +:+ ext) with ("." +:+ inner +:+ "." +:+ ext).
      split; [by apply format_key_compressed|]. split; [done|].
      right; right. by exists stem', ext.
  - exists ext. split; [by apply format_key_plain|]. split; [done|].
    left. by exists stem.
Qed.

(** X1. The format key cannot be read from a name without a dot: the lookup
    of the extension raises [IndexError], the only exception the selection
    can raise, and [androcg_main] then ends without the message about the
    unsupported format and without a graph file. A name with a dot always
    has a key. *)
Theorem format_key_index_error (output : string) :
  (format_key output = Raise IndexError <-> no_dot output) /\
  (forall e, format_key output = Raise e -> e = IndexError) /\
  (no_dot output -> androcg_main false output = ([], Raise IndexError)).
Proof.
  split; [split|split].
  - intros Hraise. destruct (decide (no_dot output)) as [|Hdot]; [done|].
    destruct (format_key_shape output Hdot) as (key & Hkey & _).
    by rewrite Hkey in Hraise.
  - apply format_key_no_dot.
  - intros e He. destruct (decide (no_dot output)) as [Hfree|Hdot].
    + rewrite format_key_no_dot in He by done. by injection He.
    + destruct (format_key_shape output Hdot) as (key & Hkey & _).
      by rewrite Hkey in He.
  - intros Hfree. unfold androcg_main. by rewrite format_key_no_dot.
Qed.

(** X2. The format key of a name, in full: [key] is the key of [output]
    exactly when it has no dot and [output] is [stem.key] with [key] not a
    compression suffix, or [stem.key] with [key] a compression suffix and a
    stem without a dot, or [stem.key.gz] or [stem.key.bz2]. *)
Theorem format_key_spec (output key : string) :
  format_key output = Ok key <->
  no_dot key /\
  ((exists stem, output = stem +:+ "." +:+ key /\ key ∉ ["bz2"; "gz"]) \/
   (exists stem, output = stem +:+ "." +:+ key /\ key ∈ ["bz2"; "gz"] /\
                 no_dot stem) \/
   (exists stem comp, output = stem +:+ "." +:+ key +:+ "." +:+ comp /\
                      comp ∈ ["bz2"; "gz"])).
Proof.
  split.
  - intros Hkey. destruct (decide (no_dot output)) as [Hfree|Hdot].
    + by rewrite format_key_no_dot in Hkey.
    + destruct (format_key_shape output Hdot) as (key' & Hkey' & Hshape).
      rewrite Hkey in Hkey'. by injection Hkey' as <-.
  - intros [Hfree [(stem & -> & Hplain)|[(stem & -> & Hcomp & Hstem)|
                   (stem & comp & -> & Hcomp)]]].
    + by apply format_key_plain.
    + by apply format_key_lone.
    + by apply format_key_compressed.
Qed.

(** X3. A name that is nothing but a stem and a compression suffix, such as
    [cg.gz], has the suffix as its key; the writer table of [androcg_main]
    does not hold it, so [androcg_main], asked to write, reports the suffix
    as the unsupported format and exits with status 1 with nothing
    written. *)
Theorem lone_compression_suffix_rejected (stem comp : string)
    (Hstem : no_dot stem) (Hcomp : comp ∈ ["bz2"; "gz"]) :
  let output := stem +:+ "." +:+ comp in
  format_key output = Ok comp /\
  Androcg.write_methods !! comp = None /\
  androcg_main false output =
    ([PrintOut (no_writer_message comp)], Raise (SystemExit 1)).
Proof.
  intros output.
  assert (format_key output = Ok comp) as Hkey by (by apply format_key_lone).
  assert (Androcg.write_methods !! comp = None) as Ha.
  { apply elem_of_cons in Hcomp as [->|Hcomp]; [done|].
    by apply list_elem_of_singleton in Hcomp as ->. }
  split; [done|]. split; [done|].
  by apply androcg_main_unsupported.
Qed.

Lemma lone_compression_suffix_rejected_witness :
  format_key "cg.gz" = Ok "gz" /\
  androcg_main false "cg.gz" =
    ([PrintOut (no_writer_message "gz")], Raise (SystemExit 1)).
Proof.
  destruct (lone_compression_suffix_rejected "cg" "gz") as (Hk & _ & Hrun).
  - compute_done.
  - set_solver.
  - by split.
Defined.

(** X4. The writer table of the export entry point is the table of the
    call-graph entry point without [gpickle] and [yaml]; a name the export
    accepts is therefore written by [androcg_main] too, with the same
    writer. *)
Theorem writer_tables_differ_in_gpickle_yaml :
  (forall key,
      write_methods !! key =
        if bool_decide (key ∈ ["gpickle"; "yaml"]) then None
        else Androcg.write_methods !! key) /\
  (forall (N : Type) (dec : EqDecision N) (s : Session N) (dir : string)
          (methods_filter : option pattern) (jar : bool)
          (decompiler_type : option string) (output key : string)
          (w : graph_writer),
      format_key output = Ok key ->
      write_methods !! key = Some w ->
      androcg_main false output = ([WriteGraph w output], Ok ()) /\
      exists t r,
        export_with_cg_output output s dir methods_filter jar decompiler_type =
          (WriteGraph w output :: t, r)).
Proof.
  assert (forall key,
      write_methods !! key =
        if bool_decide (key ∈ ["gpickle"; "yaml"]) then None
        else Androcg.write_methods !! key) as Htable.
  { intros key. unfold write_methods, Androcg.write_methods.
    cbn [list_to_map foldr fst snd curry].
    destruct (decide (key = "gpickle")) as [->|H1]; [done|].
    destruct (decide (key = "yaml")) as [->|H2]; [done|].
    rewrite bool_decide_eq_false_2
      by (intros Hin; apply elem_of_cons in Hin as [?|Hin]; [done|];
          by apply list_elem_of_singleton in Hin).
    destruct (decide (key = "gml")) as [->|H3]; [done|].
    rewrite !(lookup_insert_ne _ "gml") by done.
    destruct (decide (key = "gexf")) as [->|H4]; [done|].
    rewrite !(lookup_insert_ne _ "gexf") by done.
    rewrite (lookup_insert_ne _ "gpickle") by done.
    destruct (decide (key = "graphml")) as [->|H5]; [done|].
    rewrite !(lookup_insert_ne _ "graphml") by done.
    by rewrite (lookup_insert_ne _ "yaml") by done. }
  split; [exact Htable|].
  intros N dec s dir methods_filter jar decompiler_type output key w Hkey Hw.
  split.
  - apply (androcg_main_supported output key); [done|].
    rewrite Htable in Hw. by destruct (bool_decide _).
  - destruct (export_with_cg_output_supported output key w s dir methods_filter
                jar decompiler_type Hkey Hw) as (t & r & Heq).
    eauto.
Qed.

(** ** The relabeling step and the name table, without preconditions *)

(** A walk that returns, whatever it started from: the name table has
    grown by the external labels, the counter by their number, ids given
    before are kept and every position walked has the id of its label. *)
Lemma relabel_walk_Ok_inv (externals : list bool) (labels : list string) :
  forall (i : nat) (w w' : walk),
  relabel_walk externals i labels w = Ok w' ->
  counter w = length (names w) ->
  names w' = names w ++ external_names labels (drop i externals) /\
  counter w' = length (names w') /\
  (forall k label, labels !! k = Some label ->
     is_Some (externals !! (i + k)) /\
     exists id, rename_nodes w' !! (i + k) = Some id /\
                names w' !! id = Some label) /\
  (forall k, k < i -> rename_nodes w' !! k = rename_nodes w !! k) /\
  (forall k, i + length labels <= k -> rename_nodes w' !! k = rename_nodes w !! k).
Proof.
  induction labels as [|label labels IH]; intros i w w' Hrun Hc.
  - simpl in Hrun. injection Hrun as <-. rewrite app_nil_r.
    repeat split; try done.
  - simpl in Hrun.
    destruct (externals !! i) as [b|] eqn:Hb; [|done].
    assert (drop i externals = b :: drop (S i) externals) as Hdrop
      by (by apply drop_S).
    rewrite Hdrop. destruct b.
    + apply IH in Hrun as (Hn & Hc' & Hids & Hlow & Hhigh);
        [|simpl; rewrite length_app; simpl; lia].
      simpl in Hn, Hlow, Hhigh.
      split; [by rewrite Hn, <- app_assoc|]. split; [done|].
      split; [|split].
      * intros [|k] label' Hk; simpl in Hk.
        -- injection Hk as <-. rewrite Nat.add_0_r. split; [by eexists|].
           exists (counter w). rewrite Hlow by lia.
           rewrite lookup_insert_eq. split; [done|].
           rewrite Hn, <- app_assoc, Hc.
           rewrite lookup_app_r by lia. by rewrite Nat.sub_diag.
        -- replace (i + S k) with (S i + k) by lia. by apply Hids.
      * intros k Hk. rewrite Hlow by lia. by rewrite lookup_insert_ne by lia.
      * intros k Hk. simpl in Hk. rewrite Hhigh by lia.
        by rewrite lookup_insert_ne by lia.
    + destruct (index label (names w)) as [id|] eqn:Hid; [|done].
      apply IH in Hrun as (Hn & Hc' & Hids & Hlow & Hhigh); [|done].
      simpl in Hn, Hlow, Hhigh.
      split; [done|]. split; [done|].
      split; [|split].
      * intros [|k] label' Hk; simpl in Hk.
        -- injection Hk as <-. rewrite Nat.add_0_r. split; [by eexists|].
           exists id. rewrite Hlow by lia.
           rewrite lookup_insert_eq. split; [done|].
           rewrite Hn. apply lookup_app_l_Some. by apply index_lookup.
        -- replace (i + S k) with (S i + k) by lia. by apply Hids.
      * intros k Hk. rewrite Hlow by lia. by rewrite lookup_insert_ne by lia.
      * intros k Hk. simpl in Hk. rewrite Hhigh by lia.
        by rewrite lookup_insert_ne by lia.
Qed.

(** X5. Whenever the relabeling step returns, and under no other assumption,
    every node of the table has an id and its id is the position of its own
    label in the name table: [method_names[rename_nodes[k]]] is
    [cg_nodes_by_label[k]]. The assertion the source keeps in a comment
    holds too (the counter is the length of the name table), the table of
    external flags is at least as long as the label table, and positions
    beyond the label table are not renamed. *)
Theorem relabeling_ids_index_labels {N : Type} `{EqDecision N}
    (labels : list string) (externals : list bool) (names0 : list string)
    (CG : DiGraph N) (w : walk) (G' : DiGraph nat)
    (Hrun : relabel_call_graph labels externals names0 CG = Ok (w, G')) :
  ids_index_labels labels w /\
  counter w = length (names w) /\
  names w = names0 ++ external_names labels externals /\
  length labels <= length externals /\
  (forall k, length labels <= k -> rename_nodes w !! k = None) /\
  G' = relabel_nodes (convert_node_labels_to_integers CG) (rename_nodes w).
Proof.
  unfold relabel_call_graph in Hrun.
  destruct (relabel_walk externals 0 labels _) as [w0|e] eqn:Hwalk; [|done].
  injection Hrun as <- <-.
  apply relabel_walk_Ok_inv in Hwalk as (Hn & Hc & Hids & _ & Hhigh); [|done].
  simpl in Hn, Hhigh. rewrite drop_0 in Hn.
  split; [|split; [done|split; [done|split; [|split; [|done]]]]].
  - intros k label Hk. by destruct (Hids k label Hk) as [_ Hid].
  - destruct labels as [|l0 labels'] eqn:Hl; [simpl; lia|]. rewrite <- Hl in *.
    destruct (lookup_lt_is_Some_2 labels (length labels - 1)) as [label Hk].
    { rewrite Hl. simpl. lia. }
    destruct (Hids _ label Hk) as [He _]. apply lookup_lt_is_Some_1 in He.
    simpl in He. lia.
  - intros k Hk. rewrite Hhigh by (simpl; lia). apply lookup_empty.
Qed.

Lemma relabeling_ids_index_labels_witness :
  let w := {| rename_nodes := {[ 0 := 0; 1 := 1 ]}; counter := 2;
              names := ["LA;a()V"; "Lx;y()V"] |} in
  exists id, rename_nodes w !! 1 = Some id /\ names w !! id = Some "Lx;y()V".
Proof.
  intros w.
  refine (proj1 (relabeling_ids_index_labels (N := nat)
                   ["LA;a()V"; "Lx;y()V"] [false; true] ["LA;a()V"]
                   [(0, [1]); (1, [])] w _ _) 1 "Lx;y()V" _).
  - vm_compute. reflexivity.
  - reflexivity.
Defined.

Lemma relabeling_names {N : Type} `{EqDecision N} (labels : list string)
    (externals : list bool) (names0 : list string) (CG : DiGraph N)
    (w : walk) (G' : DiGraph nat) :
  relabel_call_graph labels externals names0 CG = Ok (w, G') ->
  names w = names0 ++ external_names labels externals.
Proof.
  unfold relabel_call_graph. intros Hrun.
  destruct (relabel_walk externals 0 labels _) as [w0|e] eqn:Hwalk; [|done].
  injection Hrun as <- <-.
  apply relabel_walk_Ok_inv in Hwalk as (Hn & _); [|done].
  by rewrite drop_0 in Hn.
Qed.

(** The name table and the registry a loop over the DEX objects builds. *)
Lemma export_loop_tables (output : string) (filt : option pattern) (jar : bool)
    (decompiler_type : option string) (labels : list string)
    (externals : list bool) (dexes : list DEX) :
  forall {N : Type} `{EqDecision N} (methods0 : gmap string nat)
         (names0 : list string) (CG : DiGraph N) (done : list relabeling) t r,
  export_loop output filt jar decompiler_type labels externals dexes
    methods0 names0 CG done = (t, Ok r) ->
  r.1.2 = names0 ++
    flat_map (fun vm => map signature (qualifying filt (get_methods vm)) ++
                        external_names labels externals) dexes /\
  r.1.1 = fold_left (fun ms vm => register (qualifying filt (get_methods vm)) ms)
            dexes methods0.
Proof.
  induction dexes as [|vm dexes IH]; intros N ? methods0 names0 CG done t r Hrun.
  - rewrite export_loop_nil in Hrun. injection Hrun as <- <-.
    simpl. by rewrite app_nil_r.
  - rewrite export_loop_cons in Hrun.
    apply bind_eq_Ok_inv in Hrun as (t1 & r1 & t2 & Hdex & Hrest & ->).
    apply export_dex_Ok_inv in Hdex as (t0 & w & G' & _ & _ & Hrel & _ & ->).
    apply relabeling_names in Hrel.
    apply IH in Hrest as [Hn Hm]. simpl in Hn, Hm.
    split; [|done]. rewrite Hn, Hrel. simpl. by rewrite <- !app_assoc.
Qed.

(** X6. The name table of a run that returns, for any number of DEX
    objects: for each DEX object in turn, the signatures of its exported
    methods followed by the labels of all external nodes of the call graph.
    The external labels are thus listed once per DEX object, while the
    registry of method ids holds the exported methods only. *)
Theorem export_name_table {N : Type} `{EqDecision N} (filename : string)
    (s : Session N) (output : string) (filt : option pattern) (jar : bool)
    (decompiler_type form : option string) (locals : export_locals)
    (Hrun : (export_apps_to_format filename s output filt jar decompiler_type
               form).2 = Ok locals) :
  final_method_names locals =
    flat_map (fun vm => map signature (qualifying filt (get_methods vm)) ++
                        external_names (cg_nodes_by_label s)
                                       (cg_nodes_by_external s))
             (get_objects_dex s) /\
  final_methods locals =
    fold_left (fun ms vm => register (qualifying filt (get_methods vm)) ms)
              (get_objects_dex s) ∅ /\
  length (final_method_names locals) =
    length (flat_map (fun vm => qualifying filt (get_methods vm))
                     (get_objects_dex s)) +
    length (get_objects_dex s) *
      length (external_names (cg_nodes_by_label s) (cg_nodes_by_external s)).
Proof.
  rewrite export_run_shape in Hrun. simpl in Hrun.
  destruct (export_loop _ _ _ _ _ _ _ _ _ _ _) as [t [r|e]] eqn:Hloop; [|done].
  injection Hrun as <-. simpl.
  apply export_loop_tables in Hloop as [Hn Hm]. simpl in Hn.
  split; [done|]. split; [done|]. rewrite Hn. clear.
  generalize (external_names (cg_nodes_by_label s) (cg_nodes_by_external s)).
  intros E. induction (get_objects_dex s) as [|vm dexes IH]; [done|].
  simpl. rewrite !length_app, length_map, IH. lia.
Qed.

Lemma export_name_table_witness :
  let m := {| get_class_name := "LA;"; get_name := "a";
              get_descriptor := "()V"; get_instructions := [14];
              method2dotaggregated :=
                {| cfg_nodes := [(0, Some (JArr [JNum 1]))];
                   cfg_edges := [] |} |} in
  let s : Session nat :=
    {| get_objects_dex := [{| get_methods := [m] |}; {| get_methods := [] |}];
       call_graph := [(0, [1]); (1, [])];
       cg_nodes_by_label := ["LA;a()V"; "Lx;y()V"];
       cg_nodes_by_external := [false; true] |} in
  exists locals,
    (export_apps_to_format "app.apk" s "out" None false None None).2 =
      Ok locals /\
    final_method_names locals = ["LA;a()V"; "Lx;y()V"; "Lx;y()V"].
Proof.
  intros m s.
  destruct (export_apps_to_format "app.apk" s "out" None false None None)
    as [t [locals|e]] eqn:Hrun.
  - exists locals. split; [reflexivity|].
    exact (proj1 (export_name_table "app.apk" s "out" None false None None
                    locals ltac:(by rewrite Hrun))).
  - exfalso. vm_compute in Hrun. discriminate.
Defined.

Lemma dump_methods_matching (search : pattern) (ms : list Method) (st : registry) :
  dump_methods (Some search) ms st =
    dump_methods None (List.filter (fun m => search (signature m)) ms) st.
Proof.
  revert st. induction ms as [|m ms IH]; intros st; [done|].
  cbn [dump_methods List.filter].
  destruct (search (signature m)) eqn:Hm.
  - cbn [dump_methods].
    assert (dump_method (Some search) m st = dump_method None m st) as ->
      by (unfold dump_method; by rewrite Hm).
    destruct (dump_method None m st) as [t [st'|e]]; [|done].
    unfold mbind, M_bind. by rewrite IH.
  - assert (dump_method (Some search) m st = mret st) as ->
      by (unfold dump_method; by rewrite Hm).
    unfold mbind, M_bind, mret, M_ret. rewrite IH.
    by destruct (dump_methods _ _ _).
Qed.

Lemma export_loop_matching (output : string) (search : pattern) (jar : bool)
    (decompiler_type : option string) (labels : list string)
    (externals : list bool) (dexes : list DEX) :
  forall {N : Type} `{EqDecision N} (methods0 : gmap string nat)
         (names0 : list string) (CG : DiGraph N) (done : list relabeling),
  export_loop output (Some search) jar decompiler_type labels externals dexes
    methods0 names0 CG done =
  export_loop output None jar decompiler_type labels externals
    (map (matching search) dexes) methods0 names0 CG done.
Proof.
  induction dexes as [|vm dexes IH]; intros N ? methods0 names0 CG acc; [done|].
  cbn [map]. rewrite !export_loop_cons.
  assert (export_dex output (Some search) jar decompiler_type labels externals
            vm methods0 names0 CG =
          export_dex output None jar decompiler_type labels externals
            (matching search vm) methods0 names0 CG) as ->.
  { unfold export_dex. by rewrite dump_methods_matching. }
  destruct (export_dex _ _ _ _ _ _ _ _ _ _) as [t [r|e]]; [|done].
  unfold mbind, M_bind. by rewrite IH.
Qed.

(** X7. The method filter acts on the method loop and on nothing else: a
    run with a filter is, event for event and value for value, the run
    without a filter on the session whose DEX objects hold only the
    methods the pattern finds. The call graph and its node tables enter
    both runs unfiltered. *)
Theorem filter_only_removes_methods {N : Type} `{EqDecision N}
    (filename : string) (s : Session N) (output : string) (search : pattern)
    (jar : bool) (decompiler_type form : option string) :
  export_apps_to_format filename s output (Some search) jar decompiler_type
    form =
  export_apps_to_format filename
    {| get_objects_dex := map (matching search) (get_objects_dex s);
       call_graph := call_graph s;
       cg_nodes_by_label := cg_nodes_by_label s;
       cg_nodes_by_external := cg_nodes_by_external s |}
    output None jar decompiler_type form.
Proof.
  rewrite !export_run_shape. simpl. by rewrite export_loop_matching.
Qed.

(** Whatever the outcome of the method loop, what it writes is the entries
    of some exported methods, separated by commas. *)
Lemma dump_methods_written (filt : option pattern) (ms : list Method)
    (st : registry) :
  exists Q, written (dump_methods filt ms st).1 =
              written (entries_trace (first_iteration st) Q).
Proof.
  revert st. induction ms as [|m ms IH]; intros st.
  - by exists [].
  - cbn [dump_methods].
    destruct (qualifies filt m) eqn:Hq.
    + destruct (decide (cfg_consistent (method2dotaggregated m))) as [Hc|Hc].
      * rewrite dump_method_ok by done. unfold mbind, M_bind.
        destruct (IH {| methods := <[signature m := size (methods st)]> (methods st);
                        method_names := method_names st ++ [signature m];
                        first_iteration := false |}) as [Q HQ].
        destruct (dump_methods filt ms _) as [t r]. simpl in HQ.
        exists (m :: Q). simpl fst. cbn [entries_trace].
        change (written (ExtractCfg ?n :: ?l)) with (written l).
        rewrite written_app, HQ.
        destruct (first_iteration st); simpl; by rewrite ?app_nil_r.
      * rewrite dump_method_abort by done. by exists [].
    + rewrite dump_method_skip by done. unfold mbind, M_bind.
      destruct (IH st) as [Q HQ].
      destruct (dump_methods filt ms st) as [t r]. by exists Q.
Qed.

Lemma depth_sep_join_dumps (vs : list json) :
  depth (sep_join (map dumps vs)) = 0%Z.
Proof.
  induction vs as [|v vs IH]; [done|].
  pose proof (json_value_depth _ (dumps_valid v)) as Hv.
  destruct vs as [|v' vs]; [done|].
  cbn [map] in *. rewrite sep_join_cons by done. rewrite depth_app.
  cbn [depth delta]. by rewrite IH, Hv.
Qed.

(** The opening fragment followed by entries leaves two brackets open. *)
Lemma open_entries_invalid (first : bool) (Q : list Method) :
  ~ is_json_document (Lit lit_open :: written (entries_trace first Q)).
Proof.
  intros (ts & Hts & Hv). apply json_value_depth in Hv.
  change (Lit lit_open :: ?l) with ([Lit lit_open] ++ l) in Hts.
  apply text_tokens_app_inv in Hts as (ta & tb & Ha & Hb & ->).
  vm_compute in Ha. injection Ha as <-.
  rewrite entries_tokens in Hb.
  assert (depth tb = 0%Z) as Hd.
  { injection Hb as <-. destruct Q as [|m Q]; [done|]. rewrite depth_app.
    rewrite <- (map_map (fun m => cfg_data (method2dotaggregated m)) dumps).
    rewrite depth_sep_join_dumps. by destruct first. }
  rewrite depth_app, Hd in Hv. vm_compute in Hv. discriminate.
Qed.

(** X8. For a session with one DEX object the corpus file is a well-formed
    JSON document exactly when the run returns: a run that is cut short, by
    the failed check on a method or by the relabeling step, leaves the
    opening fragment and some entries, never a document that parses. *)
Theorem single_dex_valid_iff_returns {N : Type} `{EqDecision N}
    (filename : string) (s : Session N) (output : string)
    (filt : option pattern) (jar : bool) (decompiler_type form : option string)
    (vm : DEX) (Hdex : get_objects_dex s = [vm]) :
  let run := export_apps_to_format filename s output filt jar
               decompiler_type form in
  is_json_document (written run.1) <-> exists locals, run.2 = Ok locals.
Proof.
  intros run. unfold run. rewrite export_run_shape. cbv zeta.
  destruct (export_loop _ _ _ _ _ _ _ _ _ _ _) as [t [r|e]] eqn:Hloop;
    rewrite Hdex in Hloop; simpl.
  - split; [by eexists|]. intros _.
    apply export_loop_passes in Hloop as [Hpasses _].
    by apply (passes_document filt [vm]).
  - split; [|by intros [? ?]]. intros Hdoc. exfalso.
    rewrite export_loop_cons in Hloop.
    destruct (export_dex_stages output filt jar decompiler_type
                (cg_nodes_by_label s) (cg_nodes_by_external s) vm ∅ []
                (call_graph s)) as (t0 & Hs & Heq).
    rewrite Heq in Hloop. clear Heq.
    destruct (dump_methods_written filt (get_methods vm)
                {| methods := ∅; method_names := [];
                   first_iteration := true |}) as [Q HQ].
    destruct (dump_methods filt (get_methods vm) _) as [td [st|e']];
      simpl in HQ.
    + unfold mbind, M_bind, lift in Hloop. simpl in Hloop.
      destruct (relabel_call_graph _ _ _ _) as [[w G']|e'']; simpl in Hloop.
      * discriminate.
      * injection Hloop as <- <-.
        rewrite app_nil_r, written_app, (silent_written t0 Hs), HQ in Hdoc.
        by apply open_entries_invalid in Hdoc.
    + unfold mbind, M_bind in Hloop. simpl in Hloop.
      injection Hloop as <- <-.
      rewrite written_app, (silent_written t0 Hs), HQ in Hdoc.
      by apply open_entries_invalid in Hdoc.
Qed.

Lemma single_dex_valid_iff_returns_witness :
  let s : Session nat :=
    {| get_objects_dex := [{| get_methods := [] |}];
       call_graph := [(0, [])]; cg_nodes_by_label := ["LA;a()V"];
       cg_nodes_by_external := [false] |} in
  let run := export_apps_to_format "app.apk" s "out" None false None None in
  run.2 = Raise ValueError /\
  (is_json_document (written run.1) <-> exists locals, run.2 = Ok locals).
Proof.
  intros s run. split; [reflexivity|].
  exact (single_dex_valid_iff_returns "app.apk" s "out" None false None None
           {| get_methods := [] |} eq_refl).
Defined.

(** ** Runs over one DEX object on sample sessions *)

Lemma single_dex_registry_witness :
  let m := {| get_class_name := "LA;"; get_name := "a";
              get_descriptor := "()V"; get_instructions := [14];
              method2dotaggregated :=
                {| cfg_nodes := [(0, Some (JArr [JNum 1]))];
                   cfg_edges := [] |} |} in
  let s : Session nat :=
    {| get_objects_dex := [{| get_methods := [m] |}];
       call_graph := [(0, [1]); (1, [])];
       cg_nodes_by_label := ["LA;a()V"; "Lx;y()V"];
       cg_nodes_by_external := [false; true] |} in
  exists t locals,
    export_apps_to_format "app.apk" s "out" None false None None =
      (t, Ok locals) /\
    final_method_names locals = ["LA;a()V"; "Lx;y()V"] /\
    final_methods locals !! "LA;a()V" = Some 0.
Proof.
  intros m s.
  destruct (single_dex_registry "app.apk" s "out" None false None None
              {| get_methods := [m] |})
    as (t & locals & r & Hrun & _ & Hnames & Hlocal & _).
  - reflexivity.
  - repeat constructor.
  - reflexivity.
  - intros [|[|k]] label Hl He; simpl in *; try discriminate.
    injection Hl as <-. by left.
  - repeat constructor. by intros ?%elem_of_nil.
  - exists t, locals. split; [exact Hrun|]. split; [exact Hnames|].
    exact (proj1 (Hlocal 0 m eq_refl)).
Defined.

Lemma single_dex_document_witness :
  let m := {| get_class_name := "LA;"; get_name := "a";
              get_descriptor := "()V"; get_instructions := [14];
              method2dotaggregated :=
                {| cfg_nodes := [(0, Some (JArr [JNum 1]))];
                   cfg_edges := [] |} |} in
  let s : Session nat :=
    {| get_objects_dex := [{| get_methods := [m] |}];
       call_graph := [(0, [1]); (1, [])];
       cg_nodes_by_label := ["LA;a()V"; "Lx;y()V"];
       cg_nodes_by_external := [false; true] |} in
  is_json_document
    (written (export_apps_to_format "app.apk" s "out" None false None None).1).
Proof.
  intros m s.
  destruct (single_dex_document "app.apk" s "out" None false None None
              {| get_methods := [m] |})
    as (t & locals & r & Hrun & _ & _ & Hdoc).
  - reflexivity.
  - repeat constructor.
  - reflexivity.
  - intros [|[|k]] label Hl He; simpl in *; try discriminate.
    injection Hl as <-. by left.
  - by rewrite Hrun.
Defined.

Lemma no_method_document_witness :
  let s : Session nat :=
    {| get_objects_dex := [{| get_methods := [] |}];
       call_graph := [(0, [])];
       cg_nodes_by_label := ["Lx;y()V"];
       cg_nodes_by_external := [true] |} in
  exists t locals,
    export_apps_to_format "app.apk" s "out" None false None None =
      (t, Ok locals) /\
    final_method_names locals = ["Lx;y()V"] /\
    is_json_document (written t).
Proof.
  intros s.
  destruct (no_method_document "app.apk" s "out" None false None None
              {| get_methods := [] |})
    as (t & locals & r & Hrun & _ & Hnames & _ & Hdoc).
  - reflexivity.
  - reflexivity.
  - reflexivity.
  - repeat constructor.
  - by exists t, locals.
Defined.

(** * The other entry points *)

(** ** Strings *)

Lemma string_app_nil_r (s : string) : s +:+ "" = s.
Proof.
  induction s as [|c s IH]; [done|].
  change (String c (s +:+ "") = String c s). by rewrite IH.
Qed.

Lemma string_length_app (a b : string) :
  String.length (a +:+ b) = String.length a + String.length b.
Proof.
  induction a as [|c a IH]; [done|].
  change (S (String.length (a +:+ b)) = S (String.length a + String.length b)).
  by rewrite IH.
Qed.

Lemma get_snoc (p : string) (c : ascii) :
  String.get (String.length p) (p +:+ String c "") = Some c.
Proof.
  induction p as [|x p IH]; [done|].
  change (String.get (String.length p) (p +:+ String c "") = Some c). exact IH.
Qed.

Lemma getitem_last_snoc (p : string) (c : ascii) :
  getitem (p +:+ String c "") (-1) = Ok c.
Proof.
  unfold getitem. rewrite string_length_app. simpl String.length.
  change (-1 <? 0)%Z with true. cbv iota.
  replace (-1 + Z.of_nat (String.length p + 1))%Z
    with (Z.of_nat (String.length p)) by lia.
  destruct (Z.ltb_spec (Z.of_nat (String.length p)) 0); [lia|].
  by rewrite Nat2Z.id, get_snoc.
Qed.

Lemma string_snoc_inv (s : string) :
  s <> "" -> exists p c, s = p +:+ String c "".
Proof.
  induction s as [|x s IH]; [done|]. intros _.
  destruct s as [|y s].
  - by exists "", x.
  - destruct IH as (p & c & Heq); [done|].
    exists (String x p), c. by rewrite Heq.
Qed.

Lemma endswith_snoc (p : string) (c x : ascii) :
  endswith (p +:+ String c "") x = bool_decide (c = x).
Proof.
  unfold endswith. rewrite list_ascii_of_string_app, rev_app_distr. done.
Qed.

Lemma endswith_elem (s : string) (x : ascii) :
  endswith s x = true -> x ∈ list_ascii_of_string s.
Proof.
  destruct (decide (s = "")) as [->|Hne]; [done|].
  destruct (string_snoc_inv s Hne) as (p & c & ->).
  rewrite endswith_snoc, list_ascii_of_string_app. intros Heq.
  apply bool_decide_eq_true in Heq as ->.
  apply elem_of_app. right. by left.
Qed.

Lemma endswith_app (a b : string) (x : ascii) :
  b <> "" -> endswith (a +:+ b) x = endswith b x.
Proof.
  intros Hne. destruct (string_snoc_inv b Hne) as (p & c & ->).
  by rewrite <- string_app_assoc, !endswith_snoc.
Qed.

Lemma startswith_elem (s : string) (x : ascii) :
  startswith s x = true -> x ∈ list_ascii_of_string s.
Proof.
  destruct s as [|c s]; [done|]. simpl. intros Heq.
  apply bool_decide_eq_true in Heq as ->. by left.
Qed.

Lemma startswith_app (a b : string) (x : ascii) :
  a <> "" -> startswith (a +:+ b) x = startswith a x.
Proof. by destruct a. Qed.

(** The empty name has no last character. *)
Lemma getitem_last_empty (s : string) :
  (exists e, getitem s (-1) = Raise e) <-> s = "".
Proof.
  split.
  - intros [e He]. destruct (decide (s = "")) as [|Hne]; [done|].
    destruct (string_snoc_inv s Hne) as (p & c & ->).
    by rewrite getitem_last_snoc in He.
  - intros ->. by exists IndexError.
Qed.

(** No piece of a split contains the separator. *)
Lemma split_pieces_free (s : string) (sep : ascii) :
  (sep ∉ list_ascii_of_string (split s sep).1) /\
  Forall (fun b => sep ∉ list_ascii_of_string b) (split s sep).2.
Proof.
  induction s as [|c s [IHa IHp]]; simpl.
  - split; [apply not_elem_of_nil|constructor].
  - destruct (split s sep) as [a p]. simpl in *.
    destruct (decide (c = sep)) as [->|Hne]; simpl.
    + split; [apply not_elem_of_nil|by constructor].
    + split; [|done]. by apply not_elem_of_cons.
Qed.

(** Putting the separator back between the pieces gives the string. *)
Lemma split_join (s : string) (sep : ascii) :
  ((split s sep).1 +:+
     fold_right (fun b r => String sep b +:+ r) "" (split s sep).2) = s.
Proof.
  induction s as [|c s IH]; [done|]. simpl.
  destruct (split s sep) as [a p]. simpl in *.
  destruct (decide (c = sep)) as [->|Hne]; simpl.
  - change (String sep (a +:+
              fold_right (fun b r => String sep b +:+ r) "" p) = String sep s).
    by rewrite IH.
  - change (String c (a +:+
              fold_right (fun b r => String sep b +:+ r) "" p) = String c s).
    by rewrite IH.
Qed.

Lemma prefix_nil (s : string) : String.prefix "" s = true.
Proof. by destruct s. Qed.

Lemma contains_dslash_cons (c : ascii) (s : string) :
  contains "//" (String c s) =
    (bool_decide (c = "/"%char) && startswith s "/") || contains "//" s.
Proof.
  cbn [contains]. f_equal. cbn [String.prefix].
  destruct (ascii_dec "/" c) as [<-|Hne].
  - rewrite bool_decide_eq_true_2 by done. cbn [andb].
    destruct s as [|d s]; [done|]. cbn [startswith String.prefix].
    destruct (ascii_dec "/" d) as [<-|Hne].
    + rewrite bool_decide_eq_true_2 by done. apply prefix_nil.
    + by rewrite bool_decide_eq_false_2 by congruence.
  - by rewrite bool_decide_eq_false_2 by congruence.
Qed.

Lemma endswith_cons (c d : ascii) (s : string) (x : ascii) :
  endswith (String c (String d s)) x = endswith (String d s) x.
Proof. apply (endswith_app (String c "") (String d s)). done. Qed.

(** A doubled slash in [x ++ y] lies in [x], in [y], or across the seam. *)
Lemma contains_dslash_app (x y : string) :
  contains "//" (x +:+ y) =
    contains "//" x || contains "//" y || (endswith x "/" && startswith y "/").
Proof.
  induction x as [|c x IH].
  - change ("" +:+ y) with y. change (contains "//" "") with false.
    change (endswith "" "/") with false. simpl. by rewrite orb_false_r.
  - change (String c x +:+ y) with (String c (x +:+ y)).
    rewrite !contains_dslash_cons, IH.
    destruct x as [|d x].
    + change ("" +:+ y) with y. change (contains "//" "") with false.
      change (endswith "" "/") with false.
      change (startswith "" "/") with false.
      change (endswith (String c "") "/") with (bool_decide (c = "/"%char)).
      destruct (bool_decide (c = "/"%char)), (startswith y "/"),
        (contains "//" y); done.
    + rewrite endswith_cons.
      change (startswith (String d x +:+ y) "/")
        with (startswith (String d x) "/").
      destruct (bool_decide (c = "/"%char)), (startswith (String d x) "/"),
        (contains "//" (String d x)), (contains "//" y),
        (endswith (String d x) "/"), (startswith y "/"); done.
Qed.

Lemma slash_free_no_dslash (s : string) : slash_free s -> contains "//" s = false.
Proof.
  unfold slash_free. induction s as [|c s IH]; [done|]. intros Hfree.
  cbn [list_ascii_of_string] in Hfree.
  apply not_elem_of_cons in Hfree as [Hc Hs].
  rewrite contains_dslash_cons, IH by done.
  by rewrite bool_decide_eq_false_2.
Qed.

Lemma slash_free_startswith (s : string) : slash_free s -> startswith s "/" = false.
Proof.
  intros Hfree. destruct (startswith s "/") eqn:E; [|done].
  by apply startswith_elem in E.
Qed.

Lemma slash_free_endswith (s : string) : slash_free s -> endswith s "/" = false.
Proof.
  intros Hfree. destruct (endswith s "/") eqn:E; [|done].
  by apply endswith_elem in E.
Qed.

(** Joining a slash-free piece keeps a path relative and free of doubled
    slashes. *)
Lemma os_path_join_relative (path b : string) :
  slash_free b ->
  startswith path "/" = false -> contains "//" path = false ->
  startswith (os_path_join path b) "/" = false /\
  contains "//" (os_path_join path b) = false.
Proof.
  intros Hb Hstart Hpath. unfold os_path_join.
  rewrite (slash_free_startswith b Hb).
  destruct (decide (path = "")) as [->|Hne].
  { simpl. split; [by apply slash_free_startswith|by apply slash_free_no_dslash]. }
  rewrite (bool_decide_eq_false_2 (path = "")) by done. simpl.
  destruct (endswith path "/") eqn:Hend.
  - split; [by rewrite startswith_app|].
    rewrite contains_dslash_app, Hpath, (slash_free_no_dslash b Hb),
      (slash_free_startswith b Hb). by rewrite andb_false_r.
  - split; [by rewrite startswith_app|].
    rewrite contains_dslash_app, Hpath, Hend.
    change ("/" +:+ b) with (String "/" b).
    rewrite contains_dslash_cons, (slash_free_no_dslash b Hb),
      (slash_free_startswith b Hb). done.
Qed.

Lemma join_pieces_relative (p : list string) (path : string) :
  Forall slash_free p ->
  startswith path "/" = false -> contains "//" path = false ->
  startswith (fold_left os_path_join p path) "/" = false /\
  contains "//" (fold_left os_path_join p path) = false.
Proof.
  revert path. induction p as [|b p IH]; intros path Hp Hs Hc; [done|].
  apply Forall_cons in Hp as [Hb Hp]. simpl.
  destruct (os_path_join_relative path b Hb Hs Hc) as [Hs' Hc'].
  by apply IH.
Qed.

Lemma substring_prefix_app (p r : string) :
  substring 0 (String.length p) (p +:+ r) = p.
Proof.
  induction p as [|c p IH]; [by destruct r|].
  change (String c (substring 0 (String.length p) (p +:+ r)) = String c p).
  by rewrite IH.
Qed.

(** Dropping the first and the last character. *)
Lemma slice_inner (c x : ascii) (p : string) :
  slice (String c (p +:+ String x "")) 1 (-1) = p.
Proof.
  unfold slice. cbn [String.length]. rewrite string_length_app.
  cbn [String.length].
  change (1 <? 0)%Z with false. change (-1 <? 0)%Z with true. cbv iota.
  replace (Z.min 1 (Z.of_nat (S (String.length p + 1)))) with 1%Z by lia.
  replace (Z.max 0 (-1 + Z.of_nat (S (String.length p + 1))) - 1)%Z
    with (Z.of_nat (String.length p)) by lia.
  rewrite Nat2Z.id. change (Z.to_nat 1) with 1.
  change (substring 0 (String.length p) (p +:+ String x "") = p).
  apply substring_prefix_app.
Qed.

(** Between pieces that are neither empty nor hold a slash, the join puts
    one slash. *)
Lemma join_pieces_plain (p : list string) (path : string) :
  path <> "" -> endswith path "/" = false ->
  Forall (fun b => b <> "" /\ slash_free b) p ->
  fold_left os_path_join p path =
    path +:+ fold_right (fun b r => String "/" b +:+ r) "" p.
Proof.
  revert path. induction p as [|b p IH]; intros path Hne Hend Hp.
  - simpl. by rewrite string_app_nil_r.
  - apply Forall_cons in Hp as [[Hb Hfree] Hp]. cbn [fold_left fold_right].
    assert (os_path_join path b = path +:+ String "/" b) as ->.
    { unfold os_path_join.
      rewrite (slash_free_startswith b Hfree), Hend.
      by rewrite (bool_decide_eq_false_2 (path = "")). }
    rewrite IH; [|by destruct path| |done].
    + by rewrite string_app_assoc.
    + rewrite endswith_app by done.
      change (String "/" b) with ("/" +:+ b).
      rewrite endswith_app by done. by apply slash_free_endswith.
Qed.

Lemma segments_join (s : string) :
  "" ∉ segments s ->
  fold_left os_path_join (split s "/").2 (split s "/").1 = s.
Proof.
  unfold segments. intros Hseg.
  apply not_elem_of_cons in Hseg as [Ha Hp].
  pose proof (split_pieces_free s "/") as [Hfa Hfp].
  rewrite join_pieces_plain.
  - apply split_join.
  - done.
  - by apply slash_free_endswith.
  - rewrite Forall_forall in Hfp. apply Forall_forall. intros b Hb. split.
    + intros ->. done.
    + by apply Hfp.
Qed.

Lemma concat_snoc (sep : string) (l : list string) (x : string) :
  l <> [] -> String.concat sep (l ++ [x]) = String.concat sep l +:+ sep +:+ x.
Proof.
  induction l as [|y l IH]; [done|]. intros _.
  destruct l as [|z l]; [done|].
  change (String.concat sep ((y :: z :: l) ++ [x]))
    with (y +:+ sep +:+ String.concat sep ((z :: l) ++ [x])).
  rewrite IH by done.
  change (String.concat sep (y :: z :: l))
    with (y +:+ sep +:+ String.concat sep (z :: l)).
  by rewrite !string_app_assoc.
Qed.

Lemma kept_snoc (P : list string) (b : string) :
  kept (P ++ [b]) = kept P ++ (if bool_decide (b = "") then [] else [b]).
Proof.
  unfold kept. rewrite List.filter_app. simpl. by destruct (bool_decide (b = "")).
Qed.

(** The join of pieces that are kept neither is empty nor ends in a
    slash. *)
Lemma concat_kept_end (P : list string) :
  Forall slash_free P -> kept P <> [] ->
  String.concat "/" (kept P) <> "" /\
  endswith (String.concat "/" (kept P)) "/" = false.
Proof.
  intros Hfree Hne.
  assert (Forall (fun b => b <> "" /\ slash_free b) (kept P)) as Hk.
  { apply Forall_forall. intros b Hb.
    apply list_elem_of_In, filter_In in Hb as [Hb Hnb].
    apply negb_true_iff, bool_decide_eq_false in Hnb. split; [done|].
    rewrite Forall_forall in Hfree. by apply Hfree, list_elem_of_In. }
  destruct (kept P) as [|y l] using rev_ind; [done|]. clear IHl.
  apply Forall_app in Hk as [_ Hx]. apply Forall_singleton in Hx as [Hx Hfx].
  destruct (decide (l = [])) as [->|Hl].
  - simpl. split; [done|]. by apply slash_free_endswith.
  - rewrite concat_snoc by done. split.
    + intros Heq. destruct (String.concat "/" l); [|done].
      discriminate.
    + rewrite <- string_app_assoc, endswith_app by done.
      by apply slash_free_endswith.
Qed.

(** One step of the join on the path of the pieces read so far. *)
Lemma os_path_join_collapse (P : list string) (b : string) :
  P <> [] -> Forall slash_free P -> slash_free b ->
  os_path_join (collapse P) b = collapse (P ++ [b]).
Proof.
  intros HP Hfree Hb. unfold collapse at 2.
  rewrite kept_snoc, last_snoc.
  unfold os_path_join. rewrite (slash_free_startswith b Hb).
  unfold collapse.
  destruct (decide (kept P = [])) as [Hk|Hk].
  - rewrite Hk. cbn [String.concat app negb andb].
    rewrite (bool_decide_eq_true_2 ([] = [])) by done. cbn [negb andb].
    change ("" +:+ "") with "". rewrite (bool_decide_eq_true_2 ("" = "")) by done.
    cbn [orb]. change ("" +:+ b) with b.
    destruct (decide (b = "")) as [->|Hne].
    + by rewrite (bool_decide_eq_true_2 ("" = "")) by done.
    + rewrite (bool_decide_eq_false_2 (b = "")) by done.
      rewrite (bool_decide_eq_false_2 ([b] = [])) by done.
      rewrite (bool_decide_eq_false_2 (Some b = Some "")) by congruence.
      cbn [String.concat negb andb]. by rewrite string_app_nil_r.
  - rewrite (bool_decide_eq_false_2 (kept P = [])) by done. cbn [negb andb].
    destruct (concat_kept_end P Hfree Hk) as [HJ Hend].
    set (J := String.concat "/" (kept P)) in *.
    assert (String.concat "/" (kept P ++ (if bool_decide (b = "") then [] else [b]))
            +:+ (if negb (bool_decide (kept P ++ (if bool_decide (b = "") then [] else [b]) = []))
                    && bool_decide (Some b = Some "") then "/" else "")
            = J +:+ "/" +:+ b) as ->.
    { destruct (decide (b = "")) as [->|Hne].
      - rewrite (bool_decide_eq_true_2 ("" = "")) by done.
        rewrite app_nil_r. fold J.
        rewrite (bool_decide_eq_false_2 (kept P = [])) by done.
        by rewrite (bool_decide_eq_true_2 (Some "" = Some "")) by done.
      - rewrite (bool_decide_eq_false_2 (b = "")) by done.
        rewrite (bool_decide_eq_false_2 (kept P ++ [b] = []))
          by (by intros [_ ?]%app_eq_nil).
        rewrite (bool_decide_eq_false_2 (Some b = Some "")) by congruence.
        cbn [negb andb]. rewrite concat_snoc by done. fold J.
        by rewrite string_app_nil_r. }
    destruct (bool_decide (last P = Some "")).
    + assert (endswith (J +:+ "/") "/" = true) as -> by apply endswith_snoc.
      rewrite orb_true_r. by rewrite !string_app_assoc.
    + rewrite !string_app_nil_r, Hend.
      by rewrite (bool_decide_eq_false_2 (J = "")) by done.
Qed.

Lemma join_pieces_collapse (r P : list string) :
  P <> [] -> Forall slash_free (P ++ r) ->
  fold_left os_path_join r (collapse P) = collapse (P ++ r).
Proof.
  revert P. induction r as [|b r IH]; intros P HP Hfree.
  - by rewrite app_nil_r.
  - simpl. apply Forall_app in Hfree as [HfP Hfr].
    apply Forall_cons in Hfr as [Hb Hfr].
    rewrite os_path_join_collapse by done.
    rewrite IH.
    + by rewrite <- app_assoc.
    + by intros [_ ?]%app_eq_nil.
    + rewrite <- app_assoc. simpl. apply Forall_app. split; [done|].
      by constructor.
Qed.

Lemma collapse_singleton (a : string) : collapse [a] = a.
Proof.
  unfold collapse, kept. simpl.
  destruct (decide (a = "")) as [->|Hne]; [done|].
  rewrite (bool_decide_eq_false_2 (a = "")) by done. simpl.
  rewrite (bool_decide_eq_false_2 (Some a = Some "")) by congruence.
  by rewrite string_app_nil_r.
Qed.

(** The join of the pieces of a name. *)
Lemma join_segments (s : string) :
  fold_left os_path_join (split s "/").2 (split s "/").1 =
    collapse (segments s).
Proof.
  pose proof (split_pieces_free s "/") as [Ha Hp].
  unfold segments. rewrite <- (collapse_singleton (split s "/").1) at 1.
  apply (join_pieces_collapse _ [(split s "/").1]); [done|].
  by constructor.
Qed.

(** X12. [valid_class_name] in full. The empty name raises [IndexError]
    and no other name raises. A name that ends in a semicolon loses its
    first and its last character; then, in both cases, the pieces between
    the slashes that are not empty are joined by single slashes, so that a
    slash at the start is dropped and a run of slashes counts as one, and
    one slash is kept at the end when the name ends in one. The result
    never starts with a slash and never holds two slashes in a row. *)
Theorem valid_class_name_collapses_slashes :
  valid_class_name "" = Raise IndexError /\
  valid_class_name ";" = Ok "" /\
  (forall c inner,
     valid_class_name (String c (inner +:+ ";")) =
       Ok (collapse (segments inner))) /\
  (forall name, name <> "" -> endswith name ";" = false ->
     valid_class_name name = Ok (collapse (segments name))) /\
  (forall name path, valid_class_name name = Ok path ->
     startswith path "/" = false /\ contains "//" path = false).
Proof.
  split; [reflexivity|]. split; [reflexivity|]. split; [|split].
  - intros c inner. unfold valid_class_name.
    change (String c (inner +:+ ";")) with (String c inner +:+ String ";" "") at 1.
    rewrite getitem_last_snoc, bool_decide_eq_true_2 by done.
    rewrite slice_inner.
    pose proof (join_segments inner) as Hjoin.
    destruct (split inner "/") as [a p]. by rewrite <- Hjoin.
  - intros name Hne Hend. unfold valid_class_name.
    destruct (string_snoc_inv name Hne) as (p0 & x & Heq).
    rewrite Heq at 1. rewrite getitem_last_snoc.
    rewrite Heq, endswith_snoc in Hend. rewrite Hend.
    pose proof (join_segments name) as Hjoin.
    destruct (split name "/") as [a p]. by rewrite <- Hjoin.
  - intros name path Hrun. unfold valid_class_name in Hrun.
    destruct (getitem name (-1)) as [c|e]; [|done].
    set (name' := if bool_decide (c = ";"%char) then _ else _) in Hrun.
    pose proof (split_pieces_free name' "/") as [Ha Hp].
    destruct (split name' "/") as [a p]. simpl in Ha, Hp.
    injection Hrun as <-.
    apply join_pieces_relative; [done|by apply slash_free_startswith|
                                 by apply slash_free_no_dslash].
Qed.

(** X13. For a type descriptor [L<path>;] whose path has no empty component
    the result is the path; a name that does not end in a semicolon and has
    no empty component is returned as it is. *)
Theorem valid_class_name_descriptor (path : string)
    (Hseg : "" ∉ segments path) :
  (forall c, valid_class_name (String c (path +:+ ";")) = Ok path) /\
  (endswith path ";" = false -> valid_class_name path = Ok path).
Proof.
  split.
  - intros c. unfold valid_class_name.
    change (String c (path +:+ ";")) with (String c path +:+ String ";" "") at 1.
    rewrite getitem_last_snoc.
    rewrite bool_decide_eq_true_2 by done.
    rewrite slice_inner.
    pose proof (segments_join path Hseg) as Hjoin.
    destruct (split path "/") as [a ps]. simpl in Hjoin. by rewrite Hjoin.
  - intros Hend. unfold valid_class_name.
    assert (path <> "") as Hne.
    { intros ->. apply Hseg. by left. }
    destruct (string_snoc_inv path Hne) as (p & x & Heq).
    rewrite Heq at 1. rewrite getitem_last_snoc.
    rewrite Heq, endswith_snoc in Hend. rewrite Hend.
    pose proof (segments_join path Hseg) as Hjoin.
    destruct (split path "/") as [a ps]. simpl in Hjoin. by rewrite Hjoin.
Qed.

Lemma valid_class_name_descriptor_witness :
  valid_class_name "Lcom/example/Main;" = Ok "com/example/Main" /\
  valid_class_name "com/example/Main" = Ok "com/example/Main".
Proof.
  destruct (valid_class_name_descriptor "com/example/Main") as [Hd Hp].
  - compute_done.
  - split; [exact (Hd "L"%char)|]. apply Hp. reflexivity.
Defined.

Lemma prefix_app (sub s : string) :
  String.prefix sub s = true <-> exists post, s = sub +:+ post.
Proof.
  revert s. induction sub as [|c sub IH]; intros s.
  - split; [|by destruct s]. intros _. by exists s.
  - destruct s as [|d s]; simpl.
    + split; [done|]. by intros [post Heq].
    + destruct (ascii_dec c d) as [<-|Hne].
      * rewrite IH. split; intros [post Heq]; exists post.
        -- by rewrite Heq.
        -- by injection Heq.
      * split; [done|]. intros [post Heq]. by injection Heq.
Qed.

(** [sub in s] holds exactly when [s] is [sub] with something before and
    something after. *)
Lemma contains_spec (sub s : string) :
  contains sub s = true <-> exists pre post, s = pre +:+ sub +:+ post.
Proof.
  induction s as [|c s IH]; cbn [contains].
  - rewrite orb_false_r, prefix_app. split.
    + intros [post Heq]. by exists "", post.
    + intros (pre & post & Heq). destruct pre; [by exists post|done].
  - rewrite orb_true_iff, prefix_app, IH. split.
    + intros [[post Heq]|(pre & post & Heq)].
      * by exists "", post.
      * exists (String c pre), post. by rewrite Heq.
    + intros (pre & post & Heq). destruct pre as [|d pre].
      * left. by exists post.
      * right. exists pre, post. by injection Heq.
Qed.

(** ** [plot] *)

Section plot_facts.
Context {N : Type} `{Plot.MethodNode N}.

Lemma classify_filter (ns internal external : list N) :
  Plot.classify ns internal external =
    (internal ++ List.filter (fun n => negb (Plot.is_external n)) ns,
     external ++ List.filter Plot.is_external ns).
Proof.
  revert internal external.
  induction ns as [|n ns IH]; intros internal external; simpl.
  - by rewrite !app_nil_r.
  - destruct (Plot.is_external n); simpl; rewrite IH;
      by rewrite <- app_assoc.
Qed.

Lemma filter_split_Permutation (f : N -> bool) (l : list N) :
  List.filter (fun n => negb (f n)) l ++ List.filter f l ≡ₚ l.
Proof.
  induction l as [|n l IH]; [done|]. simpl.
  destruct (f n); simpl.
  - rewrite <- Permutation_middle. by constructor.
  - by constructor.
Qed.

(** X14. [plot] draws every node of the call graph exactly once: the nodes
    for which [is_external] is false in red and the others in blue, each
    group in the order of the graph, and it labels each node with its class
    name followed by its name. *)
Theorem plot_draws_each_node_once (cg : DiGraph N) :
  exists internal external labels,
    Plot.plot cg =
      [Plot.SpringLayout; Plot.DrawNodes "r" internal;
       Plot.DrawNodes "b" external; Plot.DrawEdges; Plot.DrawLabels labels;
       Plot.PltDraw; Plot.PltShow] /\
    internal ++ external ≡ₚ nodes cg /\
    sublist internal (nodes cg) /\ sublist external (nodes cg) /\
    Forall (fun n => Plot.is_external n = false) internal /\
    Forall (fun n => Plot.is_external n = true) external /\
    map fst labels = nodes cg /\
    Forall (fun nl => snd nl = Plot.class_name (fst nl) +:+ Plot.name (fst nl))
           labels.
Proof.
  unfold Plot.plot. rewrite classify_filter. simpl.
  eexists _, _, _. split; [reflexivity|].
  split; [apply filter_split_Permutation|].
  assert (forall f : N -> bool, sublist (List.filter f (nodes cg)) (nodes cg))
    as Hsub.
  { intros f. induction (nodes cg) as [|n l IH]; [done|]. simpl.
    destruct (f n); by constructor. }
  split; [apply Hsub|]. split; [apply Hsub|].
  split; [|split; [|split]].
  - apply Forall_forall. intros n Hn.
    apply list_elem_of_In, filter_In in Hn as [_ Hn].
    by apply negb_true_iff.
  - apply Forall_forall. intros n Hn.
    by apply list_elem_of_In, filter_In in Hn as [_ Hn].
  - rewrite map_map. simpl. apply map_id.
  - apply Forall_forall. intros nl Hnl.
    apply list_elem_of_In, in_map_iff in Hnl as (n & <- & _). done.
Qed.

End plot_facts.

(** ** [androdis_main] *)

Section androdis_facts.
Import Androdis.

Lemma length_fill (n : nat) (c : ascii) : String.length (fill n c) = n.
Proof.
  induction n as [|n IH]; [done|].
  change (S (String.length (fill n c)) = S n). by rewrite IH.
Qed.

Lemma to_N_zeros (k : nat) (s : string) :
  HexString.Raw.to_N (fill k "0" +:+ s) 0 = HexString.Raw.to_N s 0.
Proof. induction k as [|k IH]; [done|]. exact IH. Qed.

Lemma to_N_hex (n : N) : HexString.Raw.to_N (hex n) 0 = n.
Proof.
  destruct n as [|p]; [done|]. unfold hex.
  by rewrite HexString.Raw.to_N_of_pos.
Qed.

(** A number below [16^k] has at most [k] hexadecimal digits. *)
Lemma length_of_pos (k : nat) (p : positive) (rest : string) :
  (Z.pos p < 16 ^ Z.of_nat k)%Z ->
  String.length (HexString.Raw.of_pos p rest) <= k + String.length rest.
Proof.
  revert p rest. induction k as [|k IH]; intros p rest Hlt.
  { simpl in Hlt. lia. }
  rewrite Nat2Z.inj_succ, Z.pow_succ_r in Hlt by lia.
  do 4 try destruct p as [p|p|]; simpl; try lia;
    (etransitivity; [apply IH; lia|simpl; lia]).
Qed.

Lemma length_hex (n : N) (k : nat) :
  0 < k -> (Z.of_N n < 16 ^ Z.of_nat k)%Z -> String.length (hex n) <= k.
Proof.
  intros Hk Hlt. destruct n as [|p]; simpl; [lia|].
  pose proof (length_of_pos k p "" Hlt) as Hlen. simpl in Hlen. lia.
Qed.

(** X15. An address is printed with at least eight hexadecimal digits, with
    exactly eight when it is below [2^32], and nothing is lost: a
    non-negative address is read back from its digits. *)
Theorem format_08x_fixed_width (n : Z) :
  8 <= String.length (format_08x n) /\
  ((0 <= n < 2 ^ 32)%Z -> String.length (format_08x n) = 8) /\
  ((0 <= n)%Z -> HexString.Raw.to_N (format_08x n) 0 = Z.to_N n).
Proof.
  unfold format_08x. split; [|split].
  - rewrite !string_length_app, length_fill. lia.
  - intros [Hle Hlt]. destruct (Z.ltb_spec n 0); [lia|].
    change ("" +:+ ?s) with s. rewrite string_length_app, length_fill.
    simpl String.length.
    pose proof (length_hex (Z.abs_N n) 8) as Hlen.
    rewrite N2Z.inj_abs_N, Z.abs_eq in Hlen by done.
    change (16 ^ Z.of_nat 8)%Z with (2 ^ 32)%Z in Hlen. lia.
  - intros Hle. destruct (Z.ltb_spec n 0); [lia|].
    change ("" +:+ ?s) with s. rewrite to_N_zeros, to_N_hex.
    by rewrite Zabs2N.abs_N_nonneg.
Qed.

Lemma sweep_lookup (ins : list Instruction) (nb : nat) (idx : Z) (k : nat)
    (i : Instruction) :
  ins !! k = Some i ->
  sweep nb idx ins !! (3 * k) = Some (header (nb + k) (address idx ins k)) /\
  sweep nb idx ins !! (3 * k + 1) = Some (InstructionShow i (address idx ins k)) /\
  sweep nb idx ins !! (3 * k + 2) = Some (Stdout nl).
Proof.
  revert nb idx k. induction ins as [|j ins IH]; intros nb idx k Hk; [done|].
  destruct k as [|k].
  - injection Hk as ->. unfold address. simpl.
    by rewrite Nat.add_0_r, Z.add_0_r.
  - simpl in Hk.
    destruct (IH (S nb) (idx + Z.of_nat (get_length j))%Z k Hk) as (H0 & H1 & H2).
    replace (3 * S k) with (S (S (S (3 * k)))) by lia.
    assert (address idx (j :: ins) (S k) =
            address (idx + Z.of_nat (get_length j)) ins k) as ->.
    { unfold address. simpl. lia. }
    replace (nb + S k) with (S nb + k) by lia.
    done.
Qed.

Lemma length_sweep (ins : list Instruction) (nb : nat) (idx : Z) :
  length (sweep nb idx ins) = 3 * length ins.
Proof.
  revert nb idx. induction ins as [|j ins IH]; intros nb idx; [done|].
  simpl. rewrite IH. lia.
Qed.

(** X16. Outside the listing mode, and for a DEX object that counts as true,
    [androdis_main] prints three items per instruction of the sweep and
    nothing else. The sweep covers [size] bytes from [offset], the whole
    buffer length when [size] is 0. The header of the [k]-th instruction
    carries the counter [k] and the address [offset] plus the lengths of
    the instructions before it, and the instruction is shown at that
    address. *)
Theorem androdis_sweep_addresses (offset size : Z) (buf : string) (d : DEX)
    (k : nat) (i : Instruction)
    (Hmode : size <> 0%Z \/ offset <> 0%Z)
    (Htruth : truth d = true) :
  let size' := if bool_decide (size = 0%Z)
               then Z.of_nat (String.length buf) else size in
  let ins := disassemble d offset size' in
  let out := androdis_main offset size buf d in
  length out = 3 * length ins /\
  (ins !! k = Some i ->
   out !! (3 * k) = Some (header k (address offset ins k)) /\
   out !! (3 * k + 1) = Some (InstructionShow i (address offset ins k)) /\
   out !! (3 * k + 2) = Some (Stdout nl)).
Proof.
  intros size' ins out.
  assert (out = sweep 0 offset ins) as ->.
  { unfold out, androdis_main. fold size'. fold ins. rewrite Htruth.
    destruct Hmode as [Hs|Ho].
    - by rewrite (bool_decide_eq_false_2 (size = 0%Z)).
    - rewrite (bool_decide_eq_false_2 (offset = 0%Z)) by done.
      by rewrite andb_false_r. }
  split; [apply length_sweep|].
  intros Hk. exact (sweep_lookup ins 0 offset k i Hk).
Qed.

Lemma androdis_sweep_addresses_witness :
  let i0 := {| disasm := "const/4 v0, 0"; get_length := 2 |} in
  let i1 := {| disasm := "return-void"; get_length := 2 |} in
  let d := {| get_classes := []; disassemble := fun _ _ => [i0; i1];
              truth := true |} in
  androdis_main 16 0 "dex" d !! 4 = Some (InstructionShow i1 18).
Proof.
  intros i0 i1 d.
  refine (proj1 (proj2 (proj2 (androdis_sweep_addresses 16 0 "dex" d 1 i1
                                 _ _) _))).
  - right. discriminate.
  - reflexivity.
  - reflexivity.
Defined.

End androdis_facts.

(** ** [androsign_main] *)

Section androsign_facts.
Import Androsign.

Lemma lower_char_idemp (c : ascii) : lower_char (lower_char c) = lower_char c.
Proof. destruct c as [[] [] [] [] [] [] [] []]; reflexivity. Qed.

Lemma lower_idemp (s : string) : lower (lower s) = lower s.
Proof.
  induction s as [|c s IH]; [done|]. simpl. by rewrite lower_char_idemp, IH.
Qed.

Lemma and_then_ext (a a' b b' : block) :
  a = a' -> b = b' -> and_then a b = and_then a' b'.
Proof. by intros -> ->. Qed.

Lemma for_each_ext {A : Type} (f g : A -> block) (l : list A) :
  (forall x, f x = g x) -> for_each f l = for_each g l.
Proof.
  intros Hfg. induction l as [|x l IH]; [done|]. simpl. by rewrite Hfg, IH.
Qed.

Lemma flat_map_ext_all {A B : Type} (f g : A -> list B) (l : list A) :
  (forall x, f x = g x) -> flat_map f l = flat_map g l.
Proof.
  intros Hfg. induction l as [|x l IH]; [done|]. simpl. by rewrite Hfg, IH.
Qed.

Lemma hash_lines_lower (L : Libs) (h : string) (all : bool) (cert : bytes) :
  hash_lines L h all cert = hash_lines L (lower h) all cert.
Proof. unfold hash_lines. by rewrite lower_idemp. Qed.

Lemma try_report_lower (L : Libs) (h : string) (all show : bool) (path : string) :
  try_report L h all show path = try_report L (lower h) all show path.
Proof.
  unfold try_report. destruct (load_APK L path) as [a|]; [|done].
  assert (apk_report L h all show path a =
          apk_report L (lower h) all show path a) as ->; [|done].
  unfold apk_report. do 2 (apply and_then_ext; [done|]).
  apply and_then_ext; [|done].
  apply for_each_ext. intros cert. unfold certificate_report.
  by rewrite hash_lines_lower.
Qed.

(** X17. The name of the hash function is matched without regard to case: a
    run with a name and the run with its lower-case form are the same.
    When the lower-case name is none of [md5], [sha1], [sha256], [sha512]
    the run prints the two lines to the error stream and exits with status
    1 before any file is opened; otherwise it returns normally, whatever
    the files hold. *)
Theorem androsign_hash_name_any_case (L : Libs) (args_hash : string)
    (args_all show : bool) (args_apk : list string) :
  androsign_main L args_hash args_all show args_apk =
    androsign_main L (lower args_hash) args_all show args_apk /\
  (lower args_hash ∉ ["md5"; "sha1"; "sha256"; "sha512"] ->
   androsign_main L args_hash args_all show args_apk =
     ([Stderr ("Hash function " +:+ lower args_hash +:+ " not supported!");
       Stderr "Use one of md5, sha1, sha256, sha512"],
      Raise (SystemExit 1))) /\
  (lower args_hash ∈ ["md5"; "sha1"; "sha256"; "sha512"] ->
   (androsign_main L args_hash args_all show args_apk).2 = Ok ()).
Proof.
  split; [|split].
  - unfold androsign_main. rewrite lower_idemp.
    destruct (bool_decide _); [|done]. f_equal.
    apply flat_map_ext_all. intros path. by rewrite try_report_lower.
  - intros Hbad. unfold androsign_main.
    by rewrite bool_decide_eq_false_2.
  - intros Hgood. unfold androsign_main.
    by rewrite bool_decide_eq_true_2.
Qed.

Lemma extends_refl (a : block) : extends a a.
Proof. by split. Qed.

Lemma extends_and_then (a a' b b' : block) :
  extends a a' -> extends b b' -> extends (and_then a b) (and_then a' b').
Proof.
  destruct a as [ta [|]], a' as [ta' oa'], b as [tb ob], b' as [tb' ob'];
    unfold extends, and_then; simpl; intros [<- Ha] [<- Hb]; simpl.
  - split; [done|]. by apply sublist_app.
  - by split.
Qed.

Lemma extends_for_each {A : Type} (f g : A -> block) (l : list A) :
  (forall x, extends (f x) (g x)) -> extends (for_each f l) (for_each g l).
Proof.
  intros Hfg. induction l as [|x l IH]; [apply extends_refl|].
  simpl. by apply extends_and_then.
Qed.

Lemma hashfunctions_get_elem (k : string) (f : hashfunction) :
  hashfunctions_get k = Some f -> (k, f) ∈ hashfunctions.
Proof.
  unfold hashfunctions_get. intros Hget.
  destruct (List.find _ hashfunctions) as [[k' f']|] eqn:Hfind; [|done].
  injection Hget as ->. apply find_some in Hfind as [Hin Hk].
  apply bool_decide_eq_true in Hk. simpl in Hk. subst k'.
  by apply list_elem_of_In.
Qed.

Lemma hashfunctions_get_valid (k : string) :
  k ∈ map fst hashfunctions -> is_Some (hashfunctions_get k).
Proof.
  intros Hk. simpl in Hk.
  repeat (apply elem_of_cons in Hk as [->|Hk]; [by eexists|]).
  by apply elem_of_nil in Hk.
Qed.

Lemma hash_lines_extends (L : Libs) (h : string) (cert : bytes) :
  lower h ∈ map fst hashfunctions ->
  extends (hash_lines L h false cert) (hash_lines L h true cert).
Proof.
  intros Hvalid. unfold hash_lines. cbn [negb].
  destruct (hashfunctions_get_valid _ Hvalid) as [f Hf]. rewrite Hf.
  split; [done|]. cbn [say fst map].
  apply hashfunctions_get_elem in Hf.
  apply (list_elem_of_fmap_2
           (fun kv => Stdout (fst kv +:+ " " +:+ hexdigest L (snd kv) cert)))
    in Hf.
  rewrite <- map_fmap, <- map_map in Hf. simpl fst in Hf. simpl snd in Hf.
  apply list_elem_of_split in Hf as (l1 & l2 & ->).
  apply sublist_inserts_l, sublist_skip, sublist_nil_l.
Qed.

(** X18. With a supported hash name, the option to print all hashes only adds
    lines: what a run prints without it appears, in the same order, in what
    the run prints with it, and the selected hash line of each certificate
    is one of the lines printed for it. Both runs end the same way. *)
Theorem androsign_all_extends_single (L : Libs) (args_hash : string)
    (show : bool) (args_apk : list string) :
  sublist (androsign_main L args_hash false show args_apk).1
          (androsign_main L args_hash true show args_apk).1 /\
  (androsign_main L args_hash false show args_apk).2 =
    (androsign_main L args_hash true show args_apk).2.
Proof.
  unfold androsign_main.
  destruct (decide (lower args_hash ∈ map fst hashfunctions)) as [Hv|Hv].
  2: { by rewrite bool_decide_eq_false_2. }
  rewrite bool_decide_eq_true_2 by done. split; [|done]. cbn [fst].
  generalize (bool_decide (1 < length args_apk)). intros sep.
  induction args_apk as [|path l IH]; [done|]. simpl.
  apply sublist_app; [|exact IH]. apply sublist_app; [|done].
  unfold try_report.
  destruct (load_APK L path) as [a|]; [|done].
  assert (extends (apk_report L args_hash false show path a)
                  (apk_report L args_hash true show path a)) as [H2 H1].
  { unfold apk_report.
    do 2 (apply extends_and_then; [apply extends_refl|]).
    apply extends_and_then; [|apply extends_refl].
    apply extends_for_each. intros cert. unfold certificate_report.
    apply extends_and_then; [apply extends_refl|].
    apply extends_and_then; [|apply extends_refl].
    by apply hash_lines_extends. }
  rewrite <- H2. destruct (apk_report L args_hash false show path a).2; [done|].
  by apply sublist_app.
Qed.

End androsign_facts.

(** ** [androaxml_main] *)

Section androaxml_facts.
Import Androaxml.

(** A brace-free text has no first brace, and text put after a name does
    not change where the first brace of the name is. *)
Lemma first_brace_app (s r : string) :
  first_brace (s +:+ r) =
    match first_brace s with
    | Some rest => Some (rest +:+ r)
    | None => first_brace r
    end.
Proof.
  induction s as [|c s IH]; [done|].
  change (String c s +:+ r) with (String c (s +:+ r)). cbn [first_brace].
  by destruct (bool_decide (c = "{"%char) || bool_decide (c = "}"%char)).
Qed.

Lemma prefix_app_l (p s r : string) :
  String.prefix p s = true -> String.prefix p (s +:+ r) = true.
Proof.
  revert s. induction p as [|c p IH]; intros s.
  { intros _. by destruct (s +:+ r). }
  destruct s as [|d s]; [done|].
  change (String d s +:+ r) with (String d (s +:+ r)). cbn [String.prefix].
  destruct (ascii_dec c d); [apply IH|done].
Qed.

(** The message of line 27 has its first brace where the resource name
    has it. *)
Lemma missing_resource_first_brace (name : string) :
  first_brace ("The APK does not contain a file called '" +:+ name +:+ "'") =
    match first_brace name with
    | Some rest => Some (rest +:+ "'")
    | None => None
    end.
Proof.
  transitivity (first_brace (name +:+ "'")); [reflexivity|].
  rewrite first_brace_app. by destruct (first_brace name).
Qed.

(** X19. [androaxml_main] ends in one of four ways and no other: the
    document is written to the file [outp], when [outp] is given and not
    empty; or it is written to the terminal; or one error is logged, the
    process exits with status 1 and nothing is written; or, with nothing
    logged and nothing written, the formatting of the error message
    raises. The last happens only for an APK that lacks the resource asked
    for, when the name of the resource holds a brace. For such a resource
    a name without a brace is reported by the one logged error and the
    exit with status 1, and a name whose first brace opens the field [{}]
    raises [IndexError]. *)
Theorem androaxml_one_sink {xml : Type} (L : Libs xml) (inp : string)
    (outp resource : option string) :
  let run := androaxml_main L inp outp resource in
  let missing name :=
    is_android L inp = Some "APK" /\ resource = Some name /\ name <> "" /\
    name ∉ files (load_APK L inp) in
  ((exists path buff, outp = Some path /\ path <> "" /\
                      run = ([FileWrite path buff], Ok ())) \/
   (exists buff, truthy outp = false /\
                 run = ([StdoutWrite (highlight L buff)], Ok ())) \/
   (exists msg, run = ([LogError msg], Raise (SystemExit 1))) \/
   (exists name rest e, missing name /\ first_brace name = Some rest /\
                        run = ([], Raise (FormatError e)))) /\
  (forall name, missing name -> first_brace name = None ->
     run = ([LogError ("The APK does not contain a file called '" +:+
                       name +:+ "'")], Raise (SystemExit 1))) /\
  (forall name rest, missing name -> first_brace name = Some rest ->
     String.prefix "{}" rest = true ->
     run = ([], Raise (FormatError "IndexError"))).
Proof.
  intros run missing.
  assert (forall name, missing name ->
            run = match logger_error_file L
                          ("The APK does not contain a file called '" +:+
                           name +:+ "'") with
                  | (t, Ok _) => (t, Raise (SystemExit 1))
                  | (t, Raise e) => (t, Raise e)
                  end) as Hmiss.
  { intros name (Hapk & -> & Hne & Hout). unfold run, androaxml_main.
    rewrite bool_decide_eq_true_2 by done. cbn [truthy or_else].
    rewrite !(bool_decide_eq_false_2 (name = "")) by done. cbn [negb].
    by rewrite bool_decide_eq_false_2. }
  split; [|split].
  - assert (forall axml,
      (exists path buff, outp = Some path /\ path <> "" /\
         (emit_buff L outp (tostring L axml), Ok ()) =
           ([FileWrite path buff], Ok () : res unit)) \/
      (exists buff, truthy outp = false /\
         (emit_buff L outp (tostring L axml), Ok ()) =
           ([StdoutWrite (highlight L buff)], Ok () : res unit))) as Hfinish.
    { intros axml. unfold emit_buff. destruct outp as [path|]; simpl.
      - destruct (decide (path = "")) as [->|Hne].
        + right. by eexists.
        + left. exists path. rewrite bool_decide_eq_false_2 by done. simpl.
          by eexists.
      - right. by eexists. }
    assert (forall axml,
      let r := (emit_buff L outp (tostring L axml), Ok () : res unit) in
      (exists path buff, outp = Some path /\ path <> "" /\
                         r = ([FileWrite path buff], Ok ())) \/
      (exists buff, truthy outp = false /\
                    r = ([StdoutWrite (highlight L buff)], Ok ())) \/
      (exists msg, r = ([LogError msg], Raise (SystemExit 1))) \/
      (exists name rest e, missing name /\ first_brace name = Some rest /\
                           r = ([], Raise (FormatError e)))) as Hfin.
    { intros axml r. destruct (Hfinish axml) as [?|?]; auto. }
    unfold run, androaxml_main.
    destruct (decide (is_android L inp = Some "APK")) as [Hapk|Hapk].
    + rewrite bool_decide_eq_true_2 by done.
      destruct (truthy resource) eqn:Hres; [|apply Hfin].
      destruct resource as [name|]; [|done]. cbn [truthy] in Hres.
      apply negb_true_iff, bool_decide_eq_false in Hres.
      cbn [or_else]. rewrite (bool_decide_eq_false_2 (name = "")) by done.
      destruct (decide (name ∈ files (load_APK L inp))) as [Hin|Hout].
      * rewrite bool_decide_eq_true_2 by done. apply Hfin.
      * rewrite bool_decide_eq_false_2 by done.
        assert (missing name) as Hm by done.
        unfold logger_error_file, format_file.
        rewrite missing_resource_first_brace.
        destruct (first_brace name) as [rest|] eqn:Hb.
        -- destruct (String.prefix "{}" (rest +:+ "'")).
           ++ right; right; right. by exists name, rest, "IndexError".
           ++ destruct (format_fields L _) as [text|e].
              ** right; right; left. by eexists.
              ** right; right; right. by exists name, rest, e.
        -- right; right; left. by eexists.
    + rewrite bool_decide_eq_false_2 by done.
      destruct (contains ".xml" inp); [apply Hfin|].
      right; right; left. by eexists.
  - intros name Hm Hb. rewrite (Hmiss name Hm).
    unfold logger_error_file, format_file.
    by rewrite missing_resource_first_brace, Hb.
  - intros name rest Hm Hb Hfield. rewrite (Hmiss name Hm).
    unfold logger_error_file, format_file.
    rewrite missing_resource_first_brace, Hb.
    by rewrite (prefix_app_l "{}" rest "'" Hfield).
Qed.

Lemma androaxml_one_sink_witness :
  androaxml_main (xml := string)
    {| is_android := fun _ => Some "APK"; load_APK := fun _ =>
         {| files := ["AndroidManifest.xml"]; get_file := fun _ => "";
            get_android_manifest_xml := "<manifest/>" |};
       get_xml_obj := fun b => b; readFile := fun _ => "";
       tostring := fun x => x; highlight := fun b => b;
       format_fields := fun t => Text t |}
    "app.apk" None (Some "res/{}.xml") =
  ([], Raise (FormatError "IndexError")).
Proof.
  refine (proj2 (proj2 (androaxml_one_sink _ "app.apk" None
                          (Some "res/{}.xml")))
            "res/{}.xml" "{}.xml" _ _ _).
  - split; [reflexivity|]. split; [reflexivity|]. split; [discriminate|].
    intros Hin. apply list_elem_of_singleton in Hin. discriminate.
  - reflexivity.
  - reflexivity.
Defined.

(** X20. For an input that is not an APK, the test for an XML file is that
    [.xml] occurs somewhere in the name, not that the name ends with it:
    every such name is read and decoded, every other name ends the run with
    the error and status 1, and the [resource] argument plays no part. *)
Theorem androaxml_xml_anywhere_in_name {xml : Type} (L : Libs xml)
    (inp : string) (outp resource : option string)
    (Hkind : is_android L inp <> Some "APK") :
  ((exists pre post, inp = pre +:+ ".xml" +:+ post) ->
   androaxml_main L inp outp resource =
     (emit_buff L outp (tostring L (get_xml_obj L (readFile L inp))), Ok ())) /\
  ((~ exists pre post, inp = pre +:+ ".xml" +:+ post) ->
   androaxml_main L inp outp resource =
     ([LogError "Unknown file type"], Raise (SystemExit 1))) /\
  (forall resource',
     androaxml_main L inp outp resource' = androaxml_main L inp outp resource).
Proof.
  unfold androaxml_main. rewrite bool_decide_eq_false_2 by done.
  split; [|split; [|done]].
  - intros Hin. apply contains_spec in Hin. by rewrite Hin.
  - intros Hnot. destruct (contains ".xml" inp) eqn:Hc; [|done].
    by apply contains_spec in Hc.
Qed.

Lemma androaxml_xml_anywhere_in_name_witness :
  androaxml_main (xml := string)
    {| is_android := fun _ => None; load_APK := fun _ =>
         {| files := []; get_file := fun _ => ""; get_android_manifest_xml := "" |};
       get_xml_obj := fun b => b; readFile := fun p => "<" +:+ p +:+ ">";
       tostring := fun x => x; highlight := fun b => b;
       format_fields := fun t => Text t |}
    "layout.xml.bak" (Some "out.xml") (Some "res/a.xml") =
  ([FileWrite "out.xml" "<layout.xml.bak>"], Ok ()).
Proof.
  refine (proj1 (androaxml_xml_anywhere_in_name _ "layout.xml.bak" _ _ _) _).
  - discriminate.
  - by exists "layout", ".bak".
Defined.

End androaxml_facts.

(** ** [androarsc_main] *)

Section androarsc_facts.
Import Androarsc.

(** X21. Arguments of [androarsc_main] that are missing or empty stand for
    the defaults: the first package of the table, the type [public] and
    the locale of two NUL characters. *)
Theorem androarsc_defaults (L : Androarsc.Libs) (arscobj : ARSCParser)
    (outp package typ locale : option string) (first : string)
    (rest : list string)
    (Hnames : get_packages_names arscobj = first :: rest) :
  androarsc_main L arscobj outp package typ locale =
    androarsc_main L arscobj outp (Some (or_else package first))
      (Some (or_else typ "public")) (Some (or_else locale default_locale)).
Proof.
  assert (forall o d, or_else (Some (or_else o d)) d = or_else o d) as Hidem.
  { intros [x|] d; simpl; repeat case_bool_decide; congruence. }
  unfold androarsc_main. rewrite Hnames, !Hidem.
  replace (if truthy (Some (or_else package first))
           then Ok (or_else (Some (or_else package first)) "")
           else match (first :: rest) !! 0 with
                | Some first0 => Ok first0
                | None => Raise IndexError
                end)
    with (if truthy package then Ok (or_else package "")
          else match (first :: rest) !! 0 with
               | Some first0 => Ok first0
               | None => Raise IndexError
               end : res string); [done|].
  destruct package as [p|]; simpl; repeat case_bool_decide; simpl;
    repeat case_bool_decide; congruence.
Qed.

Lemma androarsc_defaults_witness :
  let arscobj :=
    {| get_packages_names := ["com.example"];
       attributes := {[ "get_public_resources" :=
                          fun package locale => package +:+ locale ]} |} in
  let L := {| pretty_xml := fun b => b; Androarsc.highlight := fun b => b |} in
  androarsc_main L arscobj None None (Some "") None =
  androarsc_main L arscobj None (Some "com.example") (Some "public")
    (Some default_locale).
Proof.
  intros arscobj L.
  exact (androarsc_defaults L arscobj None None (Some "") None "com.example" []
           eq_refl).
Defined.

(** X22. The order of the checks in [androarsc_main]: without a package
    argument and with an empty table the run raises [IndexError] before the
    type is looked at and prints nothing; with a package argument the table
    of package names is not consulted; and once the package is settled, a
    type without the attribute [get_<type>_resources] ends the run with one
    line on the error stream and status 1, nothing written. *)
Theorem androarsc_check_order (L : Androarsc.Libs) (arscobj : ARSCParser)
    (outp package typ locale : option string) :
  (truthy package = false -> get_packages_names arscobj = [] ->
   androarsc_main L arscobj outp package typ locale = ([], Raise IndexError)) /\
  (truthy package = true ->
   forall names,
     androarsc_main L arscobj outp package typ locale =
     androarsc_main L {| get_packages_names := names;
                         attributes := attributes arscobj |}
       outp package typ locale) /\
  (truthy package = true \/ get_packages_names arscobj <> [] ->
   attributes arscobj !! ("get_" +:+ or_else typ "public" +:+ "_resources")
     = None ->
   androarsc_main L arscobj outp package typ locale =
     ([Androarsc.Stderr ("No decoder found for type: '" +:+
                         or_else typ "public" +:+
                         "'! Please open a bug report.")],
      Raise (SystemExit 1))).
Proof.
  unfold androarsc_main. split; [|split].
  - intros -> ->. done.
  - intros -> names. done.
  - intros Hpkg Hattr. rewrite Hattr.
    destruct (truthy package); [done|].
    destruct Hpkg as [|Hne]; [done|].
    by destruct (get_packages_names arscobj).
Qed.

End androarsc_facts.

(** ** [androlyze_main] *)

Section androlyze_facts.
Import Androlyze.
Context {obj : Type}.
Implicit Types (entries pre post : list (string * obj * obj)).

Lemma select_dex_first_match h pre post (d dx : obj) bound :
  Forall (fun e => e.1.1 <> h) pre ->
  select_dex h (pre ++ (h, d, dx) :: post) bound = Some (d, dx).
Proof.
  revert bound. induction pre as [|[[h_ d_] dx_] pre IH]; intros bound Hpre.
  - simpl. by rewrite bool_decide_eq_true_2.
  - apply Forall_cons in Hpre as [Hne Hpre]. simpl in Hne. simpl.
    rewrite bool_decide_eq_false_2 by congruence. by apply IH.
Qed.

Lemma select_dex_no_match h entries bound :
  Forall (fun e => e.1.1 <> h) entries ->
  select_dex h entries bound =
    match last entries with
    | Some e => Some (e.1.2, e.2)
    | None => bound
    end.
Proof.
  revert bound. induction entries as [|[[h_ d_] dx_] entries IH];
    intros bound Hall; [done|].
  apply Forall_cons in Hall as [Hne Hall]. simpl in Hne. simpl.
  rewrite bool_decide_eq_false_2 by congruence. rewrite IH by done.
  rewrite last_cons. by destruct (last entries).
Qed.

(** The events of a list that start the shell. *)
Lemma embed_not_in (t : list (event obj)) :
  Forall (fun e => match e with Embed _ => False | _ => True end) t ->
  forall b, Embed b ∉ t.
Proof.
  intros Hall b Hin. rewrite Forall_forall in Hall. exact (Hall _ Hin).
Qed.

(** X23. After a DEX file is added to the session, the objects that are
    printed, before the shell is started, are those of the first entry of
    the session whose digest is the one just returned. When no entry has
    that digest the loop runs to its end and the objects of the last entry
    are printed instead. In both cases the shell is started after the
    objects are printed, and the run ends with [TypeError] once the shell
    is left. With no entry at all the run raises [UnboundLocalError] after
    the line that announces [d], and the shell is never started. *)
Theorem androlyze_dex_selection (L : Libs obj) (filename : string)
    (Hname : filename <> "")
    (Htype : is_android L filename = Some "DEX" \/
             is_android L filename = Some "DEY") :
  let s := new_session L in
  let h := add s filename (read L filename) in
  let run := androlyze_main L None (Some filename) in
  let presented d dx :=
    run.2 = Raised TypeError /\
    exists t banner,
      run.1 = t ++ [PrintOut ">>> d"; PrintObject d;
                    PrintOut ">>> dx"; PrintObject dx;
                    PrintOut ""; Embed banner; AtexitRegister] /\
      forall b, Embed b ∉ t in
  (forall pre d dx post,
      get_objects_dex s = pre ++ (h, d, dx) :: post ->
      Forall (fun e => e.1.1 <> h) pre ->
      presented d dx) /\
  (forall pre h' d dx,
      get_objects_dex s = pre ++ [(h', d, dx)] ->
      Forall (fun e => e.1.1 <> h) (pre ++ [(h', d, dx)]) ->
      presented d dx) /\
  (get_objects_dex s = [] ->
   run.2 = Raised (UnboundLocalError "d") /\
   last run.1 = Some (PrintOut ">>> d") /\
   forall b, Embed b ∉ run.1).
Proof.
  intros s h run presented.
  assert (forall d dx,
    select_dex h (get_objects_dex s) None = Some (d, dx) ->
    presented d dx) as Hsel.
  { intros d dx Hsel. unfold presented, run, androlyze_main. cbn [truthy].
    rewrite (bool_decide_eq_false_2 (filename = "")) by done. cbn [negb or_else].
    rewrite (bool_decide_eq_false_2 (filename = "")) by done.
    unfold load_file. fold s. fold h.
    rewrite bool_decide_eq_true_2
      by (destruct Htype as [->| ->]; [by left|by right; left]).
    rewrite bool_decide_eq_false_2 by (destruct Htype as [->| ->]; done).
    rewrite Hsel. cbn [fst snd]. split; [done|].
    eexists (ColoramaInit :: _ :: _ :: _ :: [_]), _. split.
    - simpl. reflexivity.
    - apply embed_not_in. by repeat constructor. }
  split; [|split].
  - intros pre d dx post Hentries Hpre. apply Hsel.
    rewrite Hentries. by apply select_dex_first_match.
  - intros pre h' d dx Hentries Hall. apply Hsel.
    rewrite select_dex_no_match by (by rewrite Hentries).
    by rewrite Hentries, last_snoc.
  - intros Hentries. unfold run, androlyze_main. cbn [truthy].
    rewrite (bool_decide_eq_false_2 (filename = "")) by done. cbn [negb or_else].
    rewrite (bool_decide_eq_false_2 (filename = "")) by done.
    unfold load_file. fold s. fold h.
    rewrite bool_decide_eq_true_2
      by (destruct Htype as [->| ->]; [by left|by right; left]).
    rewrite bool_decide_eq_false_2 by (destruct Htype as [->| ->]; done).
    rewrite Hentries. cbn [select_dex fst snd]. split; [done|].
    split; [done|]. simpl. apply embed_not_in. by repeat constructor.
Qed.

Lemma select_dex_bound h entries (b : obj * obj) :
  is_Some (select_dex h entries (Some b)).
Proof.
  revert b. induction entries as [|[[h_ d_] dx_] entries IH]; intros b; simpl.
  - by eexists.
  - case_bool_decide; [by eexists|apply IH].
Qed.

Lemma select_dex_unbound h entries :
  select_dex h entries None = None <-> entries = [].
Proof.
  split; [|by intros ->].
  destruct entries as [|[[h_ d_] dx_] entries]; [done|]. simpl.
  case_bool_decide; [done|].
  destruct (select_dex_bound h entries (d_, dx_)) as [b ->]. done.
Qed.

(** Loading the file neither starts the shell nor registers the hook, and
    it returns unless the file is a DEX file for which the session lists
    no object. *)
Lemma load_file_outcome (L : Libs obj) (s : Session obj) (filename : string) :
  Forall (fun e => match e with
                   | Embed _ | AtexitRegister => False
                   | _ => True
                   end) (load_file L s filename).1 /\
  ((load_file L s filename).2 = Returned <->
   ~ (is_android L filename ∈ [Some "DEX"; Some "DEY"] /\
      get_objects_dex s = [])) /\
  (forall e, (load_file L s filename).2 = Raised e ->
             e = UnboundLocalError "d").
Proof.
  unfold load_file.
  destruct (decide (is_android L filename ∈ [Some "DEX"; Some "DEY"; Some "APK"]))
    as [Hin|Hout].
  - rewrite bool_decide_eq_true_2 by done.
    destruct (decide (is_android L filename = Some "APK")) as [Hapk|Hdex].
    + rewrite bool_decide_eq_true_2 by done.
      destruct (get_objects_apk s _) as [[a d] dx]. simpl.
      split; [by repeat constructor|]. split; [|done].
      split; [|done]. intros _ [Hty _]. rewrite Hapk in Hty.
      repeat (apply elem_of_cons in Hty as [Hty|Hty]; [discriminate|]).
      by apply elem_of_nil in Hty.
    + rewrite bool_decide_eq_false_2 by done.
      assert (is_android L filename ∈ [Some "DEX"; Some "DEY"]) as Hty.
      { apply elem_of_cons in Hin as [Hin|Hin]; [rewrite Hin; by left|].
        apply elem_of_cons in Hin as [Hin|Hin]; [rewrite Hin; by right; left|].
        by apply list_elem_of_singleton in Hin. }
      destruct (select_dex _ (get_objects_dex s) None) as [[d dx]|] eqn:Hsel;
        simpl.
      * split; [by repeat constructor|]. split; [|done].
        split; [|done]. intros _ [_ Hnil]. by rewrite Hnil in Hsel.
      * apply select_dex_unbound in Hsel.
        split; [by repeat constructor|]. split; [|by intros e [= <-]].
        split; [done|]. intros Hnot. by destruct Hnot.
  - rewrite bool_decide_eq_false_2 by done. simpl.
    split; [by repeat constructor|]. split; [|done].
    split; [|done]. intros _ [Hty _]. apply Hout.
    apply elem_of_cons in Hty as [->|Hty]; [by left|].
    apply list_elem_of_singleton in Hty as ->. by right; left.
Qed.

(** X24. No run of [androlyze_main] returns. The shell is started exactly
    when no session file is given and the file, if one is given, is not a
    DEX file for which the session lists no object; a file of an
    unsupported type is reported and the shell is started all the same.
    The shell is started once, as the last step but one: when it is left
    the exit hook is registered, and the run ends with [TypeError], as
    what [embed] returned is called. A session file always ends the run
    with [NameError] for [Load], after the line that announces the
    restoring. *)
Theorem androlyze_shell_start (L : Libs obj) (session filename : option string) :
  let run := androlyze_main L session filename in
  let filetype := is_android L (or_else filename "") in
  let banner :=
    "Androguard version " +:+ ANDROGUARD_VERSION L +:+ " started" in
  run.2 <> Returned /\
  ((exists b, Embed b ∈ run.1) <->
   truthy session = false /\
   ~ (truthy filename = true /\ filetype ∈ [Some "DEX"; Some "DEY"] /\
      get_objects_dex (new_session L) = [])) /\
  ((exists b, Embed b ∈ run.1) <-> run.2 = Raised TypeError) /\
  (run.2 = Raised TypeError ->
   exists t, run.1 = ColoramaInit :: t ++ [Embed banner; AtexitRegister] /\
             (forall b, Embed b ∉ t) /\ AtexitRegister ∉ t) /\
  (truthy session = true ->
   run = ([ColoramaInit;
           LogInfo ("Restoring session '" +:+ or_else session "" +:+ "'...")],
          Raised (NameError "Load"))).
Proof.
  intros run filetype banner. unfold run, androlyze_main.
  destruct (truthy session) eqn:Hs.
  { simpl. split; [done|].
    assert (~ exists b : string,
              Embed b ∈ ([ColoramaInit;
                          LogInfo ("Restoring session '" +:+
                                   or_else session "" +:+ "'...")]
                         : list (event obj))) as Hno.
    { intros [b Hin].
      repeat (apply elem_of_cons in Hin as [Hin|Hin]; [discriminate|]).
      by apply elem_of_nil in Hin. }
    split; [split; [done|by intros [? _]]|].
    split; [split; [done|done]|]. by split. }
  assert (forall t : list (event obj),
            Forall (fun e => match e with
                             | Embed _ | AtexitRegister => False
                             | _ => True
                             end) t ->
            (forall b, Embed b ∉ t) /\ AtexitRegister ∉ t) as Hquiet.
  { intros t Hall. rewrite Forall_forall in Hall.
    split; [intros b Hin|intros Hin]; exact (Hall _ Hin). }
  assert (forall t : list (event obj),
            exists b, Embed b ∈ ColoramaInit :: t ++ [Embed banner; AtexitRegister])
    as Hstarted.
  { intros t. exists banner. right. apply elem_of_app. right. left. }
  destruct (truthy filename) eqn:Hf.
  - destruct (load_file_outcome L (new_session L) (or_else filename ""))
      as (Hshell & Hret & Hexn). fold filetype in Hret.
    destruct (load_file L (new_session L) (or_else filename "")) as [t [|e]];
      simpl in *.
    + split; [done|]. split; [|split; [|split; [|done]]].
      * split; [|by intros _]. intros _. split; [done|].
        intros (_ & Hty & Hnil). by apply Hret.
      * split; [done|by intros _].
      * intros _. exists t. split; [done|]. by apply Hquiet.
    + assert (~ exists b, Embed b ∈ ColoramaInit :: t) as Hno.
      { intros [b Hin].
        apply elem_of_cons in Hin as [Hin|Hin]; [discriminate|].
        by apply (proj1 (Hquiet t Hshell) b). }
      rewrite (Hexn e eq_refl) in *.
      split; [done|]. split; [|split; [|split; [|done]]].
      * split; [done|]. intros [_ Hnot]. exfalso. apply Hnot.
        split; [done|]. apply dec_stable. intros Hn. by apply Hret in Hn.
      * split; [done|done].
      * done.
  - simpl. split; [done|]. split; [|split; [|split; [|done]]].
    + split; [|intros _; exact (Hstarted [])]. intros _. split; [done|].
      by intros [? _].
    + split; [done|intros _; exact (Hstarted [])].
    + intros _. exists []. split; [done|]. split.
      * intros b Hin. by apply elem_of_nil in Hin.
      * intros Hin. by apply elem_of_nil in Hin.
Qed.

Lemma lower_eq_y (res : string) : lower res = "y" <-> res = "y" \/ res = "Y".
Proof.
  split; [|by intros [->| ->]].
  destruct res as [|c [|c' res]]; simpl; [done| |done].
  intros Heq. injection Heq as Hc.
  destruct c as [[] [] [] [] [] [] [] []]; vm_compute in Hc;
    try discriminate; auto.
Qed.

(** X25. At exit the session is saved exactly when it is open and the answer
    to the question is [y] or [Y]; any other answer, an end of input or an
    interrupt leaves it unsaved, and a session that is not open is not even
    asked about. *)
Theorem shutdown_hook_saves_on_y (s : Session obj) (answer : option string) :
  (SessionSave ∈ shutdown_hook s answer <->
   isOpen s = true /\ (answer = Some "y" \/ answer = Some "Y")) /\
  (isOpen s = false -> shutdown_hook s answer = []).
Proof.
  unfold shutdown_hook. split; [|by intros ->].
  destruct (isOpen s); simpl.
  2: { split; [by intros ?%elem_of_nil|by intros [? _]]. }
  destruct answer as [res|].
  - case_bool_decide as Hy.
    + apply lower_eq_y in Hy. split.
      * intros _. split; [done|]. destruct Hy as [->| ->]; auto.
      * intros _. right. left.
    + split.
      * intros Hin.
        apply elem_of_cons in Hin as [Hin|Hin]; [discriminate|].
        by apply elem_of_nil in Hin.
      * intros [_ [Heq|Heq]]; injection Heq as ->; destruct Hy; done.
  - split.
    + intros Hin.
      apply elem_of_cons in Hin as [Hin|Hin]; [discriminate|].
      by apply elem_of_nil in Hin.
    + by intros [_ [?|?]].
Qed.

End androlyze_facts.

Section androlyze_witness.
Import Androlyze.

Lemma androlyze_dex_selection_witness :
  (androlyze_main (obj := string)
     {| is_android := fun _ => Some "DEX"; read := fun _ => "";
        new_session :=
          {| add := fun _ _ => "h1";
             get_objects_apk := fun _ => ("", "", "");
             get_objects_dex := [("h0", "d0", "dx0")];
             isOpen := true; save := "session.ag" |};
        repr := fun s => s; ANDROGUARD_VERSION := "4" |}
     None (Some "classes.dex")).2 = Raised TypeError.
Proof.
  refine (proj1 (proj1 (proj2 (androlyze_dex_selection _ "classes.dex" _ _))
                   [] "h0" "d0" "dx0" _ _)).
  - discriminate.
  - by left.
  - reflexivity.
  - repeat constructor. discriminate.
Defined.

End androlyze_witness.

(** ** A decompiler name that is not known *)

(** X26. The choice of the decompiler is made by comparing the name with
    the four known ones, and there is no branch for any other name: a run
    with a decompiler name that is none of the four is the run with no
    decompiler, in all it does and in how it ends. *)
Theorem unknown_decompiler_is_ignored {N : Type} `{EqDecision N}
    (filename : string) (s : Session N) (output : string)
    (filt : option pattern) (jar : bool) (form : option string)
    (tag : string) (Htag : tag ∉ decompilers) :
  export_apps_to_format filename s output filt jar (Some tag) form =
  export_apps_to_format filename s output filt jar None form.
Proof.
  unfold export_apps_to_format, export_with_cg_output.
  assert (forall (M : Type) (dec : EqDecision M) dexes m0 n0 (G : DiGraph M) acc,
            export_loop output filt jar (Some tag) (cg_nodes_by_label s)
              (cg_nodes_by_external s) dexes m0 n0 G acc =
            export_loop output filt jar None (cg_nodes_by_label s)
              (cg_nodes_by_external s) dexes m0 n0 G acc) as Hloop.
  { intros M dec dexes. revert M dec.
    induction dexes as [|vm dexes IH]; intros M dec m0 n0 G acc; [done|].
    rewrite !export_loop_cons.
    assert (export_dex output filt jar (Some tag) (cg_nodes_by_label s)
              (cg_nodes_by_external s) vm m0 n0 G =
            export_dex output filt jar None (cg_nodes_by_label s)
              (cg_nodes_by_external s) vm m0 n0 G) as ->.
    { unfold export_dex, set_decompiler.
      by rewrite bool_decide_eq_false_2. }
    destruct (export_dex _ _ _ _ _ _ _ _ _ _) as [t [r|e]]; [|done].
    unfold mbind, M_bind. by rewrite IH. }
  by rewrite Hloop.
Qed.

Lemma unknown_decompiler_is_ignored_witness :
  let cfg := {| cfg_nodes := [(0, Some (JArr [JNum 1]))]; cfg_edges := [] |} in
  let A := {| get_class_name := "LA;"; get_name := "a";
              get_descriptor := "()V"; get_instructions := [14];
              method2dotaggregated := cfg |} in
  let s : Session string :=
    {| get_objects_dex := [{| get_methods := [A] |}];
       call_graph := [("a", [])];
       cg_nodes_by_label := ["LA;a()V"];
       cg_nodes_by_external := [false] |} in
  export_apps_to_format "app.apk" s "out" None true (Some "jadx") None =
  export_apps_to_format "app.apk" s "out" None true None None.
Proof.
  intros cfg A s.
  apply (unknown_decompiler_is_ignored "app.apk" s "out" None true None "jadx").
  unfold decompilers. intros Hin.
  repeat (apply elem_of_cons in Hin as [Hin|Hin]; [discriminate|]).
  by apply elem_of_nil in Hin.
Defined.

(** ** [androsign_main] without the details *)

Section androsign_quiet.
Import Androsign.

Lemma for_each_say {A : Type} (lines : A -> list string) (l : list A) :
  for_each (fun x => say (lines x)) l =
    (flat_map (fun x => map Stdout (lines x)) l, true).
Proof.
  induction l as [|x l IH]; [done|]. simpl. rewrite IH. done.
Qed.

(** X27. Without the certificate details, a file that loads is reported
    without any error: after the four header lines come, when there is a
    certificate, the count of distinct certificates, then for each distinct
    certificate of the three signature schemes one line with the selected
    hash and a blank line, then the count of distinct public keys and one
    blank line per key. A certificate carried by several schemes is
    counted and hashed once. *)
Theorem androsign_one_hash_per_certificate (L : Libs) (args_hash : string)
    (path : string) (a : APK) (f : hashfunction)
    (Hload : load_APK L path = Some a)
    (Hhash : hashfunctions_get (lower args_hash) = Some f) :
  exists certs pkeys : list bytes,
    NoDup certs /\ NoDup pkeys /\
    (forall c, c ∈ certs <->
               c ∈ get_certificates_der_v3 a \/
               c ∈ get_certificates_der_v2 a \/
               exists x, x ∈ get_signature_names a /\
                         c = get_certificate_der a x) /\
    (forall k, k ∈ pkeys <->
               k ∈ get_public_keys_der_v3 a \/ k ∈ get_public_keys_der_v2 a) /\
    try_report L args_hash false false path =
      map Stdout
        ([os_path_basename path +:+ ", package: '" +:+ get_package a +:+ "'";
          "Is signed v1: " +:+ str_bool (is_signed_v1 a);
          "Is signed v2: " +:+ str_bool (is_signed_v2 a);
          "Is signed v3: " +:+ str_bool (is_signed_v3 a)] ++
         (if bool_decide (0 < length certs)
          then ["Found " +:+ pretty (length certs) +:+ " unique certificates"]
          else []) ++
         flat_map (fun c => [lower args_hash +:+ " " +:+ hexdigest L f c; ""])
                  certs ++
         (if bool_decide (0 < length certs)
          then ["Found " +:+ pretty (length pkeys) +:+
                " unique public keys associated with the certs"]
          else []) ++
         flat_map (fun _ => [""]) pkeys).
Proof.
  set (cset := list_to_set (get_certificates_der_v3 a ++
                            get_certificates_der_v2 a ++
                            map (get_certificate_der a) (get_signature_names a))
               : gset bytes).
  set (kset := list_to_set (get_public_keys_der_v3 a ++
                            get_public_keys_der_v2 a) : gset bytes).
  exists (elements cset), (elements kset).
  split; [apply NoDup_elements|]. split; [apply NoDup_elements|].
  split; [|split].
  - intros c. rewrite elem_of_elements. unfold cset.
    rewrite elem_of_list_to_set, !elem_of_app, map_fmap, list_elem_of_fmap.
    split; intros [?|[?|(x & ? & ?)]]; eauto.
  - intros k. rewrite elem_of_elements. unfold kset.
    by rewrite elem_of_list_to_set, elem_of_app.
  - unfold try_report. rewrite Hload. unfold apk_report. fold cset kset.
    assert (forall c, certificate_report L args_hash false false c =
              say [lower args_hash +:+ " " +:+ hexdigest L f c; ""]) as Hc.
    { intros c. unfold certificate_report, hash_lines. cbn [negb].
      by rewrite Hhash. }
    rewrite (for_each_ext _ _ _ Hc), for_each_say.
    assert (forall k, public_key_report L false k = say [""]) as Hk by done.
    rewrite (for_each_ext _ _ _ Hk), for_each_say.
    unfold size, set_size. simpl.
    rewrite !map_app, !flat_map_concat_map.
    destruct (bool_decide (0 < length (elements cset))); simpl;
      rewrite ?concat_map, ?map_map; simpl; reflexivity.
Qed.

Lemma androsign_one_hash_per_certificate_witness :
  let a := {| get_package := "com.example"; is_signed_v1 := false;
              is_signed_v2 := true; is_signed_v3 := true;
              get_certificates_der_v3 := ["c1"];
              get_certificates_der_v2 := ["c1"];
              get_signature_names := [];
              get_certificate_der := fun _ => "";
              get_public_keys_der_v3 := ["k1"];
              get_public_keys_der_v2 := ["k1"] |} in
  let L := {| hexdigest := fun _ c => c; load_APK := fun _ => Some a;
              show_certificate := fun _ => ([], true);
              show_public_key := fun _ => ([], true) |} in
  exists certs pkeys : list bytes,
    NoDup certs /\ NoDup pkeys /\
    try_report L "SHA1" false false "dir/app.apk" =
      map Stdout
        ([os_path_basename "dir/app.apk" +:+ ", package: '" +:+
            get_package a +:+ "'";
          "Is signed v1: " +:+ str_bool (is_signed_v1 a);
          "Is signed v2: " +:+ str_bool (is_signed_v2 a);
          "Is signed v3: " +:+ str_bool (is_signed_v3 a)] ++
         (if bool_decide (0 < length certs)
          then ["Found " +:+ pretty (length certs) +:+ " unique certificates"]
          else []) ++
         flat_map (fun c => [lower "SHA1" +:+ " " +:+ hexdigest L sha1 c; ""])
                  certs ++
         (if bool_decide (0 < length certs)
          then ["Found " +:+ pretty (length pkeys) +:+
                " unique public keys associated with the certs"]
          else []) ++
         flat_map (fun _ => [""]) pkeys).
Proof.
  intros a L.
  destruct (androsign_one_hash_per_certificate L "SHA1" "dir/app.apk" a sha1
              eq_refl eq_refl)
    as (certs & pkeys & Hc & Hk & _ & _ & Heq).
  exists certs, pkeys. split; [exact Hc|]. split; [exact Hk|exact Heq].
Defined.

End androsign_quiet.
